(** * ollama-dl-go: a shallow embedding of [main.go]

    The program resolves a model manifest into download jobs
    ([getDownloadJobs]), then fetches every blob with a resumable,
    retrying transfer ([downloadBlob]) run in one goroutine per job and
    joined with a [sync.WaitGroup] ([main]).

    Go strings are byte strings, so they are modelled as [string]; file
    contents are [list byte]; [int64] values are [Z] (no arithmetic in
    the program can overflow: offsets are file lengths).  The file
    system is a finite map from paths to contents.  Everything the
    operating system, the network and the JSON decoder decide is an
    explicit oracle argument. *)

From Stdlib Require Import ZArith String Ascii Strings.Byte List Lia DecimalString.
From stdpp Require Import base gmap strings list.

Local Open Scope Z_scope.
Local Open Scope string_scope.

(** ** Go values *)

(** A Go [error] value: either built by this program with [errors.New] /
    [fmt.Errorf], or handed back by a library call (os, net/http, json). *)
Inductive error :=
| errorString (msg : string)
| libError (msg : string).

Definition Error (e : error) : string :=
  match e with errorString m => m | libError m => m end.

(** Outcome of a function returning [(T, error)] that may also panic. *)
Inductive result (A : Type) :=
| Ok (a : A)
| Err (e : error)
| Panic.
Arguments Ok {A} a.
Arguments Err {A} e.
Arguments Panic {A}.

(** ** The part of [fmt.Sprintf] the program uses: the verbs %s, %d, %v *)

Inductive fmt_arg :=
| FStr (s : string)
| FInt (z : Z).

Definition format_arg (a : fmt_arg) : string :=
  match a with
  | FStr s => s
  | FInt z => NilZero.string_of_int (Z.to_int z)
  end.

Definition is_verb (c : ascii) : bool :=
  (Ascii.eqb c "s" || Ascii.eqb c "d" || Ascii.eqb c "v")%bool.

Fixpoint Sprintf (format : string) (args : list fmt_arg) : string :=
  match format with
  | EmptyString => EmptyString
  | String c rest =>
      match rest with
      | String v rest' =>
          if (Ascii.eqb c "%" && is_verb v)%bool then
            match args with
            | a :: args' => format_arg a +:+ Sprintf rest' args'
            | [] => "%!" +:+ String v "(MISSING)" +:+ Sprintf rest' []
            end
          else String c (Sprintf rest args)
      | EmptyString => String c EmptyString
      end
  end.

(** [strings.HasPrefix s p]. *)
Definition HasPrefix (s p : string) : bool := String.prefix p s.

(** The slice expression [s[lo:hi]] on a string: it panics unless
    [lo <= hi <= len(s)]. *)
Definition slice (s : string) (lo hi : nat) : option string :=
  if ((lo <=? hi)%nat && (hi <=? String.length s)%nat)%bool
  then Some (String.substring lo (hi - lo) s)
  else None.

(** ** Constants and types of [main.go] *)

Definition numRetries : Z := 10.

Definition StatusOK : Z := 200.
Definition StatusPartialContent : Z := 206.

Definition mediaTypeToFileTemplate : gmap string string :=
  <["application/vnd.ollama.image.license"  := "license-%s.txt"]>
  (<["application/vnd.ollama.image.model"    := "model-%s.gguf"]>
  (<["application/vnd.ollama.image.params"   := "params-%s.json"]>
  (<["application/vnd.ollama.image.system"   := "system-%s.txt"]>
  (<["application/vnd.ollama.image.template" := "template-%s.txt"]> ∅)))).

Module Layer.
Record t := mk {
  MediaType : string;
  Digest : string;
  Size : Z
}.
End Layer.

Module Manifest.
Record t := mk {
  MediaType : string;
  Layers : list Layer.t
}.
End Manifest.

Module DownloadJob.
Record t := mk {
  Layer : Layer.t;
  DestPath : string;
  BlobURL : string;
  Size : Z
}.
End DownloadJob.

(** ** [getShortHash] *)

Definition getShortHash (layer : Layer.t) : result string :=
  if negb (HasPrefix (Layer.Digest layer) "sha256:") then
    Err (errorString (Sprintf "unexpected digest: %s" [FStr (Layer.Digest layer)]))
  else
    match slice (Layer.Digest layer) 7 19 with
    | Some h => Ok h
    | None => Panic
    end.

(** ** [getDownloadJobs]

    [filepath.Join] belongs to Go's standard library and is a parameter
    of the development.  The registry is an oracle [client_Get] from the
    manifest URL to what [client.Get] and the JSON decoder produce. *)

Inductive get_result :=
| GetErr (e : error)
| GetResp (StatusCode : Z) (decoded : error + Manifest.t).

Definition manifestV2 : string :=
  "application/vnd.docker.distribution.manifest.v2+json".

Section Resolver.

Variable filepath_Join : string -> string -> string.
Variable client_Get : string -> get_result.

(** One layer of the [for _, layer := range manifest.Layers] loop:
    [None] is the [continue], otherwise the job or the early return. *)
Definition layerJob (registry destDir name : string) (layer : Layer.t)
  : option (result DownloadJob.t) :=
  match mediaTypeToFileTemplate !! Layer.MediaType layer with
  | None => None
  | Some fileTemplate =>
      match getShortHash layer with
      | Err e => Some (Err e)
      | Panic => Some Panic
      | Ok shortHash =>
          let filename := Sprintf fileTemplate [FStr shortHash] in
          let destPath := filepath_Join destDir filename in
          let blobURL :=
            Sprintf "%s/v2/%s/blobs/%s"
              [FStr registry; FStr name; FStr (Layer.Digest layer)] in
          Some (Ok (DownloadJob.mk layer destPath blobURL (Layer.Size layer)))
      end
  end.

Fixpoint rangeLayers (registry destDir name : string)
    (layers : list Layer.t) (jobs : list DownloadJob.t)
  : result (list DownloadJob.t) :=
  match layers with
  | [] => Ok jobs
  | layer :: rest =>
      match layerJob registry destDir name layer with
      | None => rangeLayers registry destDir name rest jobs
      | Some (Ok job) => rangeLayers registry destDir name rest (jobs ++ [job])
      | Some (Err e) => Err e
      | Some Panic => Panic
      end
  end.

Definition getDownloadJobs (registry destDir name version : string)
  : result (list DownloadJob.t) :=
  let manifestURL :=
    Sprintf "%s/v2/%s/manifests/%s" [FStr registry; FStr name; FStr version] in
  match client_Get manifestURL with
  | GetErr err => Err err
  | GetResp StatusCode decoded =>
      if negb (StatusCode =? StatusOK)%Z then
        Err (errorString (Sprintf "failed to get manifest: %d" [FInt StatusCode]))
      else
        match decoded with
        | inl err => Err err
        | inr manifest =>
            if negb (String.eqb (Manifest.MediaType manifest) manifestV2) then
              Err (errorString (Sprintf "unexpected media type for manifest: %s"
                                  [FStr (Manifest.MediaType manifest)]))
            else
              rangeLayers registry destDir name (Manifest.Layers manifest) []
        end
  end.

End Resolver.

(** ** The world of one transfer *)

Record request := mkRequest {
  Method : string;
  URL : string;
  Header : gmap string string
}.

(** What [io.Copy(io.MultiWriter(outFile, bar), resp.Body)] did: the
    chunks it appended to the staging file, in order, and the error it
    ended with, if any (from the body reader, the file or the progress
    bar). *)
Record copy_result := mkCopy {
  chunks : list (list byte);
  copy_err : option error
}.

Inductive do_result :=
| DoErr (e : error)
| DoResp (StatusCode : Z) (body : copy_result).

(** Everything outside the program that one loop iteration of
    [downloadBlob] depends on. *)
Record attempt_world := mkWorld {
  MkdirAll_err : option error;
  OpenFile_err : option error;
  NewRequest_err : option error;
  client_Do : request -> do_result;
  Rename_err : option error
}.

(** The state a transfer acts on: the regular files, the earlier file
    system states (most recent first), the calls to [client.Do] so far
    (oldest first) and the counter of the [sync.WaitGroup]. *)
Record state := mkState {
  fs : gmap string (list byte);
  hist : list (gmap string (list byte));
  net : list request;
  wg : Z
}.

Definition set_fs (st : state) (fs' : gmap string (list byte)) : state :=
  {| fs := fs'; hist := fs st :: hist st; net := net st; wg := wg st |}.

Definition log_request (st : state) (req : request) : state :=
  {| fs := fs st; hist := hist st; net := net st ++ [req]; wg := wg st |}.

Definition wg_Add (st : state) (delta : Z) : state :=
  {| fs := fs st; hist := hist st; net := net st; wg := wg st + delta |}.

Definition wg_Done (st : state) : state := wg_Add st (-1).

(** [os.OpenFile(p, O_CREATE|O_WRONLY|O_APPEND, 0644)] when it succeeds. *)
Definition OpenFile_append (p : string) (m : gmap string (list byte))
  : gmap string (list byte) :=
  match m !! p with
  | Some _ => m
  | None => <[p := []]> m
  end.

(** The bytes of the file at [p]; none when there is no such file. *)
Definition content (p : string) (m : gmap string (list byte)) : list byte :=
  default [] (m !! p).

(** One write to a file opened with [O_APPEND]: the bytes go to its end.
    Files are addressed by path; within one transfer nothing else renames
    or removes the staging file between the open and the rename. *)
Definition File_Write (p : string) (bs : list byte) (m : gmap string (list byte))
  : gmap string (list byte) :=
  <[p := (content p m ++ bs)%list]> m.

(** [os.Rename(old, new)] when it succeeds. *)
Definition Rename (old new : string) (m : gmap string (list byte))
  : gmap string (list byte) :=
  match m !! old with
  | Some c => <[new := c]> (delete old m)
  | None => m
  end.

(** [outFile.Seek(0, io.SeekEnd)]. *)
Definition Seek_end (p : string) (m : gmap string (list byte)) : Z :=
  Z.of_nat (length (content p m)).

(** The writes of [io.Copy], one per chunk; every write is a file system
    state of its own. *)
Fixpoint Copy (p : string) (cs : list (list byte)) (st : state) : state :=
  match cs with
  | [] => st
  | c :: cs' => Copy p cs' (set_fs st (File_Write p c (fs st)))
  end.

(** ** [downloadBlob] *)

Definition tempPath (job : DownloadJob.t) : string :=
  DownloadJob.DestPath job +:+ ".tmp".

(** [http.NewRequest("GET", job.BlobURL, nil)] followed by the
    conditional [req.Header.Set("Range", ...)]. *)
Definition rangeRequest (job : DownloadJob.t) (startOffset : Z) : request :=
  let req := mkRequest "GET" (DownloadJob.BlobURL job) ∅ in
  if (0 <? startOffset)%Z then
    mkRequest (Method req) (URL req)
      (<["Range" := Sprintf "bytes=%d-" [FInt startOffset]]> (Header req))
  else req.

Inductive iter_result :=
| Continue
| Return (err : option error).

(** The body of the [for attempt := 1; attempt <= numRetries; attempt++]
    loop.  The progress bar only consumes byte counts; whatever it
    contributes to the outcome of [io.Copy] is part of [copy_result].
    The deferred [Close] calls have no effect on the files' contents. *)
Definition downloadBlob_iter (w : attempt_world) (job : DownloadJob.t)
    (st : state) : state * iter_result :=
  match MkdirAll_err w with
  | Some err =>
      (st, Return (Some (errorString
             (Sprintf "failed to create directory: %v" [FStr (Error err)]))))
  | None =>
  match OpenFile_err w with
  | Some err => (st, Return (Some err))
  | None =>
      let st1 := set_fs st (OpenFile_append (tempPath job) (fs st)) in
      let startOffset := Seek_end (tempPath job) (fs st1) in
      match NewRequest_err w with
      | Some err => (st1, Return (Some err))
      | None =>
          let req := rangeRequest job startOffset in
          let st2 := log_request st1 req in
          match client_Do w req with
          | DoErr err => (st2, Return (Some err))
          | DoResp StatusCode body =>
              if (negb (StatusCode =? StatusOK)%Z
                  && negb (StatusCode =? StatusPartialContent)%Z)%bool then
                (st2, Return (Some (errorString
                        (Sprintf "unexpected status code: %d" [FInt StatusCode]))))
              else
                let st3 := Copy (tempPath job) (chunks body) st2 in
                match copy_err body with
                | Some _ => (st3, Continue)
                | None =>
                    match Rename_err w with
                    | Some err => (st3, Return (Some err))
                    | None =>
                        (set_fs st3
                           (Rename (tempPath job) (DownloadJob.DestPath job) (fs st3)),
                         Return None)
                    end
                end
          end
      end
  end
  end.

(** The loop, with the attempt counter as in the source; [fuel] bounds
    the number of iterations and [None] means it ran out. *)
Fixpoint downloadBlob_loop (fuel : nat) (world : Z -> attempt_world)
    (job : DownloadJob.t) (attempt : Z) (st : state)
  : option (state * option error) :=
  match fuel with
  | O => None
  | S fuel' =>
      if (attempt <=? numRetries)%Z then
        match downloadBlob_iter (world attempt) job st with
        | (st', Continue) => downloadBlob_loop fuel' world job (attempt + 1) st'
        | (st', Return err) => Some (st', err)
        end
      else Some (st, Some (errorString "maximum retries reached"))
  end.

(** [defer wg.Done()] runs when the function returns. *)
Definition downloadBlob (world : Z -> attempt_world) (job : DownloadJob.t)
    (st : state) : option (state * option error) :=
  match downloadBlob_loop (S (Z.to_nat numRetries)) world job 1 st with
  | Some (st', err) => Some (wg_Done st', err)
  | None => None
  end.

(** ** [main]: the orchestrator and its goroutines

    The flag handling at the top of [main] only computes [registry],
    [destDir], [name] and [version]; the model starts at the call of
    [getDownloadJobs].  The Go scheduler is an explicit list of choices:
    each choice lets the main goroutine or one transfer goroutine take
    its next step.  A transfer goroutine runs one loop iteration of
    [downloadBlob] per step; the deferred [wg.Done()] runs in the step
    in which [downloadBlob] returns, and the test [err != nil] with its
    [Println] is a later step of the same goroutine. *)

(** [fmt.Println(a, b, ...)] as one line of standard output. *)
Definition Println (args : list string) : string := String.concat " " args.

Inductive goroutine_pc :=
| AtLoop (attempt : Z)
| Returned (err : option error)
| Finished.

Record goroutine := mkGoroutine {
  g_idx : nat;
  g_job : DownloadJob.t;
  g_pc : goroutine_pc
}.

Inductive main_pc :=
| Ranging (i : nat)
| Exited (code : Z)
| Panicked.

Record sys := mkSys {
  sys_state : state;
  stdout : list string;
  goroutines : list goroutine;
  pc : main_pc
}.

(** [os.Stat(p)] returns no error: something exists at [p]. *)
Definition Stat_ok (p : string) (m : gmap string (list byte)) : bool :=
  bool_decide (is_Some (m !! p)).

Inductive choice :=
| RunMain
| RunGoroutine (k : nat).

Section Orchestrator.

Variable filepath_Join : string -> string -> string.
Variable client_Get : string -> get_result.
(** The world of the transfer of the [i]-th job, per attempt. *)
Variable worlds : nat -> Z -> attempt_world.

(** The state [main] starts in: the files on disk, an idle network
    and the zero [sync.WaitGroup]. *)
Definition boot (m : gmap string (list byte)) : state := mkState m [] [] 0.

(** [main] up to the range loop. *)
Definition main_start (registry destDir name version : string)
    (m : gmap string (list byte)) : list DownloadJob.t * sys :=
  match getDownloadJobs filepath_Join client_Get registry destDir name version with
  | Err err =>
      ([], mkSys (boot m) [Println ["Error getting download jobs:"; Error err]] []
             (Exited 1))
  | Panic => ([], mkSys (boot m) [] [] Panicked)
  | Ok jobs => (jobs, mkSys (boot m) [] [] (Ranging 0))
  end.

Variable jobs : list DownloadJob.t.

(** One step of the main goroutine: one iteration of the range loop,
    or [wg.Wait()] with what follows it.  [None]: no step possible
    (blocked in [Wait], or the process is over). *)
Definition main_step (s : sys) : option sys :=
  match pc s with
  | Ranging i =>
      match jobs !! i with
      | Some job =>
          if Stat_ok (DownloadJob.DestPath job) (fs (sys_state s)) then
            Some (mkSys (sys_state s)
                    (stdout s ++ [Println ["Already have"; DownloadJob.DestPath job]])
                    (goroutines s)
                    (Ranging (S i)))
          else
            Some (mkSys (wg_Add (sys_state s) 1)
                    (stdout s)
                    (goroutines s ++ [mkGoroutine i job (AtLoop 1)])
                    (Ranging (S i)))
      | None =>
          if (wg (sys_state s) =? 0)%Z then
            Some (mkSys (sys_state s)
                    (stdout s ++ [Println ["Download complete"]])
                    (goroutines s)
                    (Exited 0))
          else None
      end
  | Exited _ => None
  | Panicked => None
  end.

(** One step of a transfer goroutine on the shared state: the new
    state, the new program point and the line printed, if any. *)
Definition goroutine_step (g : goroutine) (st : state)
  : option (state * goroutine_pc * list string) :=
  match g_pc g with
  | AtLoop attempt =>
      if (attempt <=? numRetries)%Z then
        match downloadBlob_iter (worlds (g_idx g) attempt) (g_job g) st with
        | (st', Continue) => Some (st', AtLoop (attempt + 1), [])
        | (st', Return err) => Some (wg_Done st', Returned err, [])
        end
      else
        Some (wg_Done st, Returned (Some (errorString "maximum retries reached")), [])
  | Returned (Some err) =>
      Some (st, Finished, [Println ["Download error:"; Error err]])
  | Returned None => Some (st, Finished, [])
  | Finished => None
  end.

Definition running (s : sys) : bool :=
  match pc s with Ranging _ => true | _ => false end.

Definition step (c : choice) (s : sys) : option sys :=
  if running s then
    match c with
    | RunMain => main_step s
    | RunGoroutine k =>
        match goroutines s !! k with
        | Some g =>
            match goroutine_step g (sys_state s) with
            | Some (st', pc', out) =>
                Some (mkSys st' (stdout s ++ out)
                        (<[k := mkGoroutine (g_idx g) (g_job g) pc']> (goroutines s))
                        (pc s))
            | None => None
            end
        | None => None
        end
    end
  else None.

Fixpoint exec (schedule : list choice) (s : sys) : option sys :=
  match schedule with
  | [] => Some s
  | c :: schedule' =>
      match step c s with
      | Some s' => exec schedule' s'
      | None => None
      end
  end.

Definition initial (m : gmap string (list byte)) : sys :=
  mkSys (boot m) [] [] (Ranging 0).

Definition reachable (m : gmap string (list byte)) (s : sys) : Prop :=
  exists schedule, exec schedule (initial m) = Some s.

End Orchestrator.

(** [main] under a given schedule. *)
Definition main (filepath_Join : string -> string -> string)
    (client_Get : string -> get_result) (worlds : nat -> Z -> attempt_world)
    (registry destDir name version : string) (m : gmap string (list byte))
    (schedule : list choice) : option sys :=
  let (jobs, s0) :=
    main_start filepath_Join client_Get registry destDir name version m in
  exec worlds jobs schedule s0.

(** ** Vocabulary of the statements *)

(** The iteration gets as far as [client.Do]: the directory, the staging
    file and the request could be made. *)
Definition reaches_Do (w : attempt_world) : Prop :=
  MkdirAll_err w = None /\ OpenFile_err w = None /\ NewRequest_err w = None.

(** The bytes in the staging file of a job ([[]] when it does not exist). *)
Definition staged (job : DownloadJob.t) (m : gmap string (list byte)) : list byte :=
  content (tempPath job) m.

(** The state in which [client.Do] is called by an iteration started in
    [st], and the request it is called with. *)
Definition opened (job : DownloadJob.t) (st : state) : state :=
  set_fs st (OpenFile_append (tempPath job) (fs st)).

Definition sent (job : DownloadJob.t) (st : state) : request :=
  rangeRequest job (Z.of_nat (length (staged job (fs st)))).

(** The body bytes that the response to the request of an iteration
    started in [st] hands to the copy. *)
Definition delivered (w : attempt_world) (job : DownloadJob.t) (st : state)
  : list byte :=
  match client_Do w (sent job st) with
  | DoResp _ body => concat (chunks body)
  | DoErr _ => []
  end.

(** Every attempt in the budget gets a response with status 200 or 206
    whose body copy ends in an error. *)
Definition always_copy_fails (world : Z -> attempt_world) : Prop :=
  forall (attempt : Z) (req : request),
    (1 <= attempt <= numRetries)%Z ->
    reaches_Do (world attempt) /\
    exists code body e,
      client_Do (world attempt) req = DoResp code body /\
      (code = StatusOK \/ code = StatusPartialContent) /\
      copy_err body = Some e.

(** What an iteration does once [client.Do] has returned [r]: the rest of
    the loop body of [downloadBlob], from the test of [err] on. *)
Definition after_Do (w : attempt_world) (job : DownloadJob.t) (st2 : state)
    (r : do_result) : state * iter_result :=
  match r with
  | DoErr err => (st2, Return (Some err))
  | DoResp StatusCode body =>
      if (negb (StatusCode =? StatusOK)%Z
          && negb (StatusCode =? StatusPartialContent)%Z)%bool then
        (st2, Return (Some (errorString
                (Sprintf "unexpected status code: %d" [FInt StatusCode]))))
      else
        let st3 := Copy (tempPath job) (chunks body) st2 in
        match copy_err body with
        | Some _ => (st3, Continue)
        | None =>
            match Rename_err w with
            | Some err => (st3, Return (Some err))
            | None =>
                (set_fs st3
                   (Rename (tempPath job) (DownloadJob.DestPath job) (fs st3)),
                 Return None)
            end
        end
  end.

(** What an observer of the file system can see during one iteration
    started in [st]: the destination as it was, and a staging file that
    holds the old bytes followed by at most the delivered ones. *)
Definition in_flight (w : attempt_world) (job : DownloadJob.t) (st : state)
    (m : gmap string (list byte)) : Prop :=
  m !! DownloadJob.DestPath job = fs st !! DownloadJob.DestPath job /\
  exists bs, staged job m = (staged job (fs st) ++ bs)%list /\
             (length bs <= length (delivered w job st))%nat.

(** The committed outcome of an iteration: the copy of a 200/206 response
    ended without error, the staging file then held the old bytes
    followed by the whole body, and the rename moved exactly that to the
    destination. *)
Definition committed (w : attempt_world) (job : DownloadJob.t) (st st' : state)
    (new : list (gmap string (list byte))) : Prop :=
  exists code body m new',
    client_Do w (sent job st) = DoResp code body /\
    (code = StatusOK \/ code = StatusPartialContent) /\
    copy_err body = None /\ Rename_err w = None /\
    new = m :: new' /\
    m !! tempPath job = Some (staged job (fs st) ++ concat (chunks body))%list /\
    fs st' !! DownloadJob.DestPath job
    = Some (staged job (fs st) ++ concat (chunks body))%list /\
    fs st' !! tempPath job = None.

(** The resolution errors the code detects, as a property of what the
    manifest request yields: the request fails; the status is not 200;
    the body does not decode; the manifest's media type is not the
    expected one; or a layer of a recognized media type has a digest that
    does not start with [sha256:] (no layer of a recognized media type
    before it making [getShortHash] panic). *)
Inductive resolution_error : get_result -> Prop :=
| RE_request (e : error) :
    resolution_error (GetErr e)
| RE_status (code : Z) (decoded : error + Manifest.t) :
    code <> StatusOK ->
    resolution_error (GetResp code decoded)
| RE_decode (code : Z) (e : error) :
    resolution_error (GetResp code (inl e))
| RE_media_type (code : Z) (manifest : Manifest.t) :
    Manifest.MediaType manifest <> manifestV2 ->
    resolution_error (GetResp code (inr manifest))
| RE_digest (code : Z) (manifest : Manifest.t)
    (before : list Layer.t) (layer : Layer.t) (after : list Layer.t) :
    Manifest.Layers manifest = (before ++ layer :: after)%list ->
    Forall (fun l => is_Some (mediaTypeToFileTemplate !! Layer.MediaType l) ->
                     getShortHash l <> Panic) before ->
    is_Some (mediaTypeToFileTemplate !! Layer.MediaType layer) ->
    HasPrefix (Layer.Digest layer) "sha256:" = false ->
    resolution_error (GetResp code (inr manifest)).

(** The number of goroutines that are still inside [downloadBlob]. *)
Definition in_downloadBlob (g : goroutine) : Z :=
  match g_pc g with AtLoop _ => 1 | _ => 0 end.

Fixpoint active (gs : list goroutine) : Z :=
  match gs with
  | [] => 0
  | g :: gs' => in_downloadBlob g + active gs'
  end.

(** The range loop is past index [i]. *)
Definition passed (s : sys) (i : nat) : Prop :=
  match pc s with
  | Ranging j => (i < j)%nat
  | _ => True
  end.

(** Job [i] was given a goroutine, or was reported as already there. *)
Definition dispatched_or_skipped (s : sys) (i : nat) (job : DownloadJob.t) : Prop :=
  (exists k g, goroutines s !! k = Some g /\ g_idx g = i /\ g_job g = job) \/
  Println ["Already have"; DownloadJob.DestPath job] ∈ stdout s.

(** What holds of every state [main] can be in: the wait group counts the
    goroutines inside [downloadBlob]; every goroutine transfers the job
    of an index the range loop has passed; every job the loop has passed
    was dispatched or skipped; and once [main] is past [wg.Wait()] no
    goroutine is inside [downloadBlob]. *)
Definition sys_inv (jobs : list DownloadJob.t) (s : sys) : Prop :=
  wg (sys_state s) = active (goroutines s) /\
  Forall (fun g => jobs !! g_idx g = Some (g_job g) /\ passed s (g_idx g))
         (goroutines s) /\
  (forall i job, jobs !! i = Some job -> passed s i -> dispatched_or_skipped s i job) /\
  (forall code, pc s = Exited code -> active (goroutines s) = 0%Z).

(** No goroutine transfers job [i], and the range loop is past it. *)
Definition no_goroutine_for (i : nat) (s : sys) : Prop :=
  Forall (fun g => g_idx g <> i) (goroutines s) /\ passed s i.

(** A goroutine left alone for [n] steps. *)
Fixpoint goroutine_run (worlds : nat -> Z -> attempt_world) (n : nat)
    (g : goroutine) (st : state) : option (state * goroutine) :=
  match n with
  | O => Some (st, g)
  | S n' =>
      match goroutine_step worlds g st with
      | Some (st', pc', _) =>
          goroutine_run worlds n' (mkGoroutine (g_idx g) (g_job g) pc') st'
      | None => None
      end
  end.

(** ** Concrete inputs used by the examples *)

(** The params layer of the specification's scenario. *)
Definition demo_layer : Layer.t :=
  Layer.mk "application/vnd.ollama.image.params"
    "sha256:aaaaaaaaaaaaaaaaaaaaaaaaaaaaaaaaaaaaaaaaaaaaaaaaaaaaaaaaaaaa1234" 96.

(** Its job for the default registry and the destination directory
    [dst]. *)
Definition demo_job : DownloadJob.t :=
  DownloadJob.mk demo_layer "dst/params-aaaaaaaaaaaa.json"
    "https://registry.ollama.ai//v2/library/demo/blobs/sha256:aaaaaaaaaaaaaaaaaaaaaaaaaaaaaaaaaaaaaaaaaaaaaaaaaaaaaaaaaaaa1234"
    96.

(** A job whose descriptor expects three bytes. *)
Definition tiny_job : DownloadJob.t :=
  DownloadJob.mk
    (Layer.mk "application/vnd.ollama.image.params"
       "sha256:aaaaaaaaaaaaaaaaaaaaaaaaaaaaaaaaaaaaaaaaaaaaaaaaaaaaaaaaaaaa1234" 3)
    "dst/params-aaaaaaaaaaaa.json"
    "https://registry.ollama.ai//v2/library/demo/blobs/sha256:aaaaaaaaaaaaaaaaaaaaaaaaaaaaaaaaaaaaaaaaaaaaaaaaaaaaaaaaaaaa1234"
    3.

(** A world in which the local calls succeed and every request gets the
    status [code] and a body whose copy writes [cs] and ends with [e]. *)
Definition serve (code : Z) (cs : list (list byte)) (e : option error) : attempt_world :=
  mkWorld None None None (fun _ => DoResp code (mkCopy cs e)) None.

(** A server that only answers requests for the whole blob. *)
Definition serve_whole (cs : list (list byte)) : attempt_world :=
  mkWorld None None None
    (fun req => if bool_decide (Header req = ∅)
                then DoResp 200 (mkCopy cs None)
                else DoErr (libError "range not supported"))
    None.

(** A registry that serves one manifest. *)
Definition serve_manifest (layers : list Layer.t) (url : string) : get_result :=
  GetResp 200 (inr (Manifest.mk manifestV2 layers)).

(** [filepath.Join] of a clean, non-empty directory name and a file
    name. *)
Definition join_slash (dir file : string) : string := dir +:+ "/" +:+ file.

(** ** The command line of [main]

    [flag.Parse] is the standard library's; the model takes what it
    yields: the values of the two flags, when given, and the positional
    arguments. *)

(** [strings.Contains(s, substr)]. *)
Fixpoint Contains (s substr : string) : bool :=
  (String.prefix substr s ||
   match s with
   | EmptyString => false
   | String _ s' => Contains s' substr
   end)%bool.

(** [strings.ReplaceAll(s, old, new)] for an [old] of one byte, as in both
    calls of the program. *)
Fixpoint ReplaceAll (s : string) (old : ascii) (new : string) : string :=
  match s with
  | EmptyString => EmptyString
  | String c s' =>
      if Ascii.eqb c old then new +:+ ReplaceAll s' old new
      else String c (ReplaceAll s' old new)
  end.

(** [strings.Split(s, sep)] for a [sep] of one byte, as in the call of the
    program: the pieces between the separators, [[""]] for the empty
    string. *)
Fixpoint Split (s : string) (sep : ascii) : list string :=
  match s with
  | EmptyString => [EmptyString]
  | String c s' =>
      if Ascii.eqb c sep then EmptyString :: Split s' sep
      else
        match Split s' sep with
        | piece :: pieces => String c piece :: pieces
        | [] => [String c EmptyString]
        end
  end.

Record flags := mkFlags {
  flag_registry : option string;
  flag_d : option string;
  flag_Args : list string
}.

Definition defaultRegistry : string := "https://registry.ollama.ai/".

(** What [main] has computed when it creates the HTTP client. *)
Record target := mkTarget {
  t_registry : string;
  t_destDir : string;
  t_name : string;
  t_version : string
}.

Inductive flags_outcome :=
| ExitUsage
| Target (t : target)
| IndexPanic.

(** The two [if !strings.Contains(name, ...)] statements. *)
Definition qualify (name : string) : string :=
  let name := if negb (Contains name "/") then "library/" +:+ name else name in
  if negb (Contains name ":") then name +:+ ":latest" else name.

(** [main] from its first line to [nameParts[0], nameParts[1]]; an index
    out of range panics. *)
Definition main_flags (fl : flags) : flags_outcome :=
  let registry := default defaultRegistry (flag_registry fl) in
  let destDir := default EmptyString (flag_d fl) in
  match flag_Args fl with
  | [] => ExitUsage
  | arg0 :: _ =>
      let name := qualify arg0 in
      let destDir :=
        if String.eqb destDir "" then ReplaceAll (ReplaceAll name "/" "-") ":" "-"
        else destDir in
      let nameParts := Split name ":" in
      match nameParts !! 0%nat, nameParts !! 1%nat with
      | Some name, Some version => Target (mkTarget registry destDir name version)
      | _, _ => IndexPanic
      end
  end.

(** The whole of [main] under a given schedule. *)
Definition main_program (filepath_Join : string -> string -> string)
    (client_Get : string -> get_result) (worlds : nat -> Z -> attempt_world)
    (fl : flags) (m : gmap string (list byte)) (schedule : list choice)
  : option sys :=
  match main_flags fl with
  | ExitUsage =>
      match schedule with
      | [] => Some (mkSys (boot m) [Println ["Usage: ollama-dl <name>"]] [] (Exited 1))
      | _ :: _ => None
      end
  | IndexPanic =>
      match schedule with
      | [] => Some (mkSys (boot m) [] [] Panicked)
      | _ :: _ => None
      end
  | Target t =>
      main filepath_Join client_Get worlds
        (t_registry t) (t_destDir t) (t_name t) (t_version t) m schedule
  end.

(** ** Vocabulary of the further statements *)

(** A server that honours range requests for the blob [source]: a response
    with status 200 or 206 to the request for offset [off] delivers bytes
    of [source] from [off] on, and all of them when its copy ends without
    error. *)
Definition serves (world : Z -> attempt_world) (job : DownloadJob.t)
    (source : list byte) : Prop :=
  forall (a off code : Z) (body : copy_result),
    (0 <= off <= Z.of_nat (length source))%Z ->
    client_Do (world a) (rangeRequest job off) = DoResp code body ->
    code = StatusOK \/ code = StatusPartialContent ->
    concat (chunks body) `prefix_of` drop (Z.to_nat off) source /\
    (copy_err body = None -> concat (chunks body) = drop (Z.to_nat off) source).

(** The five bytes of the examples. *)
Definition five : list byte := [x01; x02; x03; x04; x05].

(** A server for [five] whose first response breaks off after two bytes
    and which then serves the rest to the request for offset 2. *)
Definition flaky_server : attempt_world :=
  mkWorld None None None
    (fun req =>
       if bool_decide (Header req = ∅) then
         DoResp 200 (mkCopy [take 2 five] (Some (libError "unexpected EOF")))
       else if bool_decide (Header req = {["Range" := "bytes=2-"]}) then
         DoResp 206 (mkCopy [drop 2 five] None)
       else DoErr (libError "connection refused"))
    None.

(** The layer's media type is a key of [mediaTypeToFileTemplate]. *)
Definition recognized (layer : Layer.t) : Prop :=
  is_Some (mediaTypeToFileTemplate !! Layer.MediaType layer).

(** The digest passes [getShortHash]: it starts with [sha256:] and is long
    enough for the slice [7:19]. *)
Definition sliceable (layer : Layer.t) : Prop :=
  HasPrefix (Layer.Digest layer) "sha256:" = true /\
  (19 <= String.length (Layer.Digest layer))%nat.

(** The most steps a goroutine can still take: one per attempt left, one
    for the exit from the loop when the attempts are used up, one for the
    test of the returned error. *)
Definition goroutine_steps_left (p : goroutine_pc) : nat :=
  match p with
  | AtLoop attempt => 2 + Z.to_nat (numRetries + 1 - attempt)
  | Returned _ => 1
  | Finished => 0
  end.

Fixpoint goroutines_steps_left (gs : list goroutine) : nat :=
  match gs with
  | [] => 0
  | g :: gs' => goroutine_steps_left (g_pc g) + goroutines_steps_left gs'
  end.

(** The most steps the program can still take: for every job not yet
    visited one step of the range loop and twelve of its goroutine, one
    step for [wg.Wait()], and the steps of the goroutines there are. *)
Definition steps_left (jobs : list DownloadJob.t) (s : sys) : nat :=
  match pc s with
  | Ranging i => 1 + 13 * (length jobs - i)
  | Exited _ => 0
  | Panicked => 0
  end + goroutines_steps_left (goroutines s).

(** What standard output and the exit status look like: nothing says
    "Download complete" before [main] is past [wg.Wait()], and then the
    line is there once and the status is 0.  Where it stands among the
    lines of the goroutines is left open: a goroutine past its
    [wg.Done()] may print before or after it. *)
Definition exit_inv (s : sys) : Prop :=
  match pc s with
  | Ranging _ => "Download complete" ∉ stdout s
  | Exited code =>
      code = 0%Z /\
      exists out out', stdout s = (out ++ ("Download complete" :: out'))%list /\
                       ("Download complete" ∉ out) /\
                       ("Download complete" ∉ out')
  | Panicked => False
  end.

(** The goroutines belong to distinct jobs the range loop has passed. *)
Definition idx_inv (jobs : list DownloadJob.t) (s : sys) : Prop :=
  NoDup (g_idx <$> goroutines s) /\
  Forall (fun g => jobs !! g_idx g = Some (g_job g)) (goroutines s) /\
  forall j, pc s = Ranging j -> Forall (fun g => (g_idx g < j)%nat) (goroutines s).

(** The [n] attempts from [attempt] on, the first of them started in
    [st], all end in a copy failure: each gets as far as [client.Do], is
    answered with status 200 or 206 and a body whose copy ends in an
    error, and the next one starts in the state this one leaves. *)
Fixpoint copies_fail (n : nat) (world : Z -> attempt_world) (job : DownloadJob.t)
    (attempt : Z) (st : state) : Prop :=
  match n with
  | O => True
  | S n' =>
      reaches_Do (world attempt) /\
      (exists code body e,
          client_Do (world attempt) (sent job st) = DoResp code body /\
          (code = StatusOK \/ code = StatusPartialContent) /\
          copy_err body = Some e) /\
      copies_fail n' world job (attempt + 1)
        (fst (downloadBlob_iter (world attempt) job st))
  end.

(** Nine responses whose copy breaks off after one byte, then a
    response with status 500 to the tenth attempt. *)
Definition nine_resets_then_500 (attempt : Z) : attempt_world :=
  if (attempt <? numRetries)%Z
  then serve 200 [[x01]] (Some (libError "connection reset"))
  else serve 500 [] None.

(** A params layer whose digest has three characters after the colon. *)
Definition short_layer : Layer.t :=
  Layer.mk "application/vnd.ollama.image.params" "sha256:abc" 96.
(** * Examples *)

Example getShortHash_ex1 :
  getShortHash (Layer.mk "application/vnd.ollama.image.params"
                  "sha256:56bb8bd477a519ffa694fc449c2413c6f0e1d3b1c88fa7e3c9d88d3ae49d4dcb" 96)
  = Ok "56bb8bd477a5".
Proof. reflexivity. Qed.

(** A digest with the prefix but fewer than 19 bytes: the slice
    expression panics. *)
Example getShortHash_short :
  getShortHash (Layer.mk "application/vnd.ollama.image.params" "sha256:abc" 96)
  = Panic.
Proof. reflexivity. Qed.

Example getShortHash_md5 :
  getShortHash (Layer.mk "application/vnd.ollama.image.params"
                  "md5:0123456789abcdef0123456789abcdef" 96)
  = Err (errorString "unexpected digest: md5:0123456789abcdef0123456789abcdef").
Proof. reflexivity. Qed.

Example Sprintf_ex1 : Sprintf "bytes=%d-" [FInt 1024] = "bytes=1024-".
Proof. reflexivity. Qed.

(** A resumed transfer: three bytes are staged, the request asks for the
    rest, the 206 response brings two more, and the five land at the
    destination. *)
Example resume_ex :
  let st := mkState {["dst/params-aaaaaaaaaaaa.json.tmp" := [x01; x02; x03]]} [] [] 1 in
  exists st',
    downloadBlob (fun _ => serve 206 [[x04]; [x05]] None) demo_job st
    = Some (st', None) /\
    net st' = [mkRequest "GET" (DownloadJob.BlobURL demo_job) {["Range" := "bytes=3-"]}] /\
    fs st' = {["dst/params-aaaaaaaaaaaa.json" := [x01; x02; x03; x04; x05]]} /\
    wg st' = 0%Z.
Proof.
  intros st. eexists. split; [vm_compute; reflexivity|].
  split; [reflexivity|]. split; [|reflexivity].
  vm_compute. reflexivity.
Qed.

(** * Facts about the file operations *)

Lemma content_lookup (p : string) (m : gmap string (list byte)) (c : list byte) :
  m !! p = Some c -> content p m = c.
Proof. unfold content. intros ->. reflexivity. Qed.

Lemma content_absent (p : string) (m : gmap string (list byte)) :
  m !! p = None -> content p m = [].
Proof. unfold content. intros ->. reflexivity. Qed.

Lemma OpenFile_append_lookup (p : string) (m : gmap string (list byte)) :
  OpenFile_append p m !! p = Some (content p m).
Proof.
  unfold OpenFile_append, content.
  destruct (m !! p) as [c|] eqn:E; simpl.
  - exact E.
  - apply lookup_insert_eq.
Qed.

Lemma OpenFile_append_other (p q : string) (m : gmap string (list byte)) :
  p <> q -> OpenFile_append p m !! q = m !! q.
Proof.
  intros Hne. unfold OpenFile_append.
  destruct (m !! p); [reflexivity | by apply lookup_insert_ne].
Qed.

Lemma Seek_end_OpenFile_append (p : string) (m : gmap string (list byte)) :
  Seek_end p (OpenFile_append p m) = Z.of_nat (length (content p m)).
Proof.
  unfold Seek_end.
  by rewrite (content_lookup _ _ _ (OpenFile_append_lookup p m)).
Qed.

Lemma File_Write_lookup (p : string) (bs : list byte) (m : gmap string (list byte)) :
  File_Write p bs m !! p = Some (content p m ++ bs)%list.
Proof. apply lookup_insert_eq. Qed.

Lemma File_Write_other (p q : string) (bs : list byte) (m : gmap string (list byte)) :
  p <> q -> File_Write p bs m !! q = m !! q.
Proof. intros Hne. by apply lookup_insert_ne. Qed.

Lemma net_Copy (p : string) (cs : list (list byte)) (st : state) :
  net (Copy p cs st) = net st.
Proof. revert st. induction cs as [|c cs IH]; intros st; simpl; [done | by rewrite IH]. Qed.

Lemma wg_Copy (p : string) (cs : list (list byte)) (st : state) :
  wg (Copy p cs st) = wg st.
Proof. revert st. induction cs as [|c cs IH]; intros st; simpl; [done | by rewrite IH]. Qed.

Lemma fs_Copy_other (p q : string) (cs : list (list byte)) (st : state) :
  p <> q -> fs (Copy p cs st) !! q = fs st !! q.
Proof.
  intros Hne. revert st. induction cs as [|c cs IH]; intros st; simpl; [done|].
  rewrite IH. simpl. by apply File_Write_other.
Qed.

Lemma content_Copy (p : string) (cs : list (list byte)) (st : state) :
  is_Some (fs st !! p) ->
  fs (Copy p cs st) !! p = Some (content p (fs st) ++ concat cs)%list.
Proof.
  revert st. induction cs as [|c cs IH]; intros st [c0 Hc0]; simpl.
  - rewrite app_nil_r. by rewrite (content_lookup _ _ _ Hc0).
  - rewrite IH.
    + simpl. rewrite (content_lookup _ _ _ (File_Write_lookup p c (fs st))).
      by rewrite <- app_assoc.
    + simpl. rewrite File_Write_lookup. eauto.
Qed.

(** The staging path is never the destination path. *)
Lemma append_length (s t : string) :
  String.length (s +:+ t) = (String.length s + String.length t)%nat.
Proof. induction s as [|c s IH]; simpl; [done | by rewrite IH]. Qed.

Lemma tempPath_ne_DestPath (job : DownloadJob.t) :
  tempPath job <> DownloadJob.DestPath job.
Proof.
  unfold tempPath. intros H.
  apply (f_equal String.length) in H. rewrite append_length in H.
  simpl in H. lia.
Qed.

(** * One iteration of the loop *)

Lemma iter_reaches_Do (w : attempt_world) (job : DownloadJob.t) (st : state) :
  reaches_Do w ->
  downloadBlob_iter w job st =
  after_Do w job (log_request (opened job st) (sent job st))
    (client_Do w (sent job st)).
Proof.
  intros (Hm & Ho & Hn). unfold downloadBlob_iter, after_Do, sent, opened, staged.
  rewrite Hm, Ho, Hn. simpl fs. rewrite Seek_end_OpenFile_append.
  reflexivity.
Qed.

Lemma net_after_Do (w : attempt_world) (job : DownloadJob.t) (st2 : state)
    (r : do_result) :
  net (after_Do w job st2 r).1 = net st2.
Proof.
  unfold after_Do. destruct r as [e|code body]; [done|].
  destruct (_ && _)%bool; [done|].
  destruct (copy_err body); simpl; [by rewrite net_Copy|].
  destruct (Rename_err w); simpl; by rewrite net_Copy.
Qed.

Lemma rangeRequest_zero (job : DownloadJob.t) :
  rangeRequest job 0 = mkRequest "GET" (DownloadJob.BlobURL job) ∅.
Proof. reflexivity. Qed.

Lemma rangeRequest_pos (job : DownloadJob.t) (off : Z) :
  (0 < off)%Z ->
  rangeRequest job off =
  mkRequest "GET" (DownloadJob.BlobURL job)
    {["Range" := "bytes=" +:+ NilZero.string_of_int (Z.to_int off) +:+ "-"]}.
Proof.
  intros H. unfold rangeRequest.
  destruct (Z.ltb_spec 0 off) as [_|Hle]; [|lia].
  reflexivity.
Qed.

(** C5: in an attempt that gets to send its request, the staging file
    exists once opened, holding what it held before (nothing when it was
    absent); the resume offset is its length; exactly one request is sent,
    a GET of the blob URL whose only possible header is
    [Range: bytes=<offset>-], present exactly when the offset is positive. *)
Theorem resume_offset_and_range (w : attempt_world) (job : DownloadJob.t) (st : state) :
  reaches_Do w ->
  let off := Z.of_nat (length (staged job (fs st))) in
  let st' := (downloadBlob_iter w job st).1 in
  fs (opened job st) !! tempPath job = Some (staged job (fs st)) /\
  Seek_end (tempPath job) (fs (opened job st)) = off /\
  net st' = (net st ++ [rangeRequest job off])%list /\
  Method (rangeRequest job off) = "GET" /\
  URL (rangeRequest job off) = DownloadJob.BlobURL job /\
  ((0 < off)%Z ->
     Header (rangeRequest job off) =
     {["Range" := "bytes=" +:+ NilZero.string_of_int (Z.to_int off) +:+ "-"]}) /\
  (off = 0%Z -> Header (rangeRequest job off) = ∅) /\
  (is_Some (Header (rangeRequest job off) !! "Range") <-> (0 < off)%Z).
Proof.
  intros Hw off st'. subst st'.
  rewrite (iter_reaches_Do _ _ _ Hw), net_after_Do.
  split; [apply OpenFile_append_lookup|].
  split; [apply Seek_end_OpenFile_append|].
  split; [reflexivity|].
  assert (Hoff : (0 <= off)%Z) by (subst off; lia).
  destruct (Z.eq_dec off 0) as [H0|Hne].
  - rewrite H0, rangeRequest_zero. simpl.
    repeat split; try done; try lia.
    all: try (intros [x Hx]; by rewrite lookup_empty in Hx).
  - assert (Hpos : (0 < off)%Z) by lia.
    rewrite (rangeRequest_pos _ _ Hpos). simpl.
    repeat split; try done.
    all: try (intros _; rewrite lookup_singleton_eq; eauto).
Qed.

Lemma resume_offset_and_range_witness :
  let st := mkState {["dst/params-aaaaaaaaaaaa.json.tmp" := [x01; x02; x03]]} [] [] 1 in
  net (downloadBlob_iter (serve 206 [[x04]] None) demo_job st).1
  = [mkRequest "GET" (DownloadJob.BlobURL demo_job) {["Range" := "bytes=3-"]}].
Proof.
  intros st.
  assert (Hw : reaches_Do (serve 206 [[x04]] None)) by (repeat split).
  destruct (resume_offset_and_range (serve 206 [[x04]] None) demo_job st Hw)
    as (_ & _ & Hnet & _).
  rewrite Hnet. reflexivity.
Defined.

(** * The retry loop *)

Lemma loop_unfold (fuel : nat) (world : Z -> attempt_world) (job : DownloadJob.t)
    (attempt : Z) (st : state) :
  (attempt <= numRetries)%Z ->
  downloadBlob_loop (S fuel) world job attempt st =
  match downloadBlob_iter (world attempt) job st with
  | (st', Continue) => downloadBlob_loop fuel world job (attempt + 1) st'
  | (st', Return err) => Some (st', err)
  end.
Proof.
  intros H. simpl. destruct (Z.leb_spec attempt numRetries); [reflexivity | lia].
Qed.

Lemma loop_exhausted (fuel : nat) (world : Z -> attempt_world) (job : DownloadJob.t)
    (attempt : Z) (st : state) :
  (numRetries < attempt)%Z ->
  downloadBlob_loop (S fuel) world job attempt st =
  Some (st, Some (errorString "maximum retries reached")).
Proof.
  intros H. simpl. destruct (Z.leb_spec attempt numRetries); [lia | reflexivity].
Qed.

(** The fuel given by [downloadBlob] is never used up. *)
Lemma downloadBlob_loop_total (fuel : nat) (world : Z -> attempt_world)
    (job : DownloadJob.t) (attempt : Z) (st : state) :
  (Z.to_nat (numRetries + 1 - attempt) < fuel)%nat ->
  is_Some (downloadBlob_loop fuel world job attempt st).
Proof.
  revert attempt st. induction fuel as [|fuel IH]; intros attempt st Hf; [lia|].
  destruct (Z.leb_spec attempt numRetries) as [Hle|Hgt].
  - rewrite loop_unfold by done.
    destruct (downloadBlob_iter (world attempt) job st) as [st' [|err]]; [|eauto].
    apply IH. lia.
  - rewrite loop_exhausted by done. eauto.
Qed.

Lemma downloadBlob_total (world : Z -> attempt_world) (job : DownloadJob.t)
    (st : state) :
  is_Some (downloadBlob world job st).
Proof.
  unfold downloadBlob.
  destruct (downloadBlob_loop_total (S (Z.to_nat numRetries)) world job 1 st)
    as [[st' r] ->]; [unfold numRetries; lia | eauto].
Qed.


Lemma status_test_ok (code : Z) :
  code = StatusOK \/ code = StatusPartialContent ->
  (negb (code =? StatusOK)%Z && negb (code =? StatusPartialContent)%Z)%bool = false.
Proof. intros [-> | ->]; reflexivity. Qed.

Lemma append_empty_r (s : string) : s +:+ "" = s.
Proof.
  induction s as [|c s IH]; [done|].
  change (String c (s +:+ "") = String c s). by rewrite IH.
Qed.



(** * Copy failures *)

Lemma opened_staging (job : DownloadJob.t) (st : state) :
  fs (opened job st) !! tempPath job = Some (staged job (fs st)).
Proof. apply OpenFile_append_lookup. Qed.

Lemma opened_other (job : DownloadJob.t) (st : state) (q : string) :
  tempPath job <> q -> fs (opened job st) !! q = fs st !! q.
Proof. intros H. by apply OpenFile_append_other. Qed.

(** The state left by an iteration whose copy wrote [cs]. *)
Lemma copied_staging (job : DownloadJob.t) (st : state) (cs : list (list byte)) :
  fs (Copy (tempPath job) cs (log_request (opened job st) (sent job st)))
    !! tempPath job
  = Some (staged job (fs st) ++ concat cs)%list.
Proof.
  rewrite content_Copy.
  - simpl. by rewrite (content_lookup _ _ _ (OpenFile_append_lookup _ _)).
  - simpl. rewrite OpenFile_append_lookup. eauto.
Qed.

Lemma copied_other (job : DownloadJob.t) (st : state) (cs : list (list byte))
    (q : string) :
  tempPath job <> q ->
  fs (Copy (tempPath job) cs (log_request (opened job st) (sent job st))) !! q
  = fs st !! q.
Proof.
  intros H. rewrite fs_Copy_other by done. simpl. by apply OpenFile_append_other.
Qed.

Lemma iter_copy_fails (w : attempt_world) (job : DownloadJob.t) (st : state)
    (code : Z) (body : copy_result) (e : error) :
  reaches_Do w ->
  client_Do w (sent job st) = DoResp code body ->
  code = StatusOK \/ code = StatusPartialContent ->
  copy_err body = Some e ->
  downloadBlob_iter w job st =
  (Copy (tempPath job) (chunks body) (log_request (opened job st) (sent job st)),
   Continue).
Proof.
  intros Hw Hdo Hcode He.
  rewrite (iter_reaches_Do _ _ _ Hw), Hdo. unfold after_Do.
  rewrite status_test_ok by done. by rewrite He.
Qed.


Lemma always_copy_fails_copies_fail (world : Z -> attempt_world)
    (job : DownloadJob.t) :
  always_copy_fails world ->
  forall (n : nat) (attempt : Z) (st : state),
    (1 <= attempt)%Z ->
    (attempt + Z.of_nat n <= numRetries + 1)%Z ->
    copies_fail n world job attempt st.
Proof.
  intros Hall. induction n as [|n IH]; intros attempt st H1 Hn; [exact I|].
  destruct (Hall attempt (sent job st)) as (Hw & code & body & e & Hdo & Hc & He);
    [lia|].
  split; [exact Hw|]. split; [by exists code, body, e|].
  apply IH; lia.
Qed.

(** The attempts that are left all end in a copy failure. *)
Lemma loop_copies_fail (world : Z -> attempt_world) (job : DownloadJob.t) :
  forall (n fuel : nat) (attempt : Z) (st : state),
    (attempt + Z.of_nat n = numRetries + 1)%Z ->
    (n < fuel)%nat ->
    copies_fail n world job attempt st ->
    exists st',
      downloadBlob_loop fuel world job attempt st
      = Some (st', Some (errorString "maximum retries reached")) /\
      fs st' !! DownloadJob.DestPath job = fs st !! DownloadJob.DestPath job /\
      staged job (fs st) `prefix_of` staged job (fs st') /\
      length (net st') = (length (net st) + n)%nat.
Proof.
  induction n as [|n IH]; intros fuel attempt st Ha Hf Hc.
  - destruct fuel as [|fuel]; [lia|]. rewrite loop_exhausted by lia.
    exists st. repeat split; [done | lia].
  - destruct fuel as [|fuel]; [lia|].
    destruct Hc as (Hw & (code & body & e & Hdo & Hcode & He) & Hrest).
    rewrite loop_unfold by lia.
    rewrite (iter_copy_fails _ _ _ _ _ _ Hw Hdo Hcode He) in Hrest |- *.
    cbn [fst] in Hrest.
    destruct (IH fuel (attempt + 1)%Z _ ltac:(lia) ltac:(lia) Hrest)
      as (st' & Hl & Hd & Hp & Hn).
    exists st'. split; [exact Hl|]. split; [|split].
    + rewrite Hd. apply copied_other, tempPath_ne_DestPath.
    + etrans; [|exact Hp]. unfold staged at 2.
      rewrite (content_lookup _ _ _ (copied_staging job st (chunks body))).
      by apply prefix_app_r.
    + rewrite Hn, net_Copy. simpl. rewrite length_app. simpl. lia.
Qed.

(** C3 (as the code has it): an attempt whose body copy fails does not
    rename: it leaves the staging file holding what it held plus every
    byte written in this attempt, leaves every other path (the
    destination among them) as it was, and the loop goes on with the next
    attempt.  When each of the attempts 1 to 10 ends this way, in a copy
    failure, [downloadBlob] returns the error "maximum retries reached",
    with ten requests sent and the destination untouched. *)
Theorem copy_failure_retried_until_exhausted (world : Z -> attempt_world)
    (job : DownloadJob.t) (st : state) :
  (forall (attempt : Z) (fuel : nat) (code : Z) (body : copy_result) (e : error),
      (attempt <= numRetries)%Z ->
      reaches_Do (world attempt) ->
      client_Do (world attempt) (sent job st) = DoResp code body ->
      code = StatusOK \/ code = StatusPartialContent ->
      copy_err body = Some e ->
      exists st3,
        downloadBlob_iter (world attempt) job st = (st3, Continue) /\
        downloadBlob_loop (S fuel) world job attempt st
        = downloadBlob_loop fuel world job (attempt + 1) st3 /\
        fs st3 !! tempPath job
        = Some (staged job (fs st) ++ concat (chunks body))%list /\
        (forall q, tempPath job <> q -> fs st3 !! q = fs st !! q)) /\
  (copies_fail (Z.to_nat numRetries) world job 1 st ->
   exists st',
     downloadBlob world job st
     = Some (st', Some (errorString "maximum retries reached")) /\
     Error (errorString "maximum retries reached") = "maximum retries reached" /\
     fs st' !! DownloadJob.DestPath job = fs st !! DownloadJob.DestPath job /\
     staged job (fs st) `prefix_of` staged job (fs st') /\
     length (net st') = (length (net st) + 10)%nat).
Proof.
  split.
  - intros attempt fuel code body e Ha Hw Hdo Hc He.
    eexists. split; [by eapply iter_copy_fails|].
    split; [|split].
    + rewrite loop_unfold by done.
      by rewrite (iter_copy_fails _ _ _ _ _ _ Hw Hdo Hc He).
    + apply copied_staging.
    + intros q Hq. by apply copied_other.
  - intros Hall. unfold downloadBlob.
    destruct (loop_copies_fail world job (Z.to_nat numRetries)
                (S (Z.to_nat numRetries)) 1 st)
      as (st' & -> & Hd & Hp & Hn); [unfold numRetries; lia | lia | exact Hall |].
    exists (wg_Done st'). repeat split; try done.
Qed.

Lemma copy_failure_retried_until_exhausted_witness :
  let world := fun _ : Z => serve 200 [[x01]; [x02]] (Some (libError "connection reset")) in
  let st := mkState ∅ [] [] 1 in
  (exists st3,
     downloadBlob_iter (world 1%Z) demo_job st = (st3, Continue) /\
     fs st3 !! tempPath demo_job = Some [x01; x02]) /\
  (exists st',
     downloadBlob world demo_job st
     = Some (st', Some (errorString "maximum retries reached")) /\
     fs st' !! DownloadJob.DestPath demo_job = None /\
     length (net st') = 10%nat).
Proof.
  intros world st.
  destruct (copy_failure_retried_until_exhausted world demo_job st) as [Ha Hb].
  split.
  - destruct (Ha 1%Z 10%nat 200%Z (mkCopy [[x01]; [x02]] (Some (libError "connection reset")))
                (libError "connection reset"))
      as (st3 & Hi & _ & Hs & _).
    + unfold numRetries. lia.
    + repeat split.
    + reflexivity.
    + left. reflexivity.
    + reflexivity.
    + exists st3. split; [exact Hi | exact Hs].
  - destruct Hb as (st' & Hr & _ & Hd & _ & Hn).
    + apply always_copy_fails_copies_fail; [|lia | unfold numRetries; lia].
      intros a req Ha'. split; [repeat split|].
      exists 200%Z, (mkCopy [[x01]; [x02]] (Some (libError "connection reset"))),
        (libError "connection reset").
      repeat split. by left.
    + exists st'. split; [exact Hr|]. split; [by rewrite Hd | exact Hn].
Defined.

(** C3, as stated, fails: when nine attempts end in a copy failure and the
    tenth is answered with status 500, none of the attempts 1 to 10 gets
    to the rename (nothing is ever at the destination), ten requests were
    sent, and yet the error returned is the one of the status, not
    "maximum retries reached". *)
Lemma tenth_attempt_bad_status_is_not_exhaustion :
  exists st',
    downloadBlob nine_resets_then_500 demo_job (mkState ∅ [] [] 1)
    = Some (st', Some (errorString "unexpected status code: 500")) /\
    length (net st') = Z.to_nat numRetries /\
    Forall (fun m : gmap string (list byte) =>
              m !! DownloadJob.DestPath demo_job = None)
           (fs st' :: hist st') /\
    errorString "unexpected status code: 500"
    <> errorString "maximum retries reached".
Proof.
  eexists. split; [vm_compute; reflexivity|].
  split; [reflexivity|].
  split; [|discriminate].
  repeat (constructor; [vm_compute; reflexivity|]). constructor.
Qed.

(** * What is retried and what is not *)




(** * The file system states a transfer goes through *)

Lemma Rename_new (old new : string) (m : gmap string (list byte)) (c : list byte) :
  m !! old = Some c -> Rename old new m !! new = Some c.
Proof. intros H. unfold Rename. rewrite H. apply lookup_insert_eq. Qed.

Lemma Rename_old (old new : string) (m : gmap string (list byte)) (c : list byte) :
  old <> new -> m !! old = Some c -> Rename old new m !! old = None.
Proof.
  intros Hne H. unfold Rename. rewrite H.
  rewrite lookup_insert_ne by done. apply lookup_delete_eq.
Qed.

Lemma length_concat_take (k : nat) (cs : list (list byte)) :
  (length (concat (take k cs)) <= length (concat cs))%nat.
Proof.
  revert k. induction cs as [|c cs IH]; intros [|k]; simpl; try lia.
  rewrite !length_app. specialize (IH k). lia.
Qed.

(** Every state the copy passes through differs from the first one only
    at the staging path, which holds the old content and some of the
    chunks. *)
Lemma Copy_trail (p : string) (cs : list (list byte)) (st : state) :
  is_Some (fs st !! p) ->
  exists new,
    hist (Copy p cs st) = (new ++ hist st)%list /\
    Forall (fun m : gmap string (list byte) =>
              (forall q, p <> q -> m !! q = fs st !! q) /\
              exists k, m !! p = Some (content p (fs st) ++ concat (take k cs))%list)
           new.
Proof.
  revert st. induction cs as [|c cs IH]; intros st Hp.
  - exists []. split; [reflexivity | constructor].
  - simpl Copy.
    destruct (IH (set_fs st (File_Write p c (fs st)))) as (new & Hh & Hall).
    { simpl. rewrite File_Write_lookup. eauto. }
    exists (new ++ [fs st])%list. split.
    + rewrite Hh. simpl. by rewrite <- app_assoc.
    + apply Forall_app. split.
      * eapply Forall_impl; [exact Hall|].
        intros m [Hq [k Hk]]. simpl in *. split.
        -- intros q Hne. rewrite Hq by done. by apply File_Write_other.
        -- exists (S k). rewrite Hk.
           rewrite (content_lookup _ _ _ (File_Write_lookup p c (fs st))).
           simpl. by rewrite <- !app_assoc.
      * constructor; [|constructor]. split; [done|].
        exists 0%nat. destruct Hp as [c0 Hc0]. rewrite Hc0. simpl.
        rewrite app_nil_r. by rewrite (content_lookup _ _ _ Hc0).
Qed.

Lemma in_flight_start (w : attempt_world) (job : DownloadJob.t) (st : state) :
  in_flight w job st (fs st).
Proof. split; [done|]. exists []. rewrite app_nil_r. split; [done | simpl; lia]. Qed.

Lemma in_flight_opened (w : attempt_world) (job : DownloadJob.t) (st : state) :
  in_flight w job st (fs (opened job st)).
Proof.
  split.
  - apply opened_other, tempPath_ne_DestPath.
  - exists []. rewrite app_nil_r. split; [|simpl; lia].
    unfold staged at 1. by rewrite (content_lookup _ _ _ (opened_staging job st)).
Qed.

Lemma iter_trail (w : attempt_world) (job : DownloadJob.t) (st st' : state)
    (ir : iter_result) :
  downloadBlob_iter w job st = (st', ir) ->
  exists new,
    hist st' = (new ++ hist st)%list /\
    Forall (in_flight w job st) new /\
    match ir with
    | Return None => committed w job st st' new
    | _ => in_flight w job st (fs st')
    end.
Proof.
  unfold downloadBlob_iter.
  destruct (MkdirAll_err w) as [e|] eqn:Hm.
  { intros [= <- <-]. exists []. split; [done|]. split; [constructor|].
    apply in_flight_start. }
  destruct (OpenFile_err w) as [e|] eqn:Ho.
  { intros [= <- <-]. exists []. split; [done|]. split; [constructor|].
    destruct e; apply in_flight_start. }
  simpl fs. rewrite Seek_end_OpenFile_append.
  fold (staged job (fs st)). fold (sent job st). fold (opened job st).
  assert (Hstart : Forall (in_flight w job st) [fs st]).
  { constructor; [apply in_flight_start | constructor]. }
  destruct (NewRequest_err w) as [e|] eqn:Hn.
  { intros [= <- <-]. exists [fs st]. split; [done|]. split; [done|].
    apply in_flight_opened. }
  destruct (client_Do w (sent job st)) as [e|code body] eqn:Hdo.
  { intros [= <- <-]. exists [fs st]. split; [done|]. split; [done|].
    apply in_flight_opened. }
  destruct (_ && _)%bool eqn:Hcode.
  { intros [= <- <-]. exists [fs st]. split; [done|]. split; [done|].
    apply in_flight_opened. }
  assert (Hok : code = StatusOK \/ code = StatusPartialContent).
  { destruct (Z.eqb_spec code StatusOK); [by left|].
    destruct (Z.eqb_spec code StatusPartialContent); [by right | done]. }
  set (st2 := log_request (opened job st) (sent job st)).
  destruct (Copy_trail (tempPath job) (chunks body) st2) as (new1 & Hh & Hall).
  { subst st2. simpl. rewrite OpenFile_append_lookup. eauto. }
  assert (Hnew1 : Forall (in_flight w job st) (new1 ++ [fs st])).
  { apply Forall_app. split; [|done].
    eapply Forall_impl; [exact Hall|]. intros m [Hq [k Hk]]. split.
    - rewrite Hq by apply tempPath_ne_DestPath.
      apply opened_other, tempPath_ne_DestPath.
    - exists (concat (take k (chunks body))). split.
      + unfold staged at 1. rewrite (content_lookup _ _ _ Hk).
        subst st2. simpl fs.
        by rewrite (content_lookup _ _ _ (OpenFile_append_lookup _ _)).
      + unfold delivered. rewrite Hdo. apply length_concat_take. }
  assert (Hst3 : in_flight w job st (fs (Copy (tempPath job) (chunks body) st2))).
  { split.
    - apply copied_other, tempPath_ne_DestPath.
    - exists (concat (chunks body)). split.
      + unfold staged at 1. subst st2.
        by rewrite (content_lookup _ _ _ (copied_staging _ _ _)).
      + unfold delivered. by rewrite Hdo. }
  assert (Hh3 : hist (Copy (tempPath job) (chunks body) st2)
                = ((new1 ++ [fs st]) ++ hist st)%list).
  { rewrite Hh. subst st2. simpl. by rewrite <- app_assoc. }
  destruct (copy_err body) as [e|] eqn:He.
  { intros [= <- <-]. exists (new1 ++ [fs st])%list. done. }
  destruct (Rename_err w) as [e|] eqn:Hr.
  { intros [= <- <-]. exists (new1 ++ [fs st])%list. done. }
  intros [= <- <-].
  exists (fs (Copy (tempPath job) (chunks body) st2) :: new1 ++ [fs st])%list.
  split; [simpl; by rewrite Hh3|].
  split; [by constructor|].
  exists code, body, (fs (Copy (tempPath job) (chunks body) st2)), (new1 ++ [fs st])%list.
  repeat split; try done.
  - apply copied_staging.
  - simpl. eapply Rename_new, copied_staging.
  - simpl. eapply Rename_old; [apply tempPath_ne_DestPath | apply copied_staging].
Qed.

(** * The commit point *)

Lemma loop_commit (world : Z -> attempt_world) (job : DownloadJob.t) :
  forall (fuel : nat) (attempt : Z) (st st' : state) (r : option error),
    downloadBlob_loop fuel world job attempt st = Some (st', r) ->
    exists new,
      hist st' = (new ++ hist st)%list /\
      Forall (fun m : gmap string (list byte) =>
                m !! DownloadJob.DestPath job = fs st !! DownloadJob.DestPath job) new /\
      match r with
      | Some _ => fs st' !! DownloadJob.DestPath job = fs st !! DownloadJob.DestPath job
      | None =>
          exists a sta new0 rest,
            (attempt <= a <= numRetries)%Z /\
            new = (new0 ++ rest)%list /\
            staged job (fs st) `prefix_of` staged job (fs sta) /\
            committed (world a) job sta st' new0
      end.
Proof.
  induction fuel as [|fuel IH]; intros attempt st st' r; [done|].
  destruct (Z.leb_spec attempt numRetries) as [Hle|Hgt].
  - rewrite loop_unfold by done.
    destruct (downloadBlob_iter (world attempt) job st) as [st1 ir] eqn:Hit.
    destruct (iter_trail _ _ _ _ _ Hit) as (new1 & Hh1 & Hall1 & Hir).
    assert (Hdest1 : Forall (fun m : gmap string (list byte) =>
                m !! DownloadJob.DestPath job = fs st !! DownloadJob.DestPath job) new1).
    { eapply Forall_impl; [exact Hall1|]. by intros m [Hd _]. }
    destruct ir as [|[e|]].
    + intros Hl. destruct Hir as [Hd1 (bs & Hbs & _)].
      destruct (IH _ _ _ _ Hl) as (new2 & Hh2 & Hall2 & Hr).
      exists (new2 ++ new1)%list. split; [by rewrite Hh2, Hh1, app_assoc|].
      split.
      * apply Forall_app. split; [|done].
        eapply Forall_impl; [exact Hall2|]. intros m Hm. simpl in Hm. congruence.
      * destruct r as [e|]; [congruence|].
        destruct Hr as (a & sta & new0 & rest & Ha & -> & Hp & Hc).
        exists a, sta, new0, (rest ++ new1)%list.
        split; [lia|]. split; [by rewrite app_assoc|]. split; [|done].
        etrans; [|exact Hp]. rewrite Hbs. by apply prefix_app_r.
    + intros [= <- <-]. exists new1. destruct Hir as [Hd1 _]. done.
    + intros [= <- <-]. exists new1. split; [done|]. split; [done|].
      exists attempt, st, new1, []. rewrite app_nil_r.
      split; [lia|]. done.
  - rewrite loop_exhausted by done. intros [= <- <-].
    exists []. split; [done|]. split; [constructor | done].
Qed.

(** C4: [downloadBlob] always returns, and in every file system state it
    went through before the final one the destination path holds what it
    held at the call.  When it returns an error that is still so in the
    final state.  When it returns nil, the final state is that of the
    rename in the committing attempt [a]: the copy of a 200/206 response
    had ended without error, the staging file held everything staged
    before that attempt followed by the whole body, and exactly that
    content now sits at the destination, the staging path being gone.
    Conversely an attempt whose copy ends without error (and whose rename
    the system accepts) commits. *)
Theorem destination_only_by_rename (world : Z -> attempt_world)
    (job : DownloadJob.t) (st : state) :
  (exists st' r new,
     downloadBlob world job st = Some (st', r) /\
     hist st' = (new ++ hist st)%list /\
     Forall (fun m : gmap string (list byte) =>
               m !! DownloadJob.DestPath job = fs st !! DownloadJob.DestPath job) new /\
     match r with
     | Some _ => fs st' !! DownloadJob.DestPath job = fs st !! DownloadJob.DestPath job
     | None =>
         exists a sta new0 rest,
           (1 <= a <= numRetries)%Z /\
           new = (new0 ++ rest)%list /\
           staged job (fs st) `prefix_of` staged job (fs sta) /\
           committed (world a) job sta st' new0
     end) /\
  (forall (w : attempt_world) (code : Z) (body : copy_result),
      reaches_Do w ->
      client_Do w (sent job st) = DoResp code body ->
      code = StatusOK \/ code = StatusPartialContent ->
      copy_err body = None ->
      Rename_err w = None ->
      exists st1 new,
        downloadBlob_iter w job st = (st1, Return None) /\
        committed w job st st1 new).
Proof.
  split.
  - destruct (downloadBlob_total world job st) as [[st' r] Hdl].
    unfold downloadBlob in Hdl.
    destruct (downloadBlob_loop _ world job 1 st) as [[st1 r1]|] eqn:Hl; [|done].
    injection Hdl as <- <-.
    destruct (loop_commit _ _ _ _ _ _ _ Hl) as (new & Hh & Hall & Hr).
    exists (wg_Done st1), r1, new.
    split; [unfold downloadBlob; by rewrite Hl|].
    split; [done|]. split; [done|].
    destruct r1; [done|]. exact Hr.
  - intros w code body Hw Hdo Hc He Hr.
    assert (Hit : downloadBlob_iter w job st =
                  (set_fs (Copy (tempPath job) (chunks body)
                             (log_request (opened job st) (sent job st)))
                     (Rename (tempPath job) (DownloadJob.DestPath job)
                        (fs (Copy (tempPath job) (chunks body)
                               (log_request (opened job st) (sent job st))))),
                   Return None)).
    { rewrite (iter_reaches_Do _ _ _ Hw), Hdo. unfold after_Do.
      rewrite status_test_ok by done. by rewrite He, Hr. }
    destruct (iter_trail _ _ _ _ _ Hit) as (new & _ & _ & Hcm).
    eauto.
Qed.

Lemma destination_only_by_rename_witness :
  let w := serve 200 [[x01; x02]; [x03]] None in
  let st := mkState ∅ [] [] 1 in
  exists st1,
    downloadBlob_iter w demo_job st = (st1, Return None) /\
    fs st1 !! DownloadJob.DestPath demo_job = Some [x01; x02; x03] /\
    fs st1 !! tempPath demo_job = None.
Proof.
  intros w st.
  destruct (destination_only_by_rename (fun _ => w) demo_job st) as [_ Hconv].
  destruct (Hconv w 200%Z (mkCopy [[x01; x02]; [x03]] None))
    as (st1 & new & Hit & Hcm).
  - repeat split.
  - reflexivity.
  - by left.
  - reflexivity.
  - reflexivity.
  - exists st1. split; [exact Hit|].
    destruct Hcm as (code & body & m & new' & Hdo & _ & _ & _ & _ & _ & Hd & Ht).
    injection Hdo as <- <-. split; [exact Hd | exact Ht].
Defined.

(** * The expected size *)

Lemma delivered_fits (world : Z -> attempt_world) (job : DownloadJob.t) :
  (forall (a off code : Z) (body : copy_result),
      (0 <= off <= DownloadJob.Size job)%Z ->
      client_Do (world a) (rangeRequest job off) = DoResp code body ->
      (off + Z.of_nat (length (concat (chunks body))) <= DownloadJob.Size job)%Z) ->
  forall (a : Z) (st : state),
    (Z.of_nat (length (staged job (fs st))) <= DownloadJob.Size job)%Z ->
    (Z.of_nat (length (staged job (fs st)))
     + Z.of_nat (length (delivered (world a) job st)) <= DownloadJob.Size job)%Z.
Proof.
  intros Hfit a st Hst. unfold delivered.
  destruct (client_Do (world a) (sent job st)) as [e|code body] eqn:Hdo.
  - simpl. lia.
  - apply (Hfit a _ code body); [lia | exact Hdo].
Qed.

Lemma loop_fits (world : Z -> attempt_world) (job : DownloadJob.t) :
  (forall (a off code : Z) (body : copy_result),
      (0 <= off <= DownloadJob.Size job)%Z ->
      client_Do (world a) (rangeRequest job off) = DoResp code body ->
      (off + Z.of_nat (length (concat (chunks body))) <= DownloadJob.Size job)%Z) ->
  forall (fuel : nat) (attempt : Z) (st st' : state) (r : option error),
    (Z.of_nat (length (staged job (fs st))) <= DownloadJob.Size job)%Z ->
    downloadBlob_loop fuel world job attempt st = Some (st', r) ->
    exists new,
      hist st' = (new ++ hist st)%list /\
      Forall (fun m : gmap string (list byte) =>
                (Z.of_nat (length (staged job m)) <= DownloadJob.Size job)%Z)
             (fs st' :: new) /\
      (r = None ->
       (Z.of_nat (length (content (DownloadJob.DestPath job) (fs st')))
        <= DownloadJob.Size job)%Z).
Proof.
  intros Hfit. induction fuel as [|fuel IH]; intros attempt st st' r Hst; [done|].
  destruct (Z.leb_spec attempt numRetries) as [Hle|Hgt].
  - rewrite loop_unfold by done.
    destruct (downloadBlob_iter (world attempt) job st) as [st1 ir] eqn:Hit.
    destruct (iter_trail _ _ _ _ _ Hit) as (new1 & Hh1 & Hall1 & Hir).
    pose proof (delivered_fits world job Hfit attempt st Hst) as Hd.
    assert (Hin : forall m, in_flight (world attempt) job st m ->
                (Z.of_nat (length (staged job m)) <= DownloadJob.Size job)%Z).
    { intros m [_ (bs & -> & Hbs)]. rewrite length_app. lia. }
    assert (Hsz1 : Forall (fun m : gmap string (list byte) =>
                (Z.of_nat (length (staged job m)) <= DownloadJob.Size job)%Z) new1).
    { eapply Forall_impl; [exact Hall1 | exact Hin]. }
    destruct ir as [|[e|]].
    + intros Hl.
      destruct (IH _ _ _ _ (Hin _ Hir) Hl) as (new2 & Hh2 & Hall2 & Hr).
      exists (new2 ++ new1)%list. split; [by rewrite Hh2, Hh1, app_assoc|].
      split; [|done].
      rewrite app_comm_cons. apply Forall_app. done.
    + intros [= <- <-]. exists new1. split; [done|]. split; [|done].
      constructor; [by apply Hin | done].
    + intros [= <- <-]. exists new1. split; [done|].
      destruct Hir as (code & body & m & new' & Hdo & _ & _ & _ & _ & _ & Hdst & Htmp).
      unfold delivered in Hd. rewrite Hdo in Hd.
      split.
      * constructor; [|done]. unfold staged.
        rewrite (content_absent _ _ Htmp). simpl. lia.
      * intros _. rewrite (content_lookup _ _ _ Hdst), length_app. lia.
  - rewrite loop_exhausted by done. intros [= <- <-].
    exists []. split; [done|]. split; [|done]. constructor; [done | constructor].
Qed.

(** An attempt that is answered 200 or 206 keeps every byte the copy
    wrote: in the staging file, or at the destination once renamed. *)
Lemma iter_keeps_every_byte (w : attempt_world) (job : DownloadJob.t) (st : state)
    (code : Z) (body : copy_result) :
  reaches_Do w ->
  client_Do w (sent job st) = DoResp code body ->
  code = StatusOK \/ code = StatusPartialContent ->
  exists st3 r,
    downloadBlob_iter w job st = (st3, r) /\
    (r = Continue <-> copy_err body <> None) /\
    (r = Return None <-> copy_err body = None /\ Rename_err w = None) /\
    (r <> Return None ->
     fs st3 !! tempPath job
     = Some (staged job (fs st) ++ concat (chunks body))%list) /\
    (r = Return None ->
     fs st3 !! DownloadJob.DestPath job
     = Some (staged job (fs st) ++ concat (chunks body))%list).
Proof.
  intros Hw Hdo Hcode.
  rewrite (iter_reaches_Do _ _ _ Hw), Hdo. unfold after_Do.
  rewrite status_test_ok by done.
  destruct (copy_err body) as [e|] eqn:He; [|destruct (Rename_err w) as [e|] eqn:Hr].
  - eexists _, _. split; [reflexivity|].
    split; [done|]. split; [by split; [|intros [? _]]|].
    split; [|done]. intros _. apply copied_staging.
  - eexists _, _. split; [reflexivity|].
    split; [by split|]. split; [by split; [|intros [_ ?]]|].
    split; [|done]. intros _. apply copied_staging.
  - eexists _, _. split; [reflexivity|].
    split; [by split|]. split; [done|].
    split; [done|]. intros _. simpl. apply Rename_new, copied_staging.
Qed.

(** C2 (as the code has it): the bound on the staging file holds as far
    as the responses respect it: if the staging file starts within the
    expected size and every response to a request for offset [off]
    delivers at most [Size - off] bytes, then the staging file is within
    the expected size in every state the transfer goes through, and so is
    the destination file after a successful return.  Bytes beyond the
    expected size are never cut off: an attempt answered with status 200
    or 206 appends every byte [io.Copy] writes, whatever the expected
    size; the attempt fails, and is retried, exactly when [io.Copy]
    returns an error, and when it returns none and the rename succeeds
    the destination holds all those bytes. *)
Theorem staging_within_size_if_responses_fit (world : Z -> attempt_world)
    (job : DownloadJob.t) (st : state) :
  ((Z.of_nat (length (staged job (fs st))) <= DownloadJob.Size job)%Z ->
   (forall (a off code : Z) (body : copy_result),
       (0 <= off <= DownloadJob.Size job)%Z ->
       client_Do (world a) (rangeRequest job off) = DoResp code body ->
       (off + Z.of_nat (length (concat (chunks body))) <= DownloadJob.Size job)%Z) ->
   exists st' r new,
     downloadBlob world job st = Some (st', r) /\
     hist st' = (new ++ hist st)%list /\
     Forall (fun m : gmap string (list byte) =>
               (Z.of_nat (length (staged job m)) <= DownloadJob.Size job)%Z)
            (fs st' :: new) /\
     (r = None ->
      (Z.of_nat (length (content (DownloadJob.DestPath job) (fs st')))
       <= DownloadJob.Size job)%Z)) /\
  (forall (attempt code : Z) (body : copy_result),
      reaches_Do (world attempt) ->
      client_Do (world attempt) (sent job st) = DoResp code body ->
      code = StatusOK \/ code = StatusPartialContent ->
      exists st3 r,
        downloadBlob_iter (world attempt) job st = (st3, r) /\
        (r = Continue <-> copy_err body <> None) /\
        (r = Return None <-> copy_err body = None /\ Rename_err (world attempt) = None) /\
        (r <> Return None ->
         fs st3 !! tempPath job
         = Some (staged job (fs st) ++ concat (chunks body))%list) /\
        (r = Return None ->
         fs st3 !! DownloadJob.DestPath job
         = Some (staged job (fs st) ++ concat (chunks body))%list)).
Proof.
  split.
  - intros Hst Hfit.
    destruct (downloadBlob_total world job st) as [[st' r] Hdl].
    unfold downloadBlob in Hdl.
    destruct (downloadBlob_loop _ world job 1 st) as [[st1 r1]|] eqn:Hl; [|done].
    injection Hdl as <- <-.
    destruct (loop_fits world job Hfit _ _ _ _ _ Hst Hl) as (new & Hh & Hall & Hr).
    exists (wg_Done st1), r1, new.
    split; [unfold downloadBlob; by rewrite Hl|]. done.
  - intros attempt code body. apply iter_keeps_every_byte.
Qed.

Lemma staging_within_size_if_responses_fit_witness :
  (exists st' r new,
      downloadBlob (fun _ => serve_whole [[x01; x02]]) demo_job (mkState ∅ [] [] 1)
      = Some (st', r) /\
      hist st' = (new ++ [])%list /\
      Forall (fun m : gmap string (list byte) =>
                (Z.of_nat (length (staged demo_job m)) <= 96)%Z) (fs st' :: new) /\
      (r = None ->
       (Z.of_nat (length (content (DownloadJob.DestPath demo_job) (fs st'))) <= 96)%Z)) /\
  (exists st3,
      downloadBlob_iter (serve_whole [[x01; x02]]) demo_job (mkState ∅ [] [] 1)
      = (st3, Return None) /\
      fs st3 !! DownloadJob.DestPath demo_job = Some [x01; x02]).
Proof.
  destruct (staging_within_size_if_responses_fit
              (fun _ => serve_whole [[x01; x02]]) demo_job (mkState ∅ [] [] 1))
    as [Hbound Hkept].
  split.
  - apply Hbound.
    + vm_compute. discriminate.
    + intros a off code body Hoff.
      destruct (Z.eq_dec off 0) as [-> | Hne].
      * intros [= <- <-]. vm_compute. discriminate.
      * rewrite rangeRequest_pos by lia. simpl.
        rewrite bool_decide_eq_false_2; [discriminate|].
        intros He. apply (f_equal (fun h : gmap string string => h !! "Range")) in He.
        rewrite lookup_singleton_eq, lookup_empty in He. discriminate.
  - destruct (Hkept 1%Z 200%Z (mkCopy [[x01; x02]] None))
      as (st3 & r & Hit & _ & Hr & _ & Hdst).
    + repeat split.
    + reflexivity.
    + by left.
    + assert (r = Return None) as -> by (apply Hr; by split).
      exists st3. split; [exact Hit|]. exact (Hdst eq_refl).
Defined.

(** C2, as stated, fails: a response to a descriptor that expects three
    bytes whose body is written in two chunks, of three and of two bytes,
    the copy ending without error, is appended in full: the staging file
    holds five bytes before the rename, and the call returns nil with the
    five bytes at the destination. *)
Lemma excess_bytes_are_kept :
  exists st' m,
    downloadBlob (fun _ => serve 200 [[x01; x02; x03]; [x04; x05]] None)
      tiny_job (mkState ∅ [] [] 1)
    = Some (st', None) /\
    hist st' !! 0%nat = Some m /\
    m !! tempPath tiny_job = Some [x01; x02; x03; x04; x05] /\
    fs st' !! DownloadJob.DestPath tiny_job = Some [x01; x02; x03; x04; x05] /\
    (DownloadJob.Size tiny_job < Z.of_nat (length [x01; x02; x03; x04; x05]))%Z.
Proof.
  eexists. eexists. split; [vm_compute; reflexivity|].
  split; [reflexivity|].
  split; [vm_compute; reflexivity|].
  split; [vm_compute; reflexivity|].
  vm_compute. reflexivity.
Qed.

(** * The resolver *)

Lemma template_cases (mediaType fileTemplate : string) :
  mediaTypeToFileTemplate !! mediaType = Some fileTemplate ->
  (mediaType = "application/vnd.ollama.image.license" /\ fileTemplate = "license-%s.txt") \/
  (mediaType = "application/vnd.ollama.image.model" /\ fileTemplate = "model-%s.gguf") \/
  (mediaType = "application/vnd.ollama.image.params" /\ fileTemplate = "params-%s.json") \/
  (mediaType = "application/vnd.ollama.image.system" /\ fileTemplate = "system-%s.txt") \/
  (mediaType = "application/vnd.ollama.image.template" /\ fileTemplate = "template-%s.txt").
Proof.
  unfold mediaTypeToFileTemplate. intros H.
  repeat (apply lookup_insert_Some in H as [[<- <-] | [_ H]]; [tauto|]).
  by rewrite lookup_empty in H.
Qed.

Lemma template_unrecognized (mediaType : string) :
  mediaType ∉ ["application/vnd.ollama.image.license";
               "application/vnd.ollama.image.model";
               "application/vnd.ollama.image.params";
               "application/vnd.ollama.image.system";
               "application/vnd.ollama.image.template"] ->
  mediaTypeToFileTemplate !! mediaType = None.
Proof.
  intros H. destruct (mediaTypeToFileTemplate !! mediaType) as [t|] eqn:E; [|done].
  exfalso. apply H.
  destruct (template_cases _ _ E) as [[-> _]|[[-> _]|[[-> _]|[[-> _]|[-> _]]]]];
    set_solver.
Qed.

Lemma prefix_append (p s : string) : String.prefix p (p +:+ s) = true.
Proof.
  induction p as [|a p IH].
  - by destruct s.
  - change (String.prefix (String a p) (String a (p +:+ s)) = true).
    simpl. by destruct (ascii_dec a a).
Qed.

Lemma getShortHash_sha256 (layer : Layer.t) (hex : string) :
  Layer.Digest layer = "sha256:" +:+ hex ->
  (12 <= String.length hex)%nat ->
  getShortHash layer = Ok (String.substring 0 12 hex).
Proof.
  intros Hd Hlen. unfold getShortHash, slice. rewrite Hd.
  unfold HasPrefix. rewrite prefix_append, append_length.
  change (String.length "sha256:") with 7%nat. simpl negb. cbv iota.
  destruct (Nat.leb_spec 19 (7 + String.length hex)) as [_|Hlt]; [|lia].
  reflexivity.
Qed.

(** One layer of the loop of [getDownloadJobs]: a layer of a recognized
    kind whose digest is [sha256:] followed by at least twelve characters
    yields a job, which the loop appends to its list, and whose
    destination is [filepath.Join(destDir, filename)], the file name
    being the kind's template with [%s] replaced by the first twelve
    characters after the colon (bytes 7 to 19 of the digest); the staging
    path of that job is the destination path followed by [.tmp]. *)
Lemma layer_destination_from_template (filepath_Join : string -> string -> string)
    (registry destDir name : string) (layer : Layer.t)
    (fileTemplate hex : string) :
  mediaTypeToFileTemplate !! Layer.MediaType layer = Some fileTemplate ->
  Layer.Digest layer = "sha256:" +:+ hex ->
  (12 <= String.length hex)%nat ->
  exists job pre post,
    layerJob filepath_Join registry destDir name layer = Some (Ok job) /\
    (forall jobs, rangeLayers filepath_Join registry destDir name [layer] jobs
                  = Ok (jobs ++ [job])%list) /\
    fileTemplate = pre +:+ "%s" +:+ post /\
    String.substring 7 12 (Layer.Digest layer) = String.substring 0 12 hex /\
    DownloadJob.DestPath job
    = filepath_Join destDir (pre +:+ String.substring 0 12 hex +:+ post) /\
    tempPath job = DownloadJob.DestPath job +:+ ".tmp" /\
    DownloadJob.Layer job = layer /\
    DownloadJob.Size job = Layer.Size layer.
Proof.
  intros Ht Hd Hlen. unfold layerJob.
  rewrite (getShortHash_sha256 _ _ Hd Hlen), Hd.
  destruct (template_cases _ _ Ht) as
    [[_ ->]|[[_ ->]|[[_ ->]|[[_ ->]|[_ ->]]]]]; rewrite Ht; eexists.
  - exists "license-", ".txt". repeat split; try reflexivity.
    intros jobs. unfold rangeLayers, layerJob.
    by rewrite Ht, (getShortHash_sha256 _ _ Hd Hlen), Hd.
  - exists "model-", ".gguf". repeat split; try reflexivity.
    intros jobs. unfold rangeLayers, layerJob.
    by rewrite Ht, (getShortHash_sha256 _ _ Hd Hlen), Hd.
  - exists "params-", ".json". repeat split; try reflexivity.
    intros jobs. unfold rangeLayers, layerJob.
    by rewrite Ht, (getShortHash_sha256 _ _ Hd Hlen), Hd.
  - exists "system-", ".txt". repeat split; try reflexivity.
    intros jobs. unfold rangeLayers, layerJob.
    by rewrite Ht, (getShortHash_sha256 _ _ Hd Hlen), Hd.
  - exists "template-", ".txt". repeat split; try reflexivity.
    intros jobs. unfold rangeLayers, layerJob.
    by rewrite Ht, (getShortHash_sha256 _ _ Hd Hlen), Hd.
Qed.

Example layer_destination_params :
  exists job,
    layerJob join_slash "https://registry.ollama.ai/" "dst" "library/demo" demo_layer
    = Some (Ok job) /\
    DownloadJob.DestPath job = "dst/params-aaaaaaaaaaaa.json" /\
    tempPath job = "dst/params-aaaaaaaaaaaa.json.tmp".
Proof.
  destruct (layer_destination_from_template join_slash "https://registry.ollama.ai/" "dst"
              "library/demo" demo_layer "params-%s.json"
              "aaaaaaaaaaaaaaaaaaaaaaaaaaaaaaaaaaaaaaaaaaaaaaaaaaaaaaaaaaaa1234")
    as (job & pre & post & Hj & _ & Ht & _ & Hd & Htmp & _).
  - reflexivity.
  - reflexivity.
  - vm_compute. lia.
  - exists job. split; [exact Hj|].
    vm_compute in Hj. injection Hj as <-.
    split; reflexivity.
Qed.

(** C9 fails on the code for a digest that is too short: the params
    layer with the digest [sha256:abc] is of a recognized kind and its
    digest has the form [sha256:<hex>], but it gets no destination name.
    The slice [layer.Digest[7:19]] of [getShortHash] panics, so does
    [getDownloadJobs] whatever the registry, the names and the
    destination directory are, and [main] ends in that panic with no job
    made and nothing printed. *)
Theorem short_digest_gets_no_destination :
  mediaTypeToFileTemplate !! Layer.MediaType short_layer = Some "params-%s.json" /\
  Layer.Digest short_layer = "sha256:" +:+ "abc" /\
  getShortHash short_layer = Panic /\
  forall (filepath_Join : string -> string -> string)
         (registry destDir name version : string),
    layerJob filepath_Join registry destDir name short_layer = Some Panic /\
    getDownloadJobs filepath_Join (serve_manifest [short_layer])
      registry destDir name version = Panic /\
    forall (worlds : nat -> Z -> attempt_world) (m : gmap string (list byte)),
      main filepath_Join (serve_manifest [short_layer]) worlds
        registry destDir name version m []
      = Some (mkSys (boot m) [] [] Panicked) /\
      forall (c : choice) (schedule : list choice),
        main filepath_Join (serve_manifest [short_layer]) worlds
          registry destDir name version m (c :: schedule) = None.
Proof.
  split; [reflexivity|]. split; [reflexivity|]. split; [reflexivity|].
  intros filepath_Join registry destDir name version.
  assert (Hj : layerJob filepath_Join registry destDir name short_layer = Some Panic)
    by reflexivity.
  assert (Hg : getDownloadJobs filepath_Join (serve_manifest [short_layer])
                 registry destDir name version = Panic).
  { unfold getDownloadJobs, serve_manifest. simpl. by rewrite Hj. }
  split; [exact Hj|]. split; [exact Hg|].
  intros worlds m. unfold main, main_start. rewrite Hg.
  split; [reflexivity|]. intros c schedule. reflexivity.
Qed.

Lemma rangeLayers_app (filepath_Join : string -> string -> string)
    (registry destDir name : string) (l1 l2 : list Layer.t) :
  forall jobs : list DownloadJob.t,
    rangeLayers filepath_Join registry destDir name (l1 ++ l2) jobs =
    match rangeLayers filepath_Join registry destDir name l1 jobs with
    | Ok jobs1 => rangeLayers filepath_Join registry destDir name l2 jobs1
    | Err e => Err e
    | Panic => Panic
    end.
Proof.
  induction l1 as [|layer l1 IH]; intros jobs; simpl; [done|].
  destruct (layerJob filepath_Join registry destDir name layer) as [[job|e|]|];
    by rewrite ?IH.
Qed.

Lemma layerJob_Ok (filepath_Join : string -> string -> string)
    (registry destDir name : string) (layer : Layer.t) (job : DownloadJob.t) :
  layerJob filepath_Join registry destDir name layer = Some (Ok job) ->
  DownloadJob.Layer job = layer /\
  is_Some (mediaTypeToFileTemplate !! Layer.MediaType layer).
Proof.
  unfold layerJob.
  destruct (mediaTypeToFileTemplate !! Layer.MediaType layer) as [t|]; [|done].
  destruct (getShortHash layer) as [h|e|]; [|done|done].
  intros [= <-]. eauto.
Qed.

(** The jobs returned are the given ones followed by jobs of layers of a
    recognized media type, in the order of the layers. *)
Lemma rangeLayers_jobs (filepath_Join : string -> string -> string)
    (registry destDir name : string) (layers : list Layer.t) :
  forall jobs res : list DownloadJob.t,
    rangeLayers filepath_Join registry destDir name layers jobs = Ok res ->
    exists added,
      res = (jobs ++ added)%list /\
      Forall (fun job =>
                DownloadJob.Layer job ∈ layers /\
                is_Some (mediaTypeToFileTemplate
                           !! Layer.MediaType (DownloadJob.Layer job))) added.
Proof.
  induction layers as [|layer layers IH]; intros jobs res; simpl.
  - intros [= <-]. exists []. by rewrite app_nil_r.
  - destruct (layerJob filepath_Join registry destDir name layer)
      as [[job|e|]|] eqn:Hj; [|done|done|].
    + intros Hr. destruct (IH _ _ Hr) as (added & -> & Hall).
      destruct (layerJob_Ok _ _ _ _ _ _ Hj) as [Hl Hrec].
      exists (job :: added). split; [by rewrite <- app_assoc|].
      constructor.
      * rewrite Hl. split; [set_solver | done].
      * eapply Forall_impl; [exact Hall|]. intros j [Hin Hs]. split; [set_solver | done].
    + intros Hr. destruct (IH _ _ Hr) as (added & -> & Hall).
      exists added. split; [done|].
      eapply Forall_impl; [exact Hall|]. intros j [Hin Hs]. split; [set_solver | done].
Qed.

(** C10: a layer whose media type is none of the five recognized ones is
    passed over by [getDownloadJobs]: the result, jobs or error, is the
    one the manifest without that layer gives, and when jobs are returned
    each belongs to a layer of a recognized media type, so none belongs
    to the unrecognized layer. *)
Theorem unrecognized_layer_is_omitted (filepath_Join : string -> string -> string)
    (client_Get : string -> get_result) (registry destDir name version : string)
    (code : Z) (mediaType : string) (before after : list Layer.t) (u : Layer.t) :
  Layer.MediaType u ∉ ["application/vnd.ollama.image.license";
                       "application/vnd.ollama.image.model";
                       "application/vnd.ollama.image.params";
                       "application/vnd.ollama.image.system";
                       "application/vnd.ollama.image.template"] ->
  client_Get (Sprintf "%s/v2/%s/manifests/%s" [FStr registry; FStr name; FStr version])
  = GetResp code (inr (Manifest.mk mediaType (before ++ u :: after))) ->
  layerJob filepath_Join registry destDir name u = None /\
  getDownloadJobs filepath_Join client_Get registry destDir name version
  = getDownloadJobs filepath_Join
      (fun _ => GetResp code (inr (Manifest.mk mediaType (before ++ after))))
      registry destDir name version /\
  forall jobs,
    getDownloadJobs filepath_Join client_Get registry destDir name version = Ok jobs ->
    Forall (fun job => DownloadJob.Layer job ∈ (before ++ after)%list /\
                       DownloadJob.Layer job <> u) jobs.
Proof.
  intros Hu Hget.
  assert (Hnone : layerJob filepath_Join registry destDir name u = None).
  { unfold layerJob. by rewrite (template_unrecognized _ Hu). }
  assert (Hsame : forall jobs,
             rangeLayers filepath_Join registry destDir name (before ++ u :: after) jobs
             = rangeLayers filepath_Join registry destDir name (before ++ after) jobs).
  { intros jobs. rewrite !rangeLayers_app.
    destruct (rangeLayers filepath_Join registry destDir name before jobs); [|done|done].
    simpl. by rewrite Hnone. }
  assert (Heq : getDownloadJobs filepath_Join client_Get registry destDir name version
                = getDownloadJobs filepath_Join
                    (fun _ => GetResp code (inr (Manifest.mk mediaType (before ++ after))))
                    registry destDir name version).
  { unfold getDownloadJobs. rewrite Hget.
    destruct (negb (code =? StatusOK)%Z); [done|]. simpl.
    destruct (negb _); [done|]. apply Hsame. }
  split; [exact Hnone|]. split; [exact Heq|].
  intros jobs Hjobs. rewrite Heq in Hjobs. unfold getDownloadJobs in Hjobs.
  destruct (negb (code =? StatusOK)%Z); [done|]. simpl in Hjobs.
  destruct (negb _); [done|].
  destruct (rangeLayers_jobs _ _ _ _ _ _ _ Hjobs) as (added & -> & Hall).
  simpl. eapply Forall_impl; [exact Hall|].
  intros job [Hin Hrec]. split; [done|].
  intros Heq'. rewrite Heq', (template_unrecognized _ Hu) in Hrec.
  by destruct Hrec.
Qed.

Lemma unrecognized_layer_is_omitted_witness :
  let u := Layer.mk "application/vnd.ollama.image.adapter" "sha256:abc" 5 in
  getDownloadJobs join_slash (serve_manifest [u; demo_layer])
    "https://registry.ollama.ai/" "dst" "library/demo" "latest"
  = Ok [DownloadJob.mk demo_layer "dst/params-aaaaaaaaaaaa.json"
          "https://registry.ollama.ai//v2/library/demo/blobs/sha256:aaaaaaaaaaaaaaaaaaaaaaaaaaaaaaaaaaaaaaaaaaaaaaaaaaaaaaaaaaaa1234"
          96].
Proof.
  intros u.
  destruct (unrecognized_layer_is_omitted join_slash (serve_manifest [u; demo_layer])
              "https://registry.ollama.ai/" "dst" "library/demo" "latest"
              200 manifestV2 [] [demo_layer] u) as (_ & Heq & _).
  - subst u. simpl. rewrite !not_elem_of_cons.
    repeat split; try discriminate. apply not_elem_of_nil.
  - reflexivity.
  - rewrite Heq. vm_compute. reflexivity.
Defined.

Lemma rangeLayers_before (filepath_Join : string -> string -> string)
    (registry destDir name : string) (before : list Layer.t) :
  Forall (fun l => is_Some (mediaTypeToFileTemplate !! Layer.MediaType l) ->
                   getShortHash l <> Panic) before ->
  forall jobs : list DownloadJob.t,
    rangeLayers filepath_Join registry destDir name before jobs <> Panic.
Proof.
  induction 1 as [|layer before Hl _ IH]; intros jobs; simpl; [done|].
  unfold layerJob.
  destruct (mediaTypeToFileTemplate !! Layer.MediaType layer) as [t|]; [|apply IH].
  destruct (getShortHash layer) as [h|e|]; [apply IH | done |].
  exfalso. apply Hl; eauto.
Qed.

Lemma getDownloadJobs_resolution_error (filepath_Join : string -> string -> string)
    (client_Get : string -> get_result) (registry destDir name version : string) :
  resolution_error
    (client_Get (Sprintf "%s/v2/%s/manifests/%s"
                   [FStr registry; FStr name; FStr version])) ->
  exists err,
    getDownloadJobs filepath_Join client_Get registry destDir name version = Err err.
Proof.
  unfold getDownloadJobs. intros Hre.
  destruct Hre as [e | code decoded Hcode | code e | code manifest Hmt
                  | code manifest before layer after Hl Hbefore Hrec Hpre].
  - eauto.
  - destruct (Z.eqb_spec code StatusOK); [done|]. simpl. eauto.
  - destruct (negb _); eauto.
  - destruct (negb (code =? _)%Z); [eauto|].
    destruct (String.eqb_spec (Manifest.MediaType manifest) manifestV2); [done|].
    simpl. eauto.
  - destruct (negb (code =? _)%Z); [eauto|].
    destruct (negb (Manifest.MediaType manifest =? manifestV2)); [eauto|].
    rewrite Hl, rangeLayers_app.
    pose proof (rangeLayers_before filepath_Join registry destDir name before Hbefore [])
      as Hnp.
    destruct (rangeLayers filepath_Join registry destDir name before [])
      as [jobs1|e|]; [|eauto|done].
    simpl. unfold layerJob, getShortHash.
    destruct Hrec as [t ->]. rewrite Hpre. simpl. eauto.
Qed.

(** C7 (as the code has it): when the manifest request fails, or its
    status is not 200, or its body does not decode, or the manifest's
    media type is not the expected one, or a layer of a recognized media
    type has a digest that does not start with [sha256:],
    [getDownloadJobs] returns an error; [main] then prints it and exits
    with status 1 before the range loop: its state has no goroutine and
    no scheduler choice can make it take a step. *)
Theorem resolution_error_aborts_the_run (filepath_Join : string -> string -> string)
    (client_Get : string -> get_result) (worlds : nat -> Z -> attempt_world)
    (registry destDir name version : string) (m : gmap string (list byte)) :
  resolution_error
    (client_Get (Sprintf "%s/v2/%s/manifests/%s"
                   [FStr registry; FStr name; FStr version])) ->
  exists err,
    getDownloadJobs filepath_Join client_Get registry destDir name version = Err err /\
    main filepath_Join client_Get worlds registry destDir name version m []
    = Some (mkSys (boot m) ["Error getting download jobs: " +:+ Error err] []
              (Exited 1)) /\
    forall (c : choice) (schedule : list choice),
      main filepath_Join client_Get worlds registry destDir name version m
        (c :: schedule) = None.
Proof.
  intros Hre.
  destruct (getDownloadJobs_resolution_error filepath_Join client_Get
              registry destDir name version Hre) as [err Herr].
  exists err. split; [exact Herr|].
  unfold main, main_start. rewrite Herr. split.
  - reflexivity.
  - intros c schedule. reflexivity.
Qed.

Lemma resolution_error_aborts_the_run_witness :
  let md5 := Layer.mk "application/vnd.ollama.image.model"
               "md5:0123456789abcdef0123456789abcdef" 7 in
  main join_slash (serve_manifest [demo_layer; md5]) (fun _ _ => serve 200 [] None)
    "https://registry.ollama.ai/" "dst" "library/demo" "latest" ∅ []
  = Some (mkSys (boot ∅)
            ["Error getting download jobs: unexpected digest: md5:0123456789abcdef0123456789abcdef"]
            [] (Exited 1)).
Proof.
  intros md5.
  destruct (resolution_error_aborts_the_run join_slash (serve_manifest [demo_layer; md5])
              (fun _ _ => serve 200 [] None)
              "https://registry.ollama.ai/" "dst" "library/demo" "latest" ∅)
    as (err & Herr & Hmain & _).
  - apply (RE_digest 200 (Manifest.mk manifestV2 [demo_layer; md5])
             [demo_layer] md5 []).
    + reflexivity.
    + constructor; [|constructor]. intros _. vm_compute. discriminate.
    + vm_compute. eauto.
    + reflexivity.
  - rewrite Hmain. vm_compute in Herr. injection Herr as <-. reflexivity.
Defined.

(** C7, as stated, fails: a digest that starts with [sha256:] but is not
    hexadecimal (it contains the letter n, which no hexadecimal digest
    does) is accepted, and the job is returned. *)
Lemma non_hex_digest_is_accepted :
  In "n"%char (list_ascii_of_string "sha256:not a hex digest!") /\
  ~ In "n"%char (list_ascii_of_string "sha256:0123456789abcdefABCDEF") /\
  getDownloadJobs join_slash
    (serve_manifest
       [Layer.mk "application/vnd.ollama.image.params" "sha256:not a hex digest!" 96])
    "https://registry.ollama.ai/" "dst" "library/demo" "latest"
  = Ok [DownloadJob.mk
          (Layer.mk "application/vnd.ollama.image.params" "sha256:not a hex digest!" 96)
          "dst/params-not a hex di.json"
          "https://registry.ollama.ai//v2/library/demo/blobs/sha256:not a hex digest!"
          96].
Proof.
  split; [simpl; tauto|]. split; [|vm_compute; reflexivity].
  simpl. intros H. repeat (destruct H as [H|H]; [discriminate H|]). exact H.
Qed.

(** * The orchestrator *)

Lemma wg_iter (w : attempt_world) (job : DownloadJob.t) (st : state) :
  wg (downloadBlob_iter w job st).1 = wg st.
Proof.
  unfold downloadBlob_iter.
  destruct (MkdirAll_err w); [done|]. destruct (OpenFile_err w); [done|].
  destruct (NewRequest_err w); [done|].
  destruct (client_Do w _) as [e|code body]; [done|].
  destruct (_ && _)%bool; [done|].
  destruct (copy_err body); simpl; [by rewrite wg_Copy|].
  destruct (Rename_err w); simpl; by rewrite wg_Copy.
Qed.

Lemma active_app (gs1 gs2 : list goroutine) :
  active (gs1 ++ gs2) = (active gs1 + active gs2)%Z.
Proof. induction gs1 as [|g gs1 IH]; simpl; [done | rewrite IH; lia]. Qed.

Lemma active_insert (gs : list goroutine) (k : nat) (g g' : goroutine) :
  gs !! k = Some g ->
  active (<[k := g']> gs) = (active gs - in_downloadBlob g + in_downloadBlob g')%Z.
Proof.
  revert k. induction gs as [|g0 gs IH]; intros [|k] Hk; simpl in *; try done.
  - injection Hk as ->. lia.
  - rewrite (IH _ Hk). lia.
Qed.

Lemma Forall_insert_idx (P : goroutine -> Prop) (gs : list goroutine) (k : nat)
    (g g' : goroutine) :
  gs !! k = Some g -> (P g -> P g') -> Forall P gs -> Forall P (<[k := g']> gs).
Proof.
  intros Hk Hg Hall. apply Forall_insert; [done|].
  apply Hg. eapply Forall_lookup_1; eauto.
Qed.

Section OrchestratorFacts.

Variable worlds : nat -> Z -> attempt_world.
Variable jobs : list DownloadJob.t.

(** A step of a goroutine, spelled out. *)
Lemma goroutine_step_inv (g : goroutine) (st st' : state) (pc' : goroutine_pc)
    (out : list string) :
  goroutine_step worlds g st = Some (st', pc', out) ->
  (wg st' = wg st - in_downloadBlob g
            + in_downloadBlob (mkGoroutine (g_idx g) (g_job g) pc'))%Z.
Proof.
  unfold goroutine_step, in_downloadBlob. destruct (g_pc g) as [a|[e|]|]; simpl.
  - destruct (a <=? numRetries)%Z.
    + pose proof (wg_iter (worlds (g_idx g) a) (g_job g) st) as Hwg.
      destruct (downloadBlob_iter _ _ st) as [st1 [|e]]; simpl in Hwg;
        intros [= <- <- <-]; simpl; lia.
    + intros [= <- <- <-]. simpl. lia.
  - intros [= <- <- <-]. lia.
  - intros [= <- <- <-]. lia.
  - done.
Qed.

Lemma passed_next (s : sys) (i j : nat) (st : state) (out : list string)
    (gs : list goroutine) :
  pc s = Ranging j -> passed s i -> passed (mkSys st out gs (Ranging (S j))) i.
Proof. unfold passed. intros ->. simpl. lia. Qed.

Lemma dispatched_or_skipped_mono (s s' : sys) (i : nat) (job : DownloadJob.t) :
  (forall k g, goroutines s !! k = Some g ->
               exists g', goroutines s' !! k = Some g' /\
                          g_idx g' = g_idx g /\ g_job g' = g_job g) ->
  (forall line, line ∈ stdout s -> line ∈ stdout s') ->
  dispatched_or_skipped s i job -> dispatched_or_skipped s' i job.
Proof.
  intros Hgs Hout [(k & g & Hk & Hi & Hj) | Hline]; [left | right; auto].
  destruct (Hgs _ _ Hk) as (g' & Hk' & Hi' & Hj').
  exists k, g'. split; [done|]. split; congruence.
Qed.

Lemma step_inv (c : choice) (s s' : sys) :
  sys_inv jobs s -> step worlds jobs c s = Some s' -> sys_inv jobs s'.
Proof.
  intros (Hwg & Hjobs & Hdisp & Hdone). unfold step.
  destruct (running s) eqn:Hrun; [|done].
  destruct c as [|k].
  - unfold main_step. destruct (pc s) as [i| |] eqn:Hpc; [|done|done].
    destruct (jobs !! i) as [job|] eqn:Hjob.
    + destruct (Stat_ok _ _); intros [= <-]; (split; [|split; [|split]]); simpl.
      * done.
      * eapply Forall_impl; [exact Hjobs|]. intros g [Hg Hp]. split; [done|].
        by eapply passed_next.
      * intros i' job' Hi' Hp. unfold passed in Hp. simpl in Hp.
        destruct (decide (i' = i)) as [-> | Hne].
        -- right. simpl. rewrite Hjob in Hi'. injection Hi' as <-.
           apply elem_of_app. right. by apply list_elem_of_singleton.
        -- eapply dispatched_or_skipped_mono; [| |apply (Hdisp i' job' Hi')].
           ++ intros k g Hk. eauto.
           ++ intros line Hl. simpl. apply elem_of_app. by left.
           ++ unfold passed. rewrite Hpc. lia.
      * done.
      * rewrite active_app, Hwg. simpl. unfold in_downloadBlob. simpl. lia.
      * apply Forall_app. split.
        -- eapply Forall_impl; [exact Hjobs|]. intros g [Hg Hp]. split; [done|].
           by eapply passed_next.
        -- constructor; [|constructor]. split; [done|]. unfold passed. simpl. lia.
      * intros i' job' Hi' Hp. unfold passed in Hp. simpl in Hp.
        destruct (decide (i' = i)) as [-> | Hne].
        -- left. rewrite Hjob in Hi'. injection Hi' as <-.
           exists (length (goroutines s)), (mkGoroutine i job (AtLoop 1)).
           simpl. split; [|done].
           rewrite lookup_app_r by lia. by rewrite Nat.sub_diag.
        -- eapply dispatched_or_skipped_mono; [| |apply (Hdisp i' job' Hi')].
           ++ intros k g Hk. exists g. split; [|done]. simpl.
              by apply lookup_app_l_Some.
           ++ done.
           ++ unfold passed. rewrite Hpc. lia.
      * done.
    + destruct (Z.eqb_spec (wg (sys_state s)) 0) as [H0|]; [|done].
      intros [= <-]. split; [done|]. split; [|split]; simpl.
      * eapply Forall_impl; [exact Hjobs|]. by intros g [Hg _].
      * intros i' job' Hi' _.
        eapply dispatched_or_skipped_mono; [| |apply (Hdisp i' job' Hi')].
        -- intros k g Hk. eauto.
        -- intros line Hl. simpl. apply elem_of_app. by left.
        -- unfold passed. rewrite Hpc.
           apply lookup_lt_Some in Hi'. apply lookup_ge_None in Hjob. lia.
      * intros _ _. lia.
  - destruct (goroutines s !! k) as [g|] eqn:Hk; [|done].
    destruct (goroutine_step worlds g (sys_state s)) as [[[st' pc'] out]|] eqn:Hg;
      [|done].
    intros [= <-]. split; [|split; [|split]]; simpl.
    + rewrite (active_insert _ _ _ _ Hk), (goroutine_step_inv _ _ _ _ _ Hg). lia.
    + eapply Forall_insert_idx; [done| |done]. done.
    + intros i' job' Hi' Hp.
      eapply dispatched_or_skipped_mono; [| |apply (Hdisp i' job' Hi' Hp)].
      * intros k' g0 Hk'. simpl. destruct (decide (k' = k)) as [-> | Hne].
        -- rewrite Hk in Hk'. injection Hk' as <-.
           eexists.
           split; [apply list_lookup_insert_eq; by eapply lookup_lt_Some|].
           split; reflexivity.
        -- exists g0. split; [|done]. by rewrite list_lookup_insert_ne.
      * intros line Hl. simpl. apply elem_of_app. by left.
    + intros code Hc. simpl in Hc. unfold running in Hrun.
      by rewrite Hc in Hrun.
Qed.

Lemma exec_inv (schedule : list choice) :
  forall s s', sys_inv jobs s -> exec worlds jobs schedule s = Some s' ->
               sys_inv jobs s'.
Proof.
  induction schedule as [|c schedule IH]; intros s s' Hinv; simpl.
  - by intros [= <-].
  - destruct (step worlds jobs c s) as [s1|] eqn:Hs; [|done].
    apply IH. by eapply step_inv.
Qed.

Lemma reachable_inv (m : gmap string (list byte)) (s : sys) :
  reachable worlds jobs m s -> sys_inv jobs s.
Proof.
  intros [schedule Hex]. eapply exec_inv; [|exact Hex].
  split; [done|]. split; [constructor|]. split; [|done].
  intros i job _ Hp. unfold passed in Hp. simpl in Hp. lia.
Qed.

End OrchestratorFacts.

Lemma step_no_goroutine_for (worlds : nat -> Z -> attempt_world)
    (jobs : list DownloadJob.t) (i : nat) (c : choice) (s s' : sys) :
  no_goroutine_for i s -> step worlds jobs c s = Some s' -> no_goroutine_for i s'.
Proof.
  intros [Hgs Hp]. unfold step. destruct (running s); [|done].
  destruct c as [|k].
  - unfold main_step. destruct (pc s) as [j| |] eqn:Hpc; [|done|done].
    unfold passed in Hp. rewrite Hpc in Hp.
    destruct (jobs !! j) as [job|].
    + destruct (Stat_ok _ _); intros [= <-]; split; simpl; try done;
        try (unfold passed; simpl; lia).
      apply Forall_app. split; [done|]. constructor; [simpl; lia | constructor].
    + destruct (_ =? _)%Z; [|done]. intros [= <-]. by split.
  - destruct (goroutines s !! k) as [g|] eqn:Hk; [|done].
    destruct (goroutine_step worlds g (sys_state s)) as [[[st' pc'] out]|]; [|done].
    intros [= <-]. split; [|done]. simpl.
    eapply Forall_insert_idx; [done| |done]. done.
Qed.

Lemma exec_no_goroutine_for (worlds : nat -> Z -> attempt_world)
    (jobs : list DownloadJob.t) (i : nat) (schedule : list choice) :
  forall s s', no_goroutine_for i s -> exec worlds jobs schedule s = Some s' ->
               no_goroutine_for i s'.
Proof.
  induction schedule as [|c schedule IH]; intros s s' Hn; simpl.
  - by intros [= <-].
  - destruct (step worlds jobs c s) as [s1|] eqn:Hs; [|done].
    apply IH. by eapply step_no_goroutine_for.
Qed.

(** Only a goroutine step can call [client.Do]. *)
Lemma main_step_net (jobs : list DownloadJob.t) (s s' : sys) :
  main_step jobs s = Some s' -> net (sys_state s') = net (sys_state s).
Proof.
  unfold main_step. destruct (pc s); [|done|done].
  destruct (jobs !! i) as [job|].
  - by destruct (Stat_ok _ _); intros [= <-].
  - destruct (_ =? _)%Z; [|done]. by intros [= <-].
Qed.

(** C6: when the range loop of [main] comes to a job whose destination
    path exists, whatever it holds, its step prints "Already have" with
    the path and moves on to the next job, leaving the wait group, the
    goroutines and the network log as they were; and in every state the
    program can reach afterwards no goroutine transfers that job, and
    every step that adds a request to the network log is a step of a
    goroutine of another job. *)
Theorem existing_destination_is_skipped (worlds : nat -> Z -> attempt_world)
    (jobs : list DownloadJob.t) (m : gmap string (list byte)) (s : sys)
    (i : nat) (job : DownloadJob.t) :
  reachable worlds jobs m s ->
  pc s = Ranging i ->
  jobs !! i = Some job ->
  is_Some (fs (sys_state s) !! DownloadJob.DestPath job) ->
  let s1 := mkSys (sys_state s)
              (stdout s ++ ["Already have " +:+ DownloadJob.DestPath job])
              (goroutines s) (Ranging (S i)) in
  step worlds jobs RunMain s = Some s1 /\
  forall schedule s2,
    exec worlds jobs schedule s1 = Some s2 ->
    Forall (fun g => g_idx g <> i) (goroutines s2) /\
    forall c s3,
      step worlds jobs c s2 = Some s3 ->
      net (sys_state s3) <> net (sys_state s2) ->
      exists k g, c = RunGoroutine k /\ goroutines s2 !! k = Some g /\ g_idx g <> i.
Proof.
  intros Hreach Hpc Hjob Hex s1.
  assert (Hstep : step worlds jobs RunMain s = Some s1).
  { unfold step, running, main_step. rewrite Hpc, Hjob.
    unfold Stat_ok. by rewrite bool_decide_eq_true_2. }
  split; [exact Hstep|].
  assert (Hn1 : no_goroutine_for i s1).
  { destruct (reachable_inv _ _ _ _ Hreach) as (_ & Hidx & _).
    split; [|unfold passed; simpl; lia].
    eapply Forall_impl; [exact Hidx|]. intros g [_ Hp].
    unfold passed in Hp. rewrite Hpc in Hp. simpl. lia. }
  intros schedule s2 Hs2.
  destruct (exec_no_goroutine_for _ _ _ _ _ _ Hn1 Hs2) as [Hgs2 _].
  split; [exact Hgs2|].
  intros c s3 Hs3 Hnet. unfold step in Hs3.
  destruct (running s2); [|done]. destruct c as [|k].
  - by rewrite (main_step_net _ _ _ Hs3) in Hnet.
  - destruct (goroutines s2 !! k) as [g|] eqn:Hk; [|done].
    exists k, g. split; [done|]. split; [done|].
    eapply (Forall_lookup_1 _ _ _ _ Hgs2 Hk).
Qed.

Lemma existing_destination_is_skipped_witness :
  step (fun _ _ => serve 200 [] None) [demo_job] RunMain
    (initial {["dst/params-aaaaaaaaaaaa.json" := [x01]]})
  = Some (mkSys (boot {["dst/params-aaaaaaaaaaaa.json" := [x01]]})
            ["Already have dst/params-aaaaaaaaaaaa.json"] [] (Ranging 1)).
Proof.
  destruct (existing_destination_is_skipped (fun _ _ => serve 200 [] None) [demo_job]
              {["dst/params-aaaaaaaaaaaa.json" := [x01]]}
              (initial {["dst/params-aaaaaaaaaaaa.json" := [x01]]}) 0 demo_job)
    as [Hstep _].
  - exists []. reflexivity.
  - reflexivity.
  - reflexivity.
  - simpl. rewrite lookup_singleton_eq. eauto.
  - exact Hstep.
Defined.

(** * A goroutine runs [downloadBlob] *)

Lemma goroutine_run_S (worlds : nat -> Z -> attempt_world) (n : nat)
    (g : goroutine) (st : state) :
  goroutine_run worlds (S n) g st =
  match goroutine_step worlds g st with
  | Some (st', pc', _) =>
      goroutine_run worlds n (mkGoroutine (g_idx g) (g_job g) pc') st'
  | None => None
  end.
Proof. reflexivity. Qed.

Lemma goroutine_step_AtLoop (worlds : nat -> Z -> attempt_world) (i : nat)
    (job : DownloadJob.t) (attempt : Z) (st : state) :
  goroutine_step worlds (mkGoroutine i job (AtLoop attempt)) st =
  if (attempt <=? numRetries)%Z then
    match downloadBlob_iter (worlds i attempt) job st with
    | (st', Continue) => Some (st', AtLoop (attempt + 1), [])
    | (st', Return err) => Some (wg_Done st', Returned err, [])
    end
  else Some (wg_Done st, Returned (Some (errorString "maximum retries reached")), []).
Proof. reflexivity. Qed.

(** The steps of a goroutine add up to a call of [downloadBlob]. *)
Lemma goroutine_runs_downloadBlob_loop (worlds : nat -> Z -> attempt_world)
    (i : nat) (job : DownloadJob.t) :
  forall (fuel : nat) (attempt : Z) (st st' : state) (r : option error),
    downloadBlob_loop fuel (worlds i) job attempt st = Some (st', r) ->
    exists n,
      goroutine_run worlds n (mkGoroutine i job (AtLoop attempt)) st
      = Some (wg_Done st', mkGoroutine i job (Returned r)).
Proof.
  induction fuel as [|fuel IH]; intros attempt st st' r; [done|].
  destruct (Z.leb_spec attempt numRetries) as [Hle|Hgt].
  - rewrite loop_unfold by done.
    destruct (downloadBlob_iter (worlds i attempt) job st) as [st1 [|e]] eqn:Hit.
    + intros Hl. destruct (IH _ _ _ _ Hl) as [n Hn]. exists (S n).
      rewrite goroutine_run_S, goroutine_step_AtLoop, Hit.
      destruct (Z.leb_spec attempt numRetries); [exact Hn | lia].
    + intros [= <- <-]. exists 1%nat.
      rewrite goroutine_run_S, goroutine_step_AtLoop, Hit.
      destruct (Z.leb_spec attempt numRetries); [done | lia].
  - rewrite loop_exhausted by done. intros [= <- <-]. exists 1%nat.
    rewrite goroutine_run_S, goroutine_step_AtLoop.
    destruct (Z.leb_spec attempt numRetries); [lia | done].
Qed.

Lemma goroutine_runs_downloadBlob (worlds : nat -> Z -> attempt_world)
    (i : nat) (job : DownloadJob.t) (st st' : state) (r : option error) :
  downloadBlob (worlds i) job st = Some (st', r) ->
  exists n,
    goroutine_run worlds n (mkGoroutine i job (AtLoop 1)) st
    = Some (st', mkGoroutine i job (Returned r)).
Proof.
  unfold downloadBlob.
  destruct (downloadBlob_loop _ (worlds i) job 1 st) as [[st1 r1]|] eqn:Hl; [|done].
  intros [= <- <-]. by eapply goroutine_runs_downloadBlob_loop.
Qed.

(** * Dispatch and join *)

(** A job whose destination path does not exist gets a goroutine of its
    own, after [wg.Add(1)]. *)
Lemma missing_destination_is_dispatched (worlds : nat -> Z -> attempt_world)
    (jobs : list DownloadJob.t) (s : sys) (i : nat) (job : DownloadJob.t) :
  pc s = Ranging i ->
  jobs !! i = Some job ->
  fs (sys_state s) !! DownloadJob.DestPath job = None ->
  step worlds jobs RunMain s
  = Some (mkSys (wg_Add (sys_state s) 1) (stdout s)
            (goroutines s ++ [mkGoroutine i job (AtLoop 1)]) (Ranging (S i))).
Proof.
  intros Hpc Hjob Hnone. unfold step, running, main_step. rewrite Hpc, Hjob.
  unfold Stat_ok. rewrite bool_decide_eq_false_2; [done|].
  rewrite Hnone. by intros [x Hx].
Qed.

Lemma active_zero (gs : list goroutine) :
  active gs = 0%Z -> Forall (fun g => forall a, g_pc g <> AtLoop a) gs.
Proof.
  assert (Hnn : forall gs', (0 <= active gs')%Z).
  { induction gs' as [|g gs' IH]; simpl; [lia|].
    unfold in_downloadBlob. destruct (g_pc g); lia. }
  induction gs as [|g gs IH]; simpl; intros H0; [constructor|].
  pose proof (Hnn gs). unfold in_downloadBlob in H0.
  constructor.
  - intros a Ha. rewrite Ha in H0. lia.
  - apply IH. destruct (g_pc g); lia.
Qed.

(** Once [main] is past [wg.Wait()], every job was dispatched or skipped
    and [downloadBlob] has returned in every goroutine. *)
Lemma complete_after_every_return (worlds : nat -> Z -> attempt_world)
    (jobs : list DownloadJob.t) (m : gmap string (list byte)) (s : sys) (code : Z) :
  reachable worlds jobs m s ->
  pc s = Exited code ->
  Forall (fun g => forall a, g_pc g <> AtLoop a) (goroutines s) /\
  forall i job, jobs !! i = Some job -> dispatched_or_skipped s i job.
Proof.
  intros Hreach Hpc.
  destruct (reachable_inv _ _ _ _ Hreach) as (_ & _ & Hdisp & Hdone).
  split; [apply active_zero; eauto|].
  intros i job Hjob. apply Hdisp; [done|]. unfold passed. by rewrite Hpc.
Qed.

(** A step of one goroutine leaves the other goroutines and the main
    goroutine where they were. *)
Lemma goroutine_step_is_local (worlds : nat -> Z -> attempt_world)
    (jobs : list DownloadJob.t) (k : nat) (s s' : sys) :
  step worlds jobs (RunGoroutine k) s = Some s' ->
  pc s' = pc s /\
  forall k', k' <> k -> goroutines s' !! k' = goroutines s !! k'.
Proof.
  unfold step. destruct (running s); [|done].
  destruct (goroutines s !! k) as [g|]; [|done].
  destruct (goroutine_step worlds g (sys_state s)) as [[[st' pc'] out]|]; [|done].
  intros [= <-]. split; [done|]. intros k' Hne. simpl.
  by rewrite list_lookup_insert_ne.
Qed.

(** C8 fails on the code in one respect: [wg.Done()] is deferred inside
    [downloadBlob], so it runs before the goroutine tests the returned
    error.  With one job whose request is answered 404 and the schedule
    "main dispatches; the goroutine runs [downloadBlob] to its return;
    main passes [wg.Wait()]", the program prints "Download complete" and
    exits while the goroutine still holds the unreported error, and no
    further step exists: the failure is never printed. *)
Theorem failure_can_go_unreported :
  let run :=
    main join_slash (serve_manifest [demo_layer]) (fun _ _ => serve 404 [] None)
      "https://registry.ollama.ai/" "dst" "library/demo" "latest" ∅ in
  exists s job,
    run [RunMain; RunGoroutine 0; RunMain] = Some s /\
    pc s = Exited 0 /\
    stdout s = ["Download complete"] /\
    goroutines s
    = [mkGoroutine 0 job (Returned (Some (errorString "unexpected status code: 404")))] /\
    (forall c rest, run ([RunMain; RunGoroutine 0; RunMain] ++ c :: rest)%list = None) /\
    exists s',
      run [RunMain; RunGoroutine 0; RunGoroutine 0; RunMain] = Some s' /\
      stdout s' = ["Download error: unexpected status code: 404"; "Download complete"].
Proof.
  intros run. eexists. eexists.
  split; [vm_compute; reflexivity|].
  split; [reflexivity|]. split; [reflexivity|]. split; [reflexivity|].
  split.
  - intros c rest. subst run. unfold main.
    destruct (main_start _ _ _ _ _ _ _) as [jobs s0] eqn:Hs0.
    vm_compute in Hs0. injection Hs0 as <- <-.
    destruct c; reflexivity.
  - eexists. split; [vm_compute; reflexivity | reflexivity].
Qed.

(** * The command line *)

Lemma append_cons (c : ascii) (s t : string) :
  String c s +:+ t = String c (s +:+ t).
Proof. reflexivity. Qed.

Lemma append_assoc (s t u : string) : (s +:+ t) +:+ u = s +:+ (t +:+ u).
Proof.
  induction s as [|c s IH]; [done|].
  rewrite !append_cons. by rewrite IH.
Qed.

Lemma prefix_empty (s : string) : String.prefix "" s = true.
Proof. by destruct s. Qed.

Lemma Contains_cons (b c : ascii) (s : string) :
  Contains (String b s) (String c "")
  = (Ascii.eqb b c || Contains s (String c ""))%bool.
Proof.
  simpl. destruct (ascii_dec c b) as [->|Hne].
  - by rewrite prefix_empty, Ascii.eqb_refl.
  - destruct (Ascii.eqb_spec b c) as [->|_]; [done | reflexivity].
Qed.

Lemma Contains_nil (c : ascii) : Contains "" (String c "") = false.
Proof. reflexivity. Qed.

Lemma Contains_app (c : ascii) (s t : string) :
  Contains (s +:+ t) (String c "")
  = (Contains s (String c "") || Contains t (String c ""))%bool.
Proof.
  induction s as [|b s IH]; [done|].
  rewrite append_cons, !Contains_cons, IH. by rewrite orb_assoc.
Qed.

(** A string that contains the byte [c] splits at its first [c]. *)
Lemma Contains_first (c : ascii) (s : string) :
  Contains s (String c "") = true ->
  exists a b, s = a +:+ String c b /\ Contains a (String c "") = false.
Proof.
  induction s as [|b s IH]; [done|].
  rewrite Contains_cons. destruct (Ascii.eqb_spec b c) as [->|Hne]; simpl.
  - intros _. by exists "", s.
  - intros H. destruct (IH H) as (a & t & -> & Ha).
    exists (String b a), t. split; [done|].
    rewrite Contains_cons, Ha. by destruct (Ascii.eqb_spec b c).
Qed.

Lemma Split_nonempty (s : string) (sep : ascii) : Split s sep <> [].
Proof.
  destruct s as [|c s]; simpl; [done|].
  destruct (Ascii.eqb c sep); [done|]. by destruct (Split s sep).
Qed.

Lemma Split_none (s : string) (sep : ascii) :
  Contains s (String sep "") = false -> Split s sep = [s].
Proof.
  induction s as [|c s IH]; [done|].
  rewrite Contains_cons. destruct (Ascii.eqb_spec c sep) as [->|Hne]; [done|].
  simpl. intros H. destruct (Ascii.eqb_spec c sep); [done|]. by rewrite (IH H).
Qed.

Lemma Split_first (a b : string) (sep : ascii) :
  Contains a (String sep "") = false ->
  Split (a +:+ String sep b) sep = a :: Split b sep.
Proof.
  induction a as [|c a IH].
  - intros _. change (Split (String sep b) sep = "" :: Split b sep).
    simpl. by rewrite Ascii.eqb_refl.
  - rewrite Contains_cons, append_cons.
    destruct (Ascii.eqb_spec c sep) as [->|Hne]; [done|].
    simpl. intros H. destruct (Ascii.eqb_spec c sep); [done|]. by rewrite (IH H).
Qed.

Lemma ReplaceAll_app (s t : string) (old : ascii) (new : string) :
  ReplaceAll (s +:+ t) old new = ReplaceAll s old new +:+ ReplaceAll t old new.
Proof.
  induction s as [|c s IH]; [done|].
  rewrite append_cons. simpl. rewrite IH.
  destruct (Ascii.eqb c old); [by rewrite append_assoc | done].
Qed.

Lemma ReplaceAll_absent (s : string) (old : ascii) (new : string) :
  Contains s (String old "") = false -> ReplaceAll s old new = s.
Proof.
  induction s as [|c s IH]; [done|].
  rewrite Contains_cons. simpl.
  destruct (Ascii.eqb c old); [done|]. intros H. by rewrite (IH H).
Qed.

(** No byte [c] comes out of a replacement that none went into. *)
Lemma ReplaceAll_keeps_out (s : string) (old c : ascii) (new : string) :
  Contains new (String c "") = false ->
  (Contains s (String c "") = false \/ c = old) ->
  Contains (ReplaceAll s old new) (String c "") = false.
Proof.
  intros Hnew. induction s as [|b s IH]; [done|].
  rewrite Contains_cons. simpl. intros Hs.
  destruct (Ascii.eqb_spec b old) as [->|Hbo].
  - rewrite Contains_app, Hnew. simpl. apply IH.
    destruct Hs as [Hs|Hs]; [|by right].
    left. by destruct (Ascii.eqb old c).
  - rewrite Contains_cons.
    destruct (Ascii.eqb_spec b c) as [->|Hbc].
    + destruct Hs as [Hs|Hs]; [done | congruence].
    + simpl. apply IH. destruct Hs as [Hs|Hs]; [by left | by right].
Qed.

Lemma qualify_Contains (name : string) :
  Contains (qualify name) "/" = true /\ Contains (qualify name) ":" = true.
Proof.
  unfold qualify.
  destruct (Contains name "/") eqn:Hs; cbn [negb].
  - destruct (Contains name ":") eqn:Hc; cbn [negb]; [done|].
    rewrite !Contains_app, Hs, Hc. split; reflexivity.
  - destruct (Contains ("library/" +:+ name) ":") eqn:Hc; cbn [negb].
    + split; [|done]. rewrite Contains_app. reflexivity.
    + rewrite !Contains_app. split; [reflexivity|].
      rewrite Contains_app in Hc. rewrite Hc. reflexivity.
Qed.

(** The first two pieces of a string that contains the separator. *)
Lemma Split_two (s : string) (sep : ascii) :
  Contains s (String sep "") = true ->
  exists a b tail,
    Split s sep !! 0%nat = Some a /\ Split s sep !! 1%nat = Some b /\
    s = a +:+ String sep b +:+ tail /\
    (tail = "" \/ exists tail', tail = String sep tail') /\
    Contains a (String sep "") = false /\ Contains b (String sep "") = false.
Proof.
  intros H. destruct (Contains_first _ _ H) as (a & rest & -> & Ha).
  rewrite (Split_first _ _ _ Ha).
  destruct (Contains rest (String sep "")) eqn:Hr.
  - destruct (Contains_first _ _ Hr) as (b & rest' & -> & Hb).
    rewrite (Split_first _ _ _ Hb).
    exists a, b, (String sep rest'). repeat split; eauto.
  - rewrite (Split_none _ _ Hr).
    exists a, rest, "". rewrite append_empty_r. repeat split; eauto.
Qed.

(** X1: with a positional argument, [main] always gets a name and a
    version: [nameParts[1]] exists, so the index expression never panics.
    The name is the qualified argument up to its first colon, the version
    what lies between the first colon and the second; whatever follows a
    second colon is dropped. *)
Theorem main_flags_name_and_version (fl : flags) (arg0 : string) (args : list string) :
  flag_Args fl = arg0 :: args ->
  exists t tail,
    main_flags fl = Target t /\
    qualify arg0 = t_name t +:+ ":" +:+ t_version t +:+ tail /\
    (tail = "" \/ exists tail', tail = String ":" tail') /\
    Contains (t_name t) ":" = false /\
    Contains (t_version t) ":" = false.
Proof.
  intros Hargs. unfold main_flags. rewrite Hargs.
  destruct (qualify_Contains arg0) as [_ Hc].
  destruct (Split_two _ _ Hc) as (a & b & tail & H0 & H1 & Hq & Ht & Ha & Hb).
  rewrite H0, H1. eexists. exists tail. split; [reflexivity|]. simpl. eauto.
Qed.

Lemma main_flags_name_and_version_witness :
  exists t,
    main_flags (mkFlags None None ["mistral:7b:q4"]) = Target t /\
    t_name t = "library/mistral" /\ t_version t = "7b".
Proof.
  destruct (main_flags_name_and_version (mkFlags None None ["mistral:7b:q4"])
              "mistral:7b:q4" []) as (t & tail & Ht & _).
  - reflexivity.
  - exists t. split; [exact Ht|].
    vm_compute in Ht. injection Ht as <-. split; reflexivity.
Defined.

(** X2: a model given without namespace is looked up under [library/],
    and without tag under [latest]: for an argument [n] free of slash
    and colon the target is the name [library/n], the version [latest]
    and, unless [-d] names one, the directory [library-n-latest]; for
    [n:v] with a tag [v] free of slash and colon it is [library/n], [v]
    and [library-n-v].  The registry is the flag's value or the default
    one. *)
Theorem main_flags_library_defaults (fl : flags) (n : string) (args : list string) :
  Contains n "/" = false ->
  Contains n ":" = false ->
  let dir (d : string) :=
    match flag_d fl with
    | Some given => if String.eqb given "" then d else given
    | None => d
    end in
  (flag_Args fl = n :: args ->
   main_flags fl
   = Target (mkTarget (default defaultRegistry (flag_registry fl))
               (dir ("library-" +:+ n +:+ "-latest")) ("library/" +:+ n) "latest")) /\
  (forall v,
      Contains v "/" = false ->
      Contains v ":" = false ->
      flag_Args fl = (n +:+ ":" +:+ v) :: args ->
      main_flags fl
      = Target (mkTarget (default defaultRegistry (flag_registry fl))
                  (dir ("library-" +:+ n +:+ "-" +:+ v)) ("library/" +:+ n) v)).
Proof.
  intros Hs Hc dir.
  assert (Hlib : Contains ("library/" +:+ n) ":" = false).
  { by rewrite Contains_app, Hc. }
  split.
  - intros Hargs. unfold main_flags, qualify. rewrite Hargs, Hs. cbn [negb].
    rewrite Hlib. cbn [negb].
    rewrite <- append_assoc, (Split_first ("library/" +:+ n) "latest" ":" Hlib).
    change (Split "latest" ":") with ["latest"]. cbn [lookup list_lookup].
    f_equal. f_equal. subst dir.
    assert (Hd : ReplaceAll (ReplaceAll (("library/" +:+ n) +:+ ":latest") "/" "-") ":" "-"
                 = "library-" +:+ n +:+ "-latest").
    { rewrite !ReplaceAll_app, (ReplaceAll_absent n "/"), (ReplaceAll_absent n ":")
        by done.
      change (ReplaceAll (ReplaceAll "library/" "/" "-") ":" "-") with "library-".
      change (ReplaceAll (ReplaceAll ":latest" "/" "-") ":" "-") with "-latest".
      by rewrite append_assoc. }
    destruct (flag_d fl) as [d|]; simpl; [|exact Hd].
    destruct (String.eqb d ""); [exact Hd | done].
  - intros v Hvs Hvc Hargs. unfold main_flags, qualify. rewrite Hargs.
    change (":" +:+ v) with (String ":" v) in *.
    assert (Hs' : Contains (n +:+ String ":" v) "/" = false).
    { by rewrite Contains_app, (Contains_cons ":" "/" v), Hs, Hvs. }
    assert (Hc' : Contains ("library/" +:+ n +:+ String ":" v) ":" = true).
    { rewrite !Contains_app, (Contains_cons ":" ":" v), Ascii.eqb_refl.
      cbn [orb]. by rewrite !orb_true_r. }
    rewrite Hs'. cbn [negb]. rewrite Hc'. cbn [negb].
    rewrite <- append_assoc, (Split_first ("library/" +:+ n) v ":" Hlib).
    rewrite (Split_none v ":" Hvc). cbn [lookup list_lookup].
    f_equal. f_equal. subst dir.
    assert (Hd : ReplaceAll (ReplaceAll (("library/" +:+ n) +:+ String ":" v) "/" "-") ":" "-"
                 = "library-" +:+ n +:+ String "-" v).
    { change (String ":" v) with (":" +:+ v).
      rewrite !ReplaceAll_app, (ReplaceAll_absent n "/"), (ReplaceAll_absent v "/"),
        (ReplaceAll_absent n ":"), (ReplaceAll_absent v ":") by done.
      change (ReplaceAll (ReplaceAll "library/" "/" "-") ":" "-") with "library-".
      change (ReplaceAll (ReplaceAll ":" "/" "-") ":" "-") with "-".
      by rewrite append_assoc. }
    destruct (flag_d fl) as [d|]; simpl; [|exact Hd].
    destruct (String.eqb d ""); [exact Hd | done].
Qed.

Lemma main_flags_library_defaults_witness :
  main_flags (mkFlags None None ["llama3.2"])
  = Target (mkTarget "https://registry.ollama.ai/" "library-llama3.2-latest"
              "library/llama3.2" "latest") /\
  main_flags (mkFlags None None ["llama3.2:3b"])
  = Target (mkTarget "https://registry.ollama.ai/" "library-llama3.2-3b"
              "library/llama3.2" "3b").
Proof.
  split.
  - destruct (main_flags_library_defaults (mkFlags None None ["llama3.2"])
                "llama3.2" []) as [H _]; [reflexivity | reflexivity |].
    apply H. reflexivity.
  - destruct (main_flags_library_defaults (mkFlags None None ["llama3.2:3b"])
                "llama3.2" []) as [_ H]; [reflexivity | reflexivity |].
    apply (H "3b"); reflexivity.
Defined.

(** X3: the destination directory [main] derives from the name is a
    single path element: it contains neither a slash nor a colon, whatever
    the argument; a non-empty [-d] is taken as it is. *)
Theorem main_flags_destDir (fl : flags) (t : target) :
  main_flags fl = Target t ->
  match flag_d fl with
  | Some given =>
      if String.eqb given "" then
        Contains (t_destDir t) "/" = false /\ Contains (t_destDir t) ":" = false
      else t_destDir t = given
  | None =>
      Contains (t_destDir t) "/" = false /\ Contains (t_destDir t) ":" = false
  end.
Proof.
  unfold main_flags. destruct (flag_Args fl) as [|arg0 args]; [done|].
  destruct (Split (qualify arg0) ":" !! 0%nat) as [name|]; [|done].
  destruct (Split (qualify arg0) ":" !! 1%nat) as [version|]; [|done].
  intros [= <-]. cbn [t_destDir].
  assert (Hflat : forall s,
             Contains (ReplaceAll (ReplaceAll s "/" "-") ":" "-") "/" = false /\
             Contains (ReplaceAll (ReplaceAll s "/" "-") ":" "-") ":" = false).
  { intros s. split.
    - apply ReplaceAll_keeps_out; [reflexivity|]. left.
      apply ReplaceAll_keeps_out; [reflexivity | by right].
    - apply ReplaceAll_keeps_out; [reflexivity | by right]. }
  destruct (flag_d fl) as [d|]; simpl.
  - destruct (String.eqb d "") eqn:Hd; [apply Hflat | done].
  - apply Hflat.
Qed.

Lemma main_flags_destDir_witness :
  exists t,
    main_flags (mkFlags None None ["hf.co/org/model:Q4_K_M"]) = Target t /\
    t_destDir t = "hf.co-org-model-Q4_K_M" /\
    Contains (t_destDir t) "/" = false /\ Contains (t_destDir t) ":" = false.
Proof.
  eexists. split; [vm_compute; reflexivity|]. split; [reflexivity|].
  apply (main_flags_destDir (mkFlags None None ["hf.co/org/model:Q4_K_M"])).
  vm_compute. reflexivity.
Defined.

(** * Further facts about a transfer *)

Lemma Rename_other (old new q : string) (m : gmap string (list byte)) :
  q <> old -> q <> new -> Rename old new m !! q = m !! q.
Proof.
  intros H1 H2. unfold Rename. destruct (m !! old); [|done].
  rewrite lookup_insert_ne by done. by apply lookup_delete_ne.
Qed.

(** What one iteration does to the network log. *)
Lemma iter_net (w : attempt_world) (job : DownloadJob.t) (st : state) :
  net (downloadBlob_iter w job st).1 = net st \/
  net (downloadBlob_iter w job st).1 = (net st ++ [sent job st])%list.
Proof.
  unfold downloadBlob_iter.
  destruct (MkdirAll_err w); [by left|]. destruct (OpenFile_err w); [by left|].
  simpl fs. rewrite Seek_end_OpenFile_append.
  destruct (NewRequest_err w); [by left|]. right.
  destruct (client_Do w _) as [e|code body]; [done|].
  destruct (_ && _)%bool; [done|].
  destruct (copy_err body); simpl; [by rewrite net_Copy|].
  destruct (Rename_err w); simpl; by rewrite net_Copy.
Qed.

(** What one iteration does to the paths that are not its own. *)
Lemma iter_frame (w : attempt_world) (job : DownloadJob.t) (st : state) :
  exists new,
    hist (downloadBlob_iter w job st).1 = (new ++ hist st)%list /\
    Forall (fun m : gmap string (list byte) =>
              forall q, q <> tempPath job -> q <> DownloadJob.DestPath job ->
                        m !! q = fs st !! q)
           (fs (downloadBlob_iter w job st).1 :: new).
Proof.
  assert (Hopened : forall q, q <> tempPath job -> q <> DownloadJob.DestPath job ->
                               OpenFile_append (tempPath job) (fs st) !! q = fs st !! q).
  { intros q Hq _. by apply OpenFile_append_other. }
  unfold downloadBlob_iter.
  destruct (MkdirAll_err w).
  { exists []. split; [done|]. by repeat constructor. }
  destruct (OpenFile_err w).
  { exists []. split; [done|]. by repeat constructor. }
  destruct (NewRequest_err w).
  { exists [fs st]. split; [done|]. by repeat constructor. }
  destruct (client_Do w _) as [e|code body].
  { exists [fs st]. split; [done|]. by repeat constructor. }
  destruct (_ && _)%bool.
  { exists [fs st]. split; [done|]. by repeat constructor. }
  match goal with
  | |- context [Copy ?p ?cs ?s2] =>
      set (st2 := s2);
      destruct (Copy_trail p cs st2) as (new1 & Hh & Hall)
  end.
  { subst st2. simpl. rewrite OpenFile_append_lookup. eauto. }
  assert (Hframe1 : Forall (fun m : gmap string (list byte) =>
              forall q, q <> tempPath job -> q <> DownloadJob.DestPath job ->
                        m !! q = fs st !! q) (new1 ++ [fs st])).
  { apply Forall_app. split; [|by repeat constructor].
    eapply Forall_impl; [exact Hall|]. intros m [Hq _] q H1 H2.
    rewrite Hq by done. subst st2. simpl. by apply Hopened. }
  assert (Hframe3 : forall q, q <> tempPath job -> q <> DownloadJob.DestPath job ->
              fs (Copy (tempPath job) (chunks body) st2) !! q = fs st !! q).
  { intros q H1 H2. rewrite fs_Copy_other by done. subst st2. simpl. by apply Hopened. }
  assert (Hh3 : hist (Copy (tempPath job) (chunks body) st2)
                = ((new1 ++ [fs st]) ++ hist st)%list).
  { rewrite Hh. subst st2. simpl. by rewrite <- app_assoc. }
  destruct (copy_err body).
  { exists (new1 ++ [fs st])%list. split; [done|]. by constructor. }
  destruct (Rename_err w).
  { exists (new1 ++ [fs st])%list. split; [done|]. by constructor. }
  exists (fs (Copy (tempPath job) (chunks body) st2) :: new1 ++ [fs st])%list.
  split; [simpl; by rewrite Hh3|].
  constructor; [|by constructor].
  intros q H1 H2. simpl. rewrite Rename_other by done. by apply Hframe3.
Qed.

(** What one iteration that does not commit leaves in the staging file. *)
Lemma iter_staged (w : attempt_world) (job : DownloadJob.t) (st st' : state)
    (ir : iter_result) :
  downloadBlob_iter w job st = (st', ir) ->
  ir <> Return None ->
  (is_Some (fs st !! tempPath job) -> is_Some (fs st' !! tempPath job)) /\
  (staged job (fs st') = staged job (fs st) \/
   exists code body,
     client_Do w (sent job st) = DoResp code body /\
     (code = StatusOK \/ code = StatusPartialContent) /\
     staged job (fs st') = (staged job (fs st) ++ concat (chunks body))%list).
Proof.
  unfold downloadBlob_iter.
  destruct (MkdirAll_err w); [intros [= <- <-]; eauto|].
  destruct (OpenFile_err w); [intros [= <- <-]; eauto|].
  simpl fs. rewrite Seek_end_OpenFile_append.
  fold (staged job (fs st)). fold (sent job st). fold (opened job st).
  assert (Hop : (is_Some (fs st !! tempPath job) ->
                 is_Some (fs (opened job st) !! tempPath job)) /\
                (staged job (fs (opened job st)) = staged job (fs st) \/
                 exists code body,
                   client_Do w (sent job st) = DoResp code body /\
                   (code = StatusOK \/ code = StatusPartialContent) /\
                   staged job (fs (opened job st))
                   = (staged job (fs st) ++ concat (chunks body))%list)).
  { split; [rewrite opened_staging; eauto|]. left.
    unfold staged at 1. by rewrite (content_lookup _ _ _ (opened_staging job st)). }
  destruct (NewRequest_err w); [by intros [= <- <-]|].
  destruct (client_Do w (sent job st)) as [e|code body] eqn:Hdo;
    [by intros [= <- <-]|].
  destruct (_ && _)%bool eqn:Hcode; [by intros [= <- <-]|].
  assert (Hok : code = StatusOK \/ code = StatusPartialContent).
  { destruct (Z.eqb_spec code StatusOK); [by left|].
    destruct (Z.eqb_spec code StatusPartialContent); [by right | done]. }
  assert (Hcp : forall s3,
             s3 = Copy (tempPath job) (chunks body)
                    (log_request (opened job st) (sent job st)) ->
             (is_Some (fs st !! tempPath job) -> is_Some (fs s3 !! tempPath job)) /\
             (staged job (fs s3) = staged job (fs st) \/
              exists code0 body0,
                DoResp code body = DoResp code0 body0 /\
                (code0 = StatusOK \/ code0 = StatusPartialContent) /\
                staged job (fs s3)
                = (staged job (fs st) ++ concat (chunks body0))%list)).
  { intros s3 ->. split; [rewrite copied_staging; eauto|]. right.
    exists code, body. split; [done|]. split; [done|].
    unfold staged at 1. by rewrite (content_lookup _ _ _ (copied_staging _ _ _)). }
  destruct (copy_err body); [intros [= <- <-] _; by apply Hcp|].
  destruct (Rename_err w); [intros [= <- <-] _; by apply Hcp|].
  by intros [= <- <-].
Qed.

Lemma loop_frame (world : Z -> attempt_world) (job : DownloadJob.t) :
  forall (fuel : nat) (attempt : Z) (st st' : state) (r : option error),
    downloadBlob_loop fuel world job attempt st = Some (st', r) ->
    exists new,
      hist st' = (new ++ hist st)%list /\
      Forall (fun m : gmap string (list byte) =>
                forall q, q <> tempPath job -> q <> DownloadJob.DestPath job ->
                          m !! q = fs st !! q)
             (fs st' :: new).
Proof.
  induction fuel as [|fuel IH]; intros attempt st st' r; [done|].
  destruct (Z.leb_spec attempt numRetries) as [Hle|Hgt].
  - rewrite loop_unfold by done.
    destruct (iter_frame (world attempt) job st) as (new1 & Hh1 & Hall1).
    destruct (downloadBlob_iter (world attempt) job st) as [st1 [|e]]; simpl in *.
    + intros Hl. destruct (IH _ _ _ _ Hl) as (new2 & Hh2 & Hall2).
      exists (new2 ++ new1)%list. split; [by rewrite Hh2, Hh1, app_assoc|].
      apply Forall_cons_1 in Hall1 as [H1 Hall1].
      rewrite app_comm_cons. apply Forall_app. split; [|done].
      eapply Forall_impl; [exact Hall2|]. intros m Hm q Hq1 Hq2.
      rewrite Hm by done. by apply H1.
    + intros [= <- <-]. by exists new1.
  - rewrite loop_exhausted by done. intros [= <- <-].
    exists []. split; [done|]. by repeat constructor.
Qed.

(** X4: a call of [downloadBlob] creates, changes and removes no regular
    file other than its destination file and its staging file: in every
    file system state it goes through, and in the one it returns in,
    the regular file at any other path is there with the content it had
    at the call, or absent as it was.  (The directories that
    [os.MkdirAll] may create are no regular files and are not part of
    this statement.) *)
Theorem downloadBlob_changes_two_files_only (world : Z -> attempt_world)
    (job : DownloadJob.t) (st : state) :
  exists st' r new,
    downloadBlob world job st = Some (st', r) /\
    hist st' = (new ++ hist st)%list /\
    Forall (fun m : gmap string (list byte) =>
              forall q, q <> DownloadJob.DestPath job +:+ ".tmp" ->
                        q <> DownloadJob.DestPath job ->
                        m !! q = fs st !! q)
           (fs st' :: new).
Proof.
  destruct (downloadBlob_total world job st) as [[st' r] Hdl].
  unfold downloadBlob in Hdl.
  destruct (downloadBlob_loop _ world job 1 st) as [[st1 r1]|] eqn:Hl; [|done].
  injection Hdl as <- <-.
  destruct (loop_frame _ _ _ _ _ _ _ Hl) as (new & Hh & Hall).
  exists (wg_Done st1), r1, new.
  split; [unfold downloadBlob; by rewrite Hl|]. done.
Qed.

Lemma loop_requests (world : Z -> attempt_world) (job : DownloadJob.t) :
  forall (fuel : nat) (attempt : Z) (st st' : state) (r : option error),
    downloadBlob_loop fuel world job attempt st = Some (st', r) ->
    wg st' = wg st /\
    exists reqs,
      net st' = (net st ++ reqs)%list /\
      (length reqs <= Z.to_nat (numRetries + 1 - attempt))%nat /\
      Forall (fun rq => exists off, (0 <= off)%Z /\ rq = rangeRequest job off) reqs.
Proof.
  induction fuel as [|fuel IH]; intros attempt st st' r; [done|].
  destruct (Z.leb_spec attempt numRetries) as [Hle|Hgt].
  - rewrite loop_unfold by done.
    pose proof (wg_iter (world attempt) job st) as Hwg.
    pose proof (iter_net (world attempt) job st) as Hnet.
    assert (Hone : exists reqs1,
               net (downloadBlob_iter (world attempt) job st).1
               = (net st ++ reqs1)%list /\
               (length reqs1 <= 1)%nat /\
               Forall (fun rq => exists off, (0 <= off)%Z /\ rq = rangeRequest job off)
                      reqs1).
    { destruct Hnet as [-> | ->].
      - exists []. rewrite app_nil_r. split; [done|]. split; [simpl; lia | constructor].
      - exists [sent job st]. split; [done|]. split; [simpl; lia|].
        constructor; [|constructor]. eexists. split; [|reflexivity]. lia. }
    destruct Hone as (reqs1 & Hn1 & Hlen1 & Hall1).
    destruct (downloadBlob_iter (world attempt) job st) as [st1 [|e]]; simpl in *.
    + intros Hl. destruct (IH _ _ _ _ Hl) as (Hwg2 & reqs2 & Hn2 & Hlen2 & Hall2).
      split; [congruence|].
      exists (reqs1 ++ reqs2)%list. split; [by rewrite Hn2, Hn1, app_assoc|].
      split; [rewrite length_app; lia | by apply Forall_app].
    + intros [= <- <-]. split; [done|]. exists reqs1. split; [done|].
      split; [lia | done].
  - rewrite loop_exhausted by done. intros [= <- <-]. split; [done|].
    exists []. rewrite app_nil_r. split; [done|]. split; [simpl; lia | constructor].
Qed.

(** X5: whatever happens, a call of [downloadBlob] returns, takes one off
    the wait group (the deferred [wg.Done()] runs once on every path) and
    has sent at most ten requests, one per attempt, each a GET of the
    job's blob URL that carries no header or the one [Range] header. *)
Theorem downloadBlob_requests (world : Z -> attempt_world)
    (job : DownloadJob.t) (st : state) :
  exists st' r reqs,
    downloadBlob world job st = Some (st', r) /\
    wg st' = (wg st - 1)%Z /\
    net st' = (net st ++ reqs)%list /\
    (length reqs <= 10)%nat /\
    Forall (fun rq =>
              Method rq = "GET" /\ URL rq = DownloadJob.BlobURL job /\
              (Header rq = ∅ \/
               exists off, (0 < off)%Z /\
                 Header rq
                 = {["Range" := "bytes=" +:+ NilZero.string_of_int (Z.to_int off)
                                 +:+ "-"]}))
           reqs.
Proof.
  destruct (downloadBlob_total world job st) as [[st' r] Hdl].
  unfold downloadBlob in Hdl.
  destruct (downloadBlob_loop _ world job 1 st) as [[st1 r1]|] eqn:Hl; [|done].
  injection Hdl as <- <-.
  destruct (loop_requests _ _ _ _ _ _ _ Hl) as (Hwg & reqs & Hn & Hlen & Hall).
  exists (wg_Done st1), r1, reqs.
  split; [unfold downloadBlob; by rewrite Hl|].
  split; [simpl; lia|]. split; [done|].
  split; [unfold numRetries in Hlen; lia|].
  eapply Forall_impl; [exact Hall|]. intros rq (off & Hoff & ->).
  destruct (Z.eq_dec off 0) as [->|Hne].
  - rewrite rangeRequest_zero. simpl. eauto.
  - rewrite rangeRequest_pos by lia. simpl. split; [done|]. split; [done|].
    right. exists off. split; [lia | done].
Qed.

Lemma loop_staged (world : Z -> attempt_world) (job : DownloadJob.t) :
  forall (fuel : nat) (attempt : Z) (st st' : state) (e : error),
    downloadBlob_loop fuel world job attempt st = Some (st', Some e) ->
    staged job (fs st) `prefix_of` staged job (fs st') /\
    (is_Some (fs st !! tempPath job) -> is_Some (fs st' !! tempPath job)).
Proof.
  induction fuel as [|fuel IH]; intros attempt st st' e; [done|].
  destruct (Z.leb_spec attempt numRetries) as [Hle|Hgt].
  - rewrite loop_unfold by done.
    destruct (downloadBlob_iter (world attempt) job st) as [st1 ir] eqn:Hit.
    assert (Hstep : ir <> Return None ->
              staged job (fs st) `prefix_of` staged job (fs st1) /\
              (is_Some (fs st !! tempPath job) -> is_Some (fs st1 !! tempPath job))).
    { intros Hir. destruct (iter_staged _ _ _ _ _ Hit Hir) as [Hex Hst].
      split; [|done].
      destruct Hst as [-> | (code & body & _ & _ & ->)]; [done|].
      by apply prefix_app_r. }
    destruct ir as [|[e1|]].
    + intros Hl. destruct (IH _ _ _ _ Hl) as [Hp Hex].
      destruct Hstep as [Hp1 Hex1]; [done|].
      split; [by etrans | auto].
    + intros [= <- <-]. by apply Hstep.
    + done.
  - rewrite loop_exhausted by done. by intros [= <- <-].
Qed.

(** X6: a call of [downloadBlob] that returns an error never removes or
    shortens the staging file: a staging file that existed still exists,
    and what it held is a prefix of what it holds, so the bytes fetched so
    far stay available to a later call. *)
Theorem failure_keeps_staging_file (world : Z -> attempt_world)
    (job : DownloadJob.t) (st st' : state) (e : error) :
  downloadBlob world job st = Some (st', Some e) ->
  staged job (fs st) `prefix_of` staged job (fs st') /\
  (is_Some (fs st !! tempPath job) -> is_Some (fs st' !! tempPath job)).
Proof.
  unfold downloadBlob.
  destruct (downloadBlob_loop _ world job 1 st) as [[st1 r1]|] eqn:Hl; [|done].
  intros [= <- ->]. change (fs (wg_Done st1)) with (fs st1).
  eapply loop_staged. exact Hl.
Qed.

Lemma failure_keeps_staging_file_witness :
  let st := mkState {["dst/params-aaaaaaaaaaaa.json.tmp" := [x01; x02]]} [] [] 1 in
  exists st',
    downloadBlob (fun _ => serve 503 [] None) demo_job st
    = Some (st', Some (errorString "unexpected status code: 503")) /\
    [x01; x02] `prefix_of` staged demo_job (fs st').
Proof.
  intros st. eexists. split; [vm_compute; reflexivity|].
  apply (failure_keeps_staging_file (fun _ => serve 503 [] None) demo_job st _
           (errorString "unexpected status code: 503")).
  vm_compute. reflexivity.
Defined.

Lemma loop_resume (world : Z -> attempt_world) (job : DownloadJob.t)
    (source : list byte) :
  serves world job source ->
  forall (fuel : nat) (attempt : Z) (st st' : state) (r : option error),
    staged job (fs st) `prefix_of` source ->
    downloadBlob_loop fuel world job attempt st = Some (st', r) ->
    match r with
    | None =>
        fs st' !! DownloadJob.DestPath job = Some source /\
        fs st' !! tempPath job = None
    | Some _ => staged job (fs st') `prefix_of` source
    end.
Proof.
  intros Hsrv. induction fuel as [|fuel IH]; intros attempt st st' r Hpre; [done|].
  destruct (Z.leb_spec attempt numRetries) as [Hle|Hgt].
  - rewrite loop_unfold by done.
    destruct (downloadBlob_iter (world attempt) job st) as [st1 ir] eqn:Hit.
    pose proof (prefix_length _ _ Hpre) as Hlen.
    destruct Hpre as [rest Hsrc].
    assert (Hdrop : drop (Z.to_nat (Z.of_nat (length (staged job (fs st))))) source
                    = rest).
    { rewrite Nat2Z.id, Hsrc. apply drop_app_length. }
    assert (Hdo : forall code body,
               client_Do (world attempt) (sent job st) = DoResp code body ->
               code = StatusOK \/ code = StatusPartialContent ->
               concat (chunks body) `prefix_of` rest /\
               (copy_err body = None -> concat (chunks body) = rest)).
    { intros code body Hd Hc. rewrite <- Hdrop.
      apply (Hsrv attempt _ code body); [lia | exact Hd | exact Hc]. }
    assert (Hstep : ir <> Return None -> staged job (fs st1) `prefix_of` source).
    { intros Hir. destruct (iter_staged _ _ _ _ _ Hit Hir) as [_ Hst].
      destruct Hst as [-> | (code & body & Hd & Hc & ->)].
      - by exists rest.
      - rewrite Hsrc. apply prefix_app. by apply (Hdo code body). }
    destruct ir as [|[e1|]].
    + intros Hl. apply (IH _ _ _ _ (Hstep ltac:(done)) Hl).
    + intros [= <- <-]. by apply Hstep.
    + intros [= <- <-].
      destruct (iter_trail _ _ _ _ _ Hit) as (new & _ & _ & Hcm).
      destruct Hcm as (code & body & m & new' & Hd & Hc & He & _ & _ & _ & Hdst & Htmp).
      split; [|exact Htmp].
      rewrite Hdst, Hsrc. destruct (Hdo code body Hd Hc) as [_ Hall].
      by rewrite (Hall He).
  - rewrite loop_exhausted by done. by intros [= <- <-].
Qed.

(** X7: resuming is sound against a server that honours range requests.
    If the staging file holds a prefix of the blob and every 200/206
    response to the request for offset [off] delivers bytes of the blob
    from [off] on (all of them when the copy ends without error), then a
    call that returns nil leaves exactly the blob at the destination and
    no staging file, and a call that returns an error leaves a staging
    file that still holds a prefix of the blob. *)
Theorem resume_gives_source (world : Z -> attempt_world) (job : DownloadJob.t)
    (source : list byte) (st : state) :
  staged job (fs st) `prefix_of` source ->
  serves world job source ->
  exists st' r,
    downloadBlob world job st = Some (st', r) /\
    match r with
    | None =>
        fs st' !! DownloadJob.DestPath job = Some source /\
        fs st' !! tempPath job = None
    | Some _ => staged job (fs st') `prefix_of` source
    end.
Proof.
  intros Hpre Hsrv.
  destruct (downloadBlob_total world job st) as [[st' r] Hdl].
  unfold downloadBlob in Hdl.
  destruct (downloadBlob_loop _ world job 1 st) as [[st1 r1]|] eqn:Hl; [|done].
  injection Hdl as <- <-.
  exists (wg_Done st1), r1.
  split; [unfold downloadBlob; by rewrite Hl|].
  apply (loop_resume world job source Hsrv _ _ _ _ _ Hpre Hl).
Qed.

Lemma resume_gives_source_witness :
  exists st',
    downloadBlob (fun _ => flaky_server) demo_job (mkState ∅ [] [] 1)
    = Some (st', None) /\
    length (net st') = 2%nat /\
    fs st' !! DownloadJob.DestPath demo_job = Some five.
Proof.
  destruct (resume_gives_source (fun _ => flaky_server) demo_job five
              (mkState ∅ [] [] 1)) as (st' & r & Hdl & Hr).
  - by exists five.
  - intros a off code body Hoff Hdo _. simpl in Hoff.
    assert (Hcases : (off = 0 \/ off = 1 \/ off = 2 \/ off = 3 \/ off = 4 \/ off = 5)%Z)
      by lia.
    destruct Hcases as [-> | [-> | [-> | [-> | [-> | ->]]]]]; vm_compute in Hdo;
      try discriminate Hdo; injection Hdo as <- <-.
    + split; [by exists [x03; x04; x05] | discriminate].
    + split; [by exists [] | reflexivity].
  - exists st'. vm_compute in Hdl. injection Hdl as <- <-.
    split; [reflexivity|]. split; [reflexivity|]. apply Hr.
Defined.

(** * Further facts about the resolver *)

Lemma prefix_split (p s : string) :
  String.prefix p s = true -> exists t, s = p +:+ t.
Proof.
  revert s. induction p as [|a p IH]; intros s.
  - intros _. by exists s.
  - destruct s as [|b s]; [done|]. simpl.
    destruct (ascii_dec a b) as [->|]; [|done].
    intros H. destruct (IH _ H) as [t ->]. by exists t.
Qed.

Lemma substring_head (n : nat) (t : string) :
  (n <= String.length t)%nat ->
  exists rest, t = String.substring 0 n t +:+ rest /\
               String.length (String.substring 0 n t) = n.
Proof.
  revert t. induction n as [|n IH]; intros t Hn.
  - exists t. by destruct t.
  - destruct t as [|c t]; simpl in Hn; [lia|].
    destruct (IH t) as (rest & Ht & Hl); [lia|].
    exists rest. simpl. rewrite Hl. split; [|done].
    rewrite append_cons. by rewrite <- Ht.
Qed.

Lemma Sprintf_digest (d : string) :
  Sprintf "unexpected digest: %s" [FStr d] = "unexpected digest: " +:+ d.
Proof.
  change (Sprintf "unexpected digest: %s" [FStr d])
    with ("unexpected digest: " +:+ (d +:+ "")).
  by rewrite append_empty_r.
Qed.

(** X8: [getShortHash] has three outcomes.  It returns a short hash when
    the digest starts with [sha256:] and has at least 19 bytes: the hash
    is then the 12 bytes that follow the colon.  It returns the error
    "unexpected digest: <digest>" when the digest does not start with
    [sha256:].  In the remaining case, the prefix with fewer than 12 bytes
    after it, the slice expression panics. *)
Theorem getShortHash_outcomes (layer : Layer.t) :
  match getShortHash layer with
  | Ok h =>
      String.length h = 12%nat /\
      exists rest, Layer.Digest layer = "sha256:" +:+ h +:+ rest
  | Err e =>
      HasPrefix (Layer.Digest layer) "sha256:" = false /\
      e = errorString ("unexpected digest: " +:+ Layer.Digest layer)
  | Panic =>
      HasPrefix (Layer.Digest layer) "sha256:" = true /\
      (String.length (Layer.Digest layer) < 19)%nat
  end.
Proof.
  unfold getShortHash, slice.
  destruct (HasPrefix (Layer.Digest layer) "sha256:") eqn:Hp; cbn [negb].
  - change (7 <=? 19)%nat with true. cbn [andb].
    destruct (Nat.leb_spec 19 (String.length (Layer.Digest layer))) as [Hle|Hlt];
      [|by split].
    destruct (prefix_split _ _ Hp) as [t Ht]. rewrite Ht in *.
    rewrite append_length in Hle. change (String.length "sha256:") with 7%nat in Hle.
    change (String.substring 7 (19 - 7) ("sha256:" +:+ t))
      with (String.substring 0 12 t).
    destruct (substring_head 12 t) as (rest & Hrest & Hl); [lia|].
    split; [exact Hl|]. exists rest. by rewrite <- Hrest.
  - split; [done|]. by rewrite Sprintf_digest.
Qed.

Lemma getShortHash_sliceable (layer : Layer.t) :
  sliceable layer <-> exists h, getShortHash layer = Ok h.
Proof.
  unfold sliceable, getShortHash, slice.
  destruct (HasPrefix (Layer.Digest layer) "sha256:"); cbn [negb].
  - change (7 <=? 19)%nat with true. cbn [andb].
    destruct (Nat.leb_spec 19 (String.length (Layer.Digest layer))) as [Hle|Hlt].
    + split; eauto.
    + split; [intros [_ H]; lia | by intros [h H]].
  - split; [by intros [H _] | by intros [h H]].
Qed.

Lemma Sprintf_blobURL (registry name digest : string) :
  Sprintf "%s/v2/%s/blobs/%s" [FStr registry; FStr name; FStr digest]
  = registry +:+ "/v2/" +:+ name +:+ "/blobs/" +:+ digest.
Proof.
  change (Sprintf "%s/v2/%s/blobs/%s" [FStr registry; FStr name; FStr digest])
    with (registry +:+ "/v2/" +:+ name +:+ "/blobs/" +:+ (digest +:+ "")).
  by rewrite append_empty_r.
Qed.

(** The loop body, by cases on the layer. *)
Lemma layerJob_cases (filepath_Join : string -> string -> string)
    (registry destDir name : string) (layer : Layer.t) :
  match layerJob filepath_Join registry destDir name layer with
  | None => ~ recognized layer
  | Some (Ok job) =>
      recognized layer /\ sliceable layer /\ DownloadJob.Layer job = layer
  | Some (Err _) => recognized layer /\ ~ sliceable layer
  | Some Panic => recognized layer /\ ~ sliceable layer
  end.
Proof.
  unfold layerJob, recognized.
  destruct (mediaTypeToFileTemplate !! Layer.MediaType layer) as [t|];
    [|by intros [x Hx]].
  pose proof (getShortHash_sliceable layer) as Hs.
  destruct (getShortHash layer) as [h|e|].
  - split; [eauto|]. split; [apply Hs; eauto | done].
  - split; [eauto|]. intros H. apply Hs in H as [h H]. done.
  - split; [eauto|]. intros H. apply Hs in H as [h H]. done.
Qed.

Lemma rangeLayers_filter (filepath_Join : string -> string -> string)
    (registry destDir name : string) (layers : list Layer.t) :
  forall jobs res : list DownloadJob.t,
    rangeLayers filepath_Join registry destDir name layers jobs = Ok res ->
    DownloadJob.Layer <$> res
    = ((DownloadJob.Layer <$> jobs) ++ filter recognized layers)%list.
Proof.
  induction layers as [|layer layers IH]; intros jobs res; simpl.
  - intros [= <-]. by rewrite app_nil_r.
  - pose proof (layerJob_cases filepath_Join registry destDir name layer) as Hc.
    destruct (layerJob filepath_Join registry destDir name layer)
      as [[job|e|]|]; [|done|done|].
    + destruct Hc as (Hrec & _ & Hl). intros Hr. rewrite (IH _ _ Hr).
      rewrite filter_cons_True by done.
      rewrite fmap_app. simpl. rewrite Hl. by rewrite <- app_assoc.
    + intros Hr. rewrite (IH _ _ Hr). by rewrite filter_cons_False.
Qed.

Lemma getDownloadJobs_Ok_inv (filepath_Join : string -> string -> string)
    (client_Get : string -> get_result) (registry destDir name version : string)
    (jobs : list DownloadJob.t) :
  getDownloadJobs filepath_Join client_Get registry destDir name version = Ok jobs ->
  exists manifest,
    client_Get (Sprintf "%s/v2/%s/manifests/%s" [FStr registry; FStr name; FStr version])
    = GetResp StatusOK (inr manifest) /\
    Manifest.MediaType manifest = manifestV2 /\
    rangeLayers filepath_Join registry destDir name (Manifest.Layers manifest) []
    = Ok jobs.
Proof.
  unfold getDownloadJobs.
  destruct (client_Get _) as [e|code [e|manifest]]; [done| |].
  - by destruct (negb _).
  - destruct (Z.eqb_spec code StatusOK) as [->|]; [|done]. simpl.
    destruct (String.eqb_spec (Manifest.MediaType manifest) manifestV2); [|done].
    simpl. eauto.
Qed.

(** X9: the jobs [getDownloadJobs] returns are the manifest's layers of a
    recognized media type, one job per such layer, in the order of the
    manifest; a layer listed twice gives two jobs. *)
Theorem getDownloadJobs_layers_in_order (filepath_Join : string -> string -> string)
    (client_Get : string -> get_result) (registry destDir name version : string)
    (jobs : list DownloadJob.t) :
  getDownloadJobs filepath_Join client_Get registry destDir name version = Ok jobs ->
  exists manifest,
    client_Get (Sprintf "%s/v2/%s/manifests/%s" [FStr registry; FStr name; FStr version])
    = GetResp StatusOK (inr manifest) /\
    DownloadJob.Layer <$> jobs = filter recognized (Manifest.Layers manifest).
Proof.
  intros Hok.
  destruct (getDownloadJobs_Ok_inv _ _ _ _ _ _ _ Hok) as (manifest & Hget & _ & Hr).
  exists manifest. split; [exact Hget|].
  by rewrite (rangeLayers_filter _ _ _ _ _ _ _ Hr).
Qed.

Lemma getDownloadJobs_layers_in_order_witness :
  let other := Layer.mk "application/vnd.docker.container.image.v1+json"
                 "sha256:0000000000000000" 10 in
  exists jobs,
    getDownloadJobs join_slash (serve_manifest [demo_layer; other; demo_layer])
      "https://registry.ollama.ai/" "dst" "library/demo" "latest" = Ok jobs /\
    DownloadJob.Layer <$> jobs = [demo_layer; demo_layer].
Proof.
  intros other. eexists. split; [vm_compute; reflexivity|].
  destruct (getDownloadJobs_layers_in_order join_slash
              (serve_manifest [demo_layer; other; demo_layer])
              "https://registry.ollama.ai/" "dst" "library/demo" "latest" _
              ltac:(vm_compute; reflexivity)) as (manifest & Hget & Hl).
  injection Hget as <-. rewrite Hl. vm_compute. reflexivity.
Defined.

Lemma rangeLayers_Forall (filepath_Join : string -> string -> string)
    (registry destDir name : string) (P : DownloadJob.t -> Prop) :
  (forall layer job,
      layerJob filepath_Join registry destDir name layer = Some (Ok job) -> P job) ->
  forall (layers : list Layer.t) (jobs res : list DownloadJob.t),
    Forall P jobs ->
    rangeLayers filepath_Join registry destDir name layers jobs = Ok res ->
    Forall P res.
Proof.
  intros HP. induction layers as [|layer layers IH]; intros jobs res Hjobs; simpl.
  - by intros [= <-].
  - destruct (layerJob filepath_Join registry destDir name layer)
      as [[job|e|]|] eqn:Hj; [|done|done|].
    + apply IH. apply Forall_app. split; [done|]. constructor; [|constructor].
      by eapply HP.
    + by apply IH.
Qed.

(** X10: every job [getDownloadJobs] returns fetches the blob of its own
    layer: the layer's digest starts with [sha256:] and has at least 19
    bytes, the blob URL is [<registry>/v2/<name>/blobs/<digest>] for that
    digest, and the expected size is the layer's size. *)
Theorem getDownloadJobs_job_fields (filepath_Join : string -> string -> string)
    (client_Get : string -> get_result) (registry destDir name version : string)
    (jobs : list DownloadJob.t) :
  getDownloadJobs filepath_Join client_Get registry destDir name version = Ok jobs ->
  Forall (fun job =>
            sliceable (DownloadJob.Layer job) /\
            DownloadJob.BlobURL job
            = registry +:+ "/v2/" +:+ name +:+ "/blobs/"
              +:+ Layer.Digest (DownloadJob.Layer job) /\
            DownloadJob.Size job = Layer.Size (DownloadJob.Layer job))
         jobs.
Proof.
  intros Hok.
  destruct (getDownloadJobs_Ok_inv _ _ _ _ _ _ _ Hok) as (manifest & _ & _ & Hr).
  eapply rangeLayers_Forall; [|constructor|exact Hr].
  intros layer job Hj.
  pose proof (layerJob_cases filepath_Join registry destDir name layer) as Hc.
  rewrite Hj in Hc. destruct Hc as (_ & Hs & Hl).
  unfold layerJob in Hj.
  destruct (mediaTypeToFileTemplate !! Layer.MediaType layer) as [t|]; [|done].
  destruct (getShortHash layer) as [h|e|]; [|done|done].
  injection Hj as <-. simpl. split; [done|]. split; [|done].
  apply Sprintf_blobURL.
Qed.

Lemma getDownloadJobs_job_fields_witness :
  exists job,
    getDownloadJobs join_slash (serve_manifest [demo_layer])
      "https://registry.ollama.ai/" "dst" "library/demo" "latest" = Ok [job] /\
    DownloadJob.BlobURL job
    = "https://registry.ollama.ai//v2/library/demo/blobs/sha256:aaaaaaaaaaaaaaaaaaaaaaaaaaaaaaaaaaaaaaaaaaaaaaaaaaaaaaaaaaaa1234" /\
    DownloadJob.Size job = 96%Z.
Proof.
  eexists. split; [vm_compute; reflexivity|].
  pose proof (getDownloadJobs_job_fields join_slash (serve_manifest [demo_layer])
                "https://registry.ollama.ai/" "dst" "library/demo" "latest" _
                ltac:(vm_compute; reflexivity)) as Hall.
  apply Forall_cons_1 in Hall as [(_ & Hurl & Hsize) _].
  split; [exact Hurl | exact Hsize].
Defined.

Lemma rangeLayers_Ok_iff (filepath_Join : string -> string -> string)
    (registry destDir name : string) (layers : list Layer.t) :
  forall jobs : list DownloadJob.t,
    (exists res, rangeLayers filepath_Join registry destDir name layers jobs = Ok res)
    <-> Forall (fun l => recognized l -> sliceable l) layers.
Proof.
  induction layers as [|layer layers IH]; intros jobs; simpl.
  - split; [constructor | eauto].
  - pose proof (layerJob_cases filepath_Join registry destDir name layer) as Hc.
    destruct (layerJob filepath_Join registry destDir name layer) as [[job|e|]|].
    + destruct Hc as (_ & Hs & _). rewrite IH. split.
      * intros H. by constructor.
      * by intros [_ H]%Forall_cons_1.
    + destruct Hc as [Hr Hns]. split; [by intros [res H]|].
      intros [H _]%Forall_cons_1. by destruct Hns; apply H.
    + destruct Hc as [Hr Hns]. split; [by intros [res H]|].
      intros [H _]%Forall_cons_1. by destruct Hns; apply H.
    + rewrite IH. split.
      * intros H. constructor; [by intros Hr | done].
      * by intros [_ H]%Forall_cons_1.
Qed.

(** With the manifest fetched and of the expected media type, what is
    left of [getDownloadJobs] is its loop over the layers. *)
Lemma getDownloadJobs_fetched (filepath_Join : string -> string -> string)
    (client_Get : string -> get_result) (registry destDir name version : string)
    (manifest : Manifest.t) :
  client_Get (Sprintf "%s/v2/%s/manifests/%s" [FStr registry; FStr name; FStr version])
  = GetResp StatusOK (inr manifest) ->
  Manifest.MediaType manifest = manifestV2 ->
  getDownloadJobs filepath_Join client_Get registry destDir name version
  = rangeLayers filepath_Join registry destDir name (Manifest.Layers manifest) [].
Proof.
  intros Hget Hmt. unfold getDownloadJobs.
  destruct (client_Get _) as [e|code decoded]; [discriminate Hget|].
  injection Hget as -> ->.
  destruct (String.eqb_spec (Manifest.MediaType manifest) manifestV2) as [_|Hne];
    [reflexivity | done].
Qed.

(** X11: once the manifest is fetched (status 200, decoded, of the
    expected media type), [getDownloadJobs] returns jobs if and only if
    every layer of a recognized media type has a digest that starts with
    [sha256:] and has at least 19 bytes; layers of other media types do
    not matter, whatever their digest. *)
Theorem getDownloadJobs_Ok_iff (filepath_Join : string -> string -> string)
    (client_Get : string -> get_result) (registry destDir name version : string)
    (manifest : Manifest.t) :
  client_Get (Sprintf "%s/v2/%s/manifests/%s" [FStr registry; FStr name; FStr version])
  = GetResp StatusOK (inr manifest) ->
  Manifest.MediaType manifest = manifestV2 ->
  (exists jobs,
      getDownloadJobs filepath_Join client_Get registry destDir name version = Ok jobs)
  <-> Forall (fun l => recognized l -> sliceable l) (Manifest.Layers manifest).
Proof.
  intros Hget Hmt. rewrite (getDownloadJobs_fetched _ _ _ _ _ _ _ Hget Hmt).
  apply rangeLayers_Ok_iff.
Qed.

Lemma getDownloadJobs_Ok_iff_witness :
  let junk := Layer.mk "application/vnd.docker.container.image.v1+json" "junk" 10 in
  exists jobs,
    getDownloadJobs join_slash (serve_manifest [junk; demo_layer])
      "https://registry.ollama.ai/" "dst" "library/demo" "latest" = Ok jobs.
Proof.
  intros junk.
  apply (getDownloadJobs_Ok_iff join_slash (serve_manifest [junk; demo_layer])
           "https://registry.ollama.ai/" "dst" "library/demo" "latest"
           (Manifest.mk manifestV2 [junk; demo_layer])).
  - reflexivity.
  - reflexivity.
  - simpl. constructor; [|constructor; [|constructor]].
    + intros [t Ht]. vm_compute in Ht. discriminate Ht.
    + intros _. split; [reflexivity | vm_compute; lia].
Defined.

(** The destination of the job made for a layer. *)
Lemma layerJob_destination (filepath_Join : string -> string -> string)
    (registry destDir name : string) (layer : Layer.t) (job : DownloadJob.t) :
  layerJob filepath_Join registry destDir name layer = Some (Ok job) ->
  exists pre post hash rest,
    mediaTypeToFileTemplate !! Layer.MediaType (DownloadJob.Layer job)
    = Some (pre +:+ "%s" +:+ post) /\
    Layer.Digest (DownloadJob.Layer job) = "sha256:" +:+ hash +:+ rest /\
    String.length hash = 12%nat /\
    DownloadJob.DestPath job = filepath_Join destDir (pre +:+ hash +:+ post) /\
    tempPath job = filepath_Join destDir (pre +:+ hash +:+ post) +:+ ".tmp".
Proof.
  intros Hj.
  pose proof (layerJob_cases filepath_Join registry destDir name layer) as Hc.
  rewrite Hj in Hc. destruct Hc as (_ & [Hp Hlen] & Hl).
  destruct (prefix_split _ _ Hp) as [hex Hhex].
  assert (H12 : (12 <= String.length hex)%nat).
  { rewrite Hhex, append_length in Hlen.
    change (String.length "sha256:") with 7%nat in Hlen. lia. }
  destruct (substring_head 12 hex H12) as (rest & Hrest & Hl12).
  unfold layerJob in Hj.
  destruct (mediaTypeToFileTemplate !! Layer.MediaType layer) as [t|] eqn:Ht; [|done].
  rewrite (getShortHash_sha256 _ _ Hhex H12) in Hj. injection Hj as <-.
  unfold tempPath. cbn [DownloadJob.Layer DownloadJob.DestPath].
  destruct (template_cases _ _ Ht) as
    [[_ ->]|[[_ ->]|[[_ ->]|[[_ ->]|[_ ->]]]]].
  - exists "license-", ".txt", (String.substring 0 12 hex), rest.
    split; [exact Ht|]. split; [by rewrite Hhex, <- Hrest|]. by repeat split.
  - exists "model-", ".gguf", (String.substring 0 12 hex), rest.
    split; [exact Ht|]. split; [by rewrite Hhex, <- Hrest|]. by repeat split.
  - exists "params-", ".json", (String.substring 0 12 hex), rest.
    split; [exact Ht|]. split; [by rewrite Hhex, <- Hrest|]. by repeat split.
  - exists "system-", ".txt", (String.substring 0 12 hex), rest.
    split; [exact Ht|]. split; [by rewrite Hhex, <- Hrest|]. by repeat split.
  - exists "template-", ".txt", (String.substring 0 12 hex), rest.
    split; [exact Ht|]. split; [by rewrite Hhex, <- Hrest|]. by repeat split.
Qed.

(** X20: when every layer of a recognized kind has a digest that starts
    with [sha256:] and has at least 19 bytes, [getDownloadJobs] returns
    one job per such layer, in order, and the destination of each job is
    [filepath.Join(destDir, filename)], the file name being the template
    of the layer's kind with [%s] replaced by the twelve bytes that
    follow [sha256:] in the layer's digest; the staging path of the job
    is that path followed by [.tmp]. *)
Theorem getDownloadJobs_destination_names
    (filepath_Join : string -> string -> string)
    (client_Get : string -> get_result) (registry destDir name version : string)
    (manifest : Manifest.t) :
  client_Get (Sprintf "%s/v2/%s/manifests/%s" [FStr registry; FStr name; FStr version])
  = GetResp StatusOK (inr manifest) ->
  Manifest.MediaType manifest = manifestV2 ->
  Forall (fun l => recognized l -> sliceable l) (Manifest.Layers manifest) ->
  exists jobs,
    getDownloadJobs filepath_Join client_Get registry destDir name version = Ok jobs /\
    DownloadJob.Layer <$> jobs = filter recognized (Manifest.Layers manifest) /\
    Forall (fun job =>
              exists pre post hash rest,
                mediaTypeToFileTemplate !! Layer.MediaType (DownloadJob.Layer job)
                = Some (pre +:+ "%s" +:+ post) /\
                Layer.Digest (DownloadJob.Layer job) = "sha256:" +:+ hash +:+ rest /\
                String.length hash = 12%nat /\
                DownloadJob.DestPath job
                = filepath_Join destDir (pre +:+ hash +:+ post) /\
                tempPath job
                = filepath_Join destDir (pre +:+ hash +:+ post) +:+ ".tmp")
           jobs.
Proof.
  intros Hget Hmt Hall.
  destruct (proj2 (rangeLayers_Ok_iff filepath_Join registry destDir name
                     (Manifest.Layers manifest) []) Hall) as [jobs Hr].
  exists jobs. split; [|split].
  - by rewrite (getDownloadJobs_fetched _ _ _ _ _ _ _ Hget Hmt).
  - by rewrite (rangeLayers_filter _ _ _ _ _ _ _ Hr).
  - eapply rangeLayers_Forall; [|constructor|exact Hr].
    intros layer job. apply layerJob_destination.
Qed.

Lemma getDownloadJobs_destination_names_witness :
  exists job,
    getDownloadJobs join_slash (serve_manifest [demo_layer])
      "https://registry.ollama.ai/" "dst" "library/demo" "latest" = Ok [job] /\
    DownloadJob.DestPath job = "dst/params-aaaaaaaaaaaa.json" /\
    tempPath job = "dst/params-aaaaaaaaaaaa.json.tmp".
Proof.
  destruct (getDownloadJobs_destination_names join_slash (serve_manifest [demo_layer])
              "https://registry.ollama.ai/" "dst" "library/demo" "latest"
              (Manifest.mk manifestV2 [demo_layer]))
    as (jobs & Hok & _ & _).
  - reflexivity.
  - reflexivity.
  - constructor; [|constructor]. intros _. split; [reflexivity | vm_compute; lia].
  - vm_compute in Hok. injection Hok as <-.
    eexists. split; [vm_compute; reflexivity|]. split; reflexivity.
Defined.

Lemma rangeLayers_Panic_iff (filepath_Join : string -> string -> string)
    (registry destDir name : string) (layers : list Layer.t) :
  forall jobs : list DownloadJob.t,
    rangeLayers filepath_Join registry destDir name layers jobs = Panic
    <-> exists before layer after,
          layers = (before ++ layer :: after)%list /\
          Forall (fun l => recognized l -> sliceable l) before /\
          recognized layer /\ getShortHash layer = Panic.
Proof.
  induction layers as [|layer layers IH]; intros jobs.
  - split; [done|]. intros (before & l & after & H & _). by destruct before.
  - simpl.
    pose proof (layerJob_cases filepath_Join registry destDir name layer) as Hc.
    destruct (layerJob filepath_Join registry destDir name layer)
      as [[job|e|]|] eqn:Hj.
    + destruct Hc as (Hr & Hs & _). rewrite IH. split.
      * intros (before & l & after & -> & Hb & Hl).
        exists (layer :: before), l, after. split; [done|]. split; [|done].
        by constructor.
      * intros (before & l & after & Heq & Hb & Hrl & Hp).
        destruct before as [|b before]; simplify_eq/=.
        -- apply getShortHash_sliceable in Hs as [h Hh]. congruence.
        -- apply Forall_cons_1 in Hb as [_ Hb]. eauto 10.
    + split; [done|]. intros (before & l & after & Heq & Hb & Hrl & Hp).
      destruct Hc as [Hr Hns].
      destruct before as [|b before]; simplify_eq/=.
      * unfold layerJob in Hj. destruct Hrl as [t Ht]. rewrite Ht, Hp in Hj. done.
      * apply Forall_cons_1 in Hb as [Hb _]. by destruct Hns; apply Hb.
    + split; [|done]. intros _. exists [], layer, layers.
      split; [done|]. split; [constructor|]. destruct Hc as [Hr _]. split; [done|].
      unfold layerJob in Hj. destruct Hr as [t Ht]. rewrite Ht in Hj.
      by destruct (getShortHash layer).
    + rewrite IH. split.
      * intros (before & l & after & -> & Hb & Hl).
        exists (layer :: before), l, after. split; [done|]. split; [|done].
        constructor; [by intros Hr | done].
      * intros (before & l & after & Heq & Hb & Hrl & Hp).
        destruct before as [|b before]; simplify_eq/=.
        -- done.
        -- apply Forall_cons_1 in Hb as [_ Hb]. eauto 10.
Qed.

(** X12: [getDownloadJobs] panics, instead of returning, exactly when the
    manifest was fetched (status 200, decoded, of the expected media type)
    and the first layer of a recognized media type whose digest does not
    pass is one whose digest starts with [sha256:] but has fewer than 19
    bytes. *)
Theorem getDownloadJobs_Panic_iff (filepath_Join : string -> string -> string)
    (client_Get : string -> get_result) (registry destDir name version : string) :
  getDownloadJobs filepath_Join client_Get registry destDir name version = Panic
  <-> exists manifest before layer after,
        client_Get (Sprintf "%s/v2/%s/manifests/%s"
                      [FStr registry; FStr name; FStr version])
        = GetResp StatusOK (inr manifest) /\
        Manifest.MediaType manifest = manifestV2 /\
        Manifest.Layers manifest = (before ++ layer :: after)%list /\
        Forall (fun l => recognized l -> sliceable l) before /\
        recognized layer /\
        HasPrefix (Layer.Digest layer) "sha256:" = true /\
        (String.length (Layer.Digest layer) < 19)%nat.
Proof.
  assert (Hpanic : forall layer,
             getShortHash layer = Panic <->
             HasPrefix (Layer.Digest layer) "sha256:" = true /\
             (String.length (Layer.Digest layer) < 19)%nat).
  { intros layer. pose proof (getShortHash_sliceable layer) as Hs.
    unfold sliceable in Hs. unfold getShortHash, slice in *.
    destruct (HasPrefix (Layer.Digest layer) "sha256:"); cbn [negb] in *.
    - change (7 <=? 19)%nat with true in *. cbn [andb] in *.
      destruct (Nat.leb_spec 19 (String.length (Layer.Digest layer))).
      + split; [done | lia].
      + split; [done | done].
    - split; [done | by intros [H _]]. }
  unfold getDownloadJobs. split.
  - destruct (client_Get _) as [e|code [e|manifest]]; [done| |].
    + by destruct (negb _).
    + destruct (Z.eqb_spec code StatusOK) as [->|]; [|done]. cbn [negb].
      destruct (String.eqb_spec (Manifest.MediaType manifest) manifestV2) as [Hmt|];
        [|done].
      cbn [negb]. intros (before & l & after & Hl & Hb & Hr & Hp)%rangeLayers_Panic_iff.
      apply Hpanic in Hp as [Hp1 Hp2].
      exists manifest, before, l, after. done.
  - intros (manifest & before & l & after & -> & Hmt & Hl & Hb & Hr & Hp1 & Hp2).
    change (negb (StatusOK =? StatusOK)%Z) with false. cbn iota.
    rewrite Hmt, String.eqb_refl. cbn [negb].
    apply rangeLayers_Panic_iff. exists before, l, after.
    split; [done|]. split; [done|]. split; [done|]. by apply Hpanic.
Qed.

Lemma append_inv_l (p a b : string) : p +:+ a = p +:+ b -> a = b.
Proof.
  induction p as [|c p IH]; [done|].
  rewrite !append_cons. intros [= H]. by apply IH.
Qed.

Lemma append_inv_same_length (s1 s2 t1 t2 : string) :
  String.length s1 = String.length s2 ->
  s1 +:+ t1 = s2 +:+ t2 -> s1 = s2.
Proof.
  revert s2. induction s1 as [|c s1 IH]; intros [|d s2]; simpl; try done.
  intros [= Hlen]. rewrite !append_cons. intros [= -> H].
  by rewrite (IH _ Hlen H).
Qed.

Lemma append_inv_r (s1 s2 t : string) : s1 +:+ t = s2 +:+ t -> s1 = s2.
Proof.
  intros H. apply (append_inv_same_length s1 s2 t t); [|done].
  apply (f_equal String.length) in H. rewrite !append_length in H. lia.
Qed.

(** X13: the file name tells the kind and the short hash apart: two
    layers of recognized media types get the same file name only when
    their media types are equal and their short hashes are equal.  So
    jobs collide on a destination exactly when kind and the twelve bytes
    [Digest[7:19]] agree, however the rest of the digests differs. *)
Theorem file_name_determines_kind_and_hash
    (mediaType1 mediaType2 template1 template2 hash1 hash2 : string) :
  mediaTypeToFileTemplate !! mediaType1 = Some template1 ->
  mediaTypeToFileTemplate !! mediaType2 = Some template2 ->
  Sprintf template1 [FStr hash1] = Sprintf template2 [FStr hash2] <->
  mediaType1 = mediaType2 /\ hash1 = hash2.
Proof.
  intros H1 H2. split.
  - intros H.
    destruct (template_cases _ _ H1) as
      [[-> ->]|[[-> ->]|[[-> ->]|[[-> ->]|[-> ->]]]]];
    destruct (template_cases _ _ H2) as
      [[-> ->]|[[-> ->]|[[-> ->]|[[-> ->]|[-> ->]]]]];
    try (apply (f_equal (String.get 0)) in H; vm_compute in H; discriminate H).
    + change ("license-" +:+ (hash1 +:+ ".txt") = "license-" +:+ (hash2 +:+ ".txt")) in H.
      by apply append_inv_l, append_inv_r in H.
    + change ("model-" +:+ (hash1 +:+ ".gguf") = "model-" +:+ (hash2 +:+ ".gguf")) in H.
      by apply append_inv_l, append_inv_r in H.
    + change ("params-" +:+ (hash1 +:+ ".json") = "params-" +:+ (hash2 +:+ ".json")) in H.
      by apply append_inv_l, append_inv_r in H.
    + change ("system-" +:+ (hash1 +:+ ".txt") = "system-" +:+ (hash2 +:+ ".txt")) in H.
      by apply append_inv_l, append_inv_r in H.
    + change ("template-" +:+ (hash1 +:+ ".txt") = "template-" +:+ (hash2 +:+ ".txt")) in H.
      by apply append_inv_l, append_inv_r in H.
  - intros [-> ->]. rewrite H1 in H2. by injection H2 as ->.
Qed.

Lemma file_name_determines_kind_and_hash_witness :
  Sprintf "model-%s.gguf" [FStr "dde5aa3fc5ff"]
  <> Sprintf "system-%s.txt" [FStr "dde5aa3fc5ff"].
Proof.
  intros H.
  apply (file_name_determines_kind_and_hash
           "application/vnd.ollama.image.model" "application/vnd.ollama.image.system"
           "model-%s.gguf" "system-%s.txt" "dde5aa3fc5ff" "dde5aa3fc5ff") in H.
  - destruct H as [H _]. discriminate H.
  - reflexivity.
  - reflexivity.
Defined.

(** * Further facts about the orchestrator *)

Lemma exec_preserves (worlds : nat -> Z -> attempt_world)
    (jobs : list DownloadJob.t) (P : sys -> Prop) :
  (forall c s s', P s -> step worlds jobs c s = Some s' -> P s') ->
  forall schedule s s',
    P s -> exec worlds jobs schedule s = Some s' -> P s'.
Proof.
  intros Hstep. induction schedule as [|c schedule IH]; intros s s' HP; simpl.
  - by intros [= <-].
  - destruct (step worlds jobs c s) as [s1|] eqn:Hs; [|done].
    apply IH. by eapply Hstep.
Qed.

Lemma active_nonneg (gs : list goroutine) : (0 <= active gs)%Z.
Proof.
  induction gs as [|g gs IH]; simpl; [lia|].
  unfold in_downloadBlob. destruct (g_pc g); lia.
Qed.

Lemma active_pos (gs : list goroutine) :
  active gs <> 0%Z ->
  exists k g attempt, gs !! k = Some g /\ g_pc g = AtLoop attempt.
Proof.
  induction gs as [|g gs IH]; simpl; [done|].
  unfold in_downloadBlob. destruct (g_pc g) as [a| |] eqn:Hpc.
  - intros _. by exists 0%nat, g, a.
  - intros H. destruct IH as (k & g' & a & Hk & Ha); [lia|]. by exists (S k), g', a.
  - intros H. destruct IH as (k & g' & a & Hk & Ha); [lia|]. by exists (S k), g', a.
Qed.

(** X14: in every state the program reaches, the counter of the wait
    group is the number of goroutines that are still inside
    [downloadBlob]; it is never negative, so no [wg.Done()] can panic. *)
Theorem wait_group_counts_transfers (worlds : nat -> Z -> attempt_world)
    (jobs : list DownloadJob.t) (m : gmap string (list byte)) (s : sys) :
  reachable worlds jobs m s ->
  wg (sys_state s) = active (goroutines s) /\ (0 <= wg (sys_state s))%Z.
Proof.
  intros Hr. destruct (reachable_inv _ _ _ _ Hr) as [Hwg _].
  split; [exact Hwg|]. rewrite Hwg. apply active_nonneg.
Qed.

Lemma wait_group_counts_transfers_witness :
  exists s,
    exec (fun _ _ => serve 404 [] None) [demo_job; tiny_job]
      [RunMain; RunMain; RunGoroutine 0] (initial ∅) = Some s /\
    wg (sys_state s) = active (goroutines s) /\
    wg (sys_state s) = 1%Z.
Proof.
  destruct (exec (fun _ _ => serve 404 [] None) [demo_job; tiny_job]
              [RunMain; RunMain; RunGoroutine 0] (initial ∅)) as [s|] eqn:Hex;
    [|vm_compute in Hex; discriminate Hex].
  exists s. split; [reflexivity|].
  destruct (wait_group_counts_transfers (fun _ _ => serve 404 [] None)
              [demo_job; tiny_job] ∅ s
              (ex_intro _ [RunMain; RunMain; RunGoroutine 0] Hex)) as [Hwg _].
  split; [exact Hwg|].
  vm_compute in Hex. injection Hex as <-. reflexivity.
Defined.

Lemma goroutine_step_AtLoop_Some (worlds : nat -> Z -> attempt_world)
    (g : goroutine) (attempt : Z) (st : state) :
  g_pc g = AtLoop attempt -> is_Some (goroutine_step worlds g st).
Proof.
  intros Hpc. unfold goroutine_step. rewrite Hpc.
  destruct (attempt <=? numRetries)%Z; [|eauto].
  destruct (downloadBlob_iter _ _ st) as [st' [|e]]; eauto.
Qed.

(** X15: the program cannot get stuck: in every state it reaches it has
    either exited, or some goroutine, the main one or a transfer, can take
    a step.  In particular [wg.Wait()] never blocks for ever: while the
    counter is not zero a transfer is still running. *)
Theorem no_deadlock (worlds : nat -> Z -> attempt_world)
    (jobs : list DownloadJob.t) (m : gmap string (list byte)) (s : sys) :
  reachable worlds jobs m s ->
  (exists code, pc s = Exited code) \/
  exists c s', step worlds jobs c s = Some s'.
Proof.
  intros Hr. destruct (reachable_inv _ _ _ _ Hr) as [Hwg _].
  assert (Hnp : pc s <> Panicked).
  { destruct Hr as [schedule Hex]. revert Hex.
    apply (exec_preserves worlds jobs (fun s => pc s <> Panicked)); [|done].
    intros c s0 s' Hp. unfold step. destruct (running s0); [|done].
    destruct c as [|k].
    - unfold main_step. destruct (pc s0); [|done|done].
      destruct (jobs !! i); [by destruct (Stat_ok _ _); intros [= <-]|].
      destruct (_ =? _)%Z; [by intros [= <-] | done].
    - destruct (goroutines s0 !! k); [|done].
      destruct (goroutine_step _ _ _) as [[[? ?] ?]|]; [|done].
      by intros [= <-]. }
  destruct (pc s) as [i|code|] eqn:Hpc; [|eauto|done].
  right. unfold step, running. rewrite Hpc.
  destruct (jobs !! i) as [job|] eqn:Hjob.
  - exists RunMain. unfold main_step. rewrite Hpc, Hjob.
    destruct (Stat_ok _ _); eauto.
  - destruct (Z.eqb_spec (wg (sys_state s)) 0) as [H0|Hne].
    + exists RunMain. unfold main_step. rewrite Hpc, Hjob.
      destruct (Z.eqb_spec (wg (sys_state s)) 0); [eauto | done].
    + destruct (active_pos (goroutines s)) as (k & g & a & Hk & Ha); [congruence|].
      exists (RunGoroutine k). rewrite Hk.
      destruct (goroutine_step_AtLoop_Some worlds g a (sys_state s) Ha)
        as [[[st' pc'] out] ->].
      eauto.
Qed.

Lemma no_deadlock_witness :
  exists s c s',
    exec (fun _ _ => serve 404 [] None) [demo_job] [RunMain] (initial ∅) = Some s /\
    step (fun _ _ => serve 404 [] None) [demo_job] c s = Some s'.
Proof.
  destruct (exec (fun _ _ => serve 404 [] None) [demo_job] [RunMain] (initial ∅))
    as [s|] eqn:Hex; [|vm_compute in Hex; discriminate Hex].
  exists s.
  destruct (no_deadlock (fun _ _ => serve 404 [] None) [demo_job] ∅ s
              (ex_intro _ [RunMain] Hex)) as [[code Hc] | (c & s' & Hs)].
  - vm_compute in Hex. injection Hex as <-. discriminate Hc.
  - exists c, s'. split; [reflexivity | exact Hs].
Defined.

Lemma goroutines_steps_left_app (gs1 gs2 : list goroutine) :
  goroutines_steps_left (gs1 ++ gs2)
  = (goroutines_steps_left gs1 + goroutines_steps_left gs2)%nat.
Proof. induction gs1 as [|g gs1 IH]; simpl; [done | rewrite IH; lia]. Qed.

Lemma goroutines_steps_left_insert (gs : list goroutine) (k : nat)
    (g g' : goroutine) :
  gs !! k = Some g ->
  (goroutines_steps_left (<[k := g']> gs) + goroutine_steps_left (g_pc g)
   = goroutines_steps_left gs + goroutine_steps_left (g_pc g'))%nat.
Proof.
  revert k. induction gs as [|g0 gs IH]; intros [|k] Hk; simpl in *; try done.
  - injection Hk as ->. lia.
  - specialize (IH _ Hk). lia.
Qed.

Lemma goroutine_step_decreases (worlds : nat -> Z -> attempt_world)
    (g : goroutine) (st st' : state) (pc' : goroutine_pc) (out : list string) :
  goroutine_step worlds g st = Some (st', pc', out) ->
  (goroutine_steps_left pc' < goroutine_steps_left (g_pc g))%nat.
Proof.
  unfold goroutine_step. destruct (g_pc g) as [a|[e|]|]; simpl.
  - destruct (Z.leb_spec a numRetries).
    + destruct (downloadBlob_iter _ _ st) as [st1 [|e]];
        intros [= <- <- <-]; simpl; unfold numRetries in *; lia.
    + intros [= <- <- <-]. simpl. lia.
  - intros [= <- <- <-]. simpl. lia.
  - intros [= <- <- <-]. simpl. lia.
  - done.
Qed.

Lemma step_decreases (worlds : nat -> Z -> attempt_world)
    (jobs : list DownloadJob.t) (c : choice) (s s' : sys) :
  step worlds jobs c s = Some s' ->
  (steps_left jobs s' < steps_left jobs s)%nat.
Proof.
  unfold step, steps_left. destruct (running s); [|done].
  destruct c as [|k].
  - unfold main_step. destruct (pc s) as [i| |]; [|done|done].
    destruct (jobs !! i) as [job|] eqn:Hjob.
    + apply lookup_lt_Some in Hjob.
      destruct (Stat_ok _ _); intros [= <-]; simpl.
      * lia.
      * rewrite goroutines_steps_left_app. simpl. unfold numRetries. lia.
    + destruct (_ =? _)%Z; [|done]. intros [= <-]. simpl. lia.
  - destruct (goroutines s !! k) as [g|] eqn:Hk; [|done].
    destruct (goroutine_step worlds g (sys_state s)) as [[[st' pc'] out]|] eqn:Hg;
      [|done].
    intros [= <-]. simpl.
    pose proof (goroutine_step_decreases _ _ _ _ _ _ Hg) as Hd.
    pose proof (goroutines_steps_left_insert (goroutines s) k g
                  (mkGoroutine (g_idx g) (g_job g) pc') Hk) as Hi.
    simpl in Hi. lia.
Qed.

Lemma exec_steps_left (worlds : nat -> Z -> attempt_world)
    (jobs : list DownloadJob.t) (schedule : list choice) :
  forall s s',
    exec worlds jobs schedule s = Some s' ->
    (length schedule + steps_left jobs s' <= steps_left jobs s)%nat.
Proof.
  induction schedule as [|c schedule IH]; intros s s'; simpl.
  - intros [= <-]. lia.
  - destruct (step worlds jobs c s) as [s1|] eqn:Hs; [|done].
    intros Hex. specialize (IH _ _ Hex).
    pose proof (step_decreases _ _ _ _ _ Hs). lia.
Qed.

(** X16: the program terminates under every schedule: however the
    goroutines are interleaved, with [n] jobs no run takes more than
    [13 * n + 1] steps (per job one step of the range loop and at most
    twelve of its goroutine, and the step past [wg.Wait()]). *)
Theorem runs_are_bounded (worlds : nat -> Z -> attempt_world)
    (jobs : list DownloadJob.t) (m : gmap string (list byte))
    (schedule : list choice) (s : sys) :
  exec worlds jobs schedule (initial m) = Some s ->
  (length schedule <= 13 * length jobs + 1)%nat.
Proof.
  intros Hex. pose proof (exec_steps_left _ _ _ _ _ Hex) as H.
  unfold steps_left at 2 in H. simpl in H. lia.
Qed.

Lemma runs_are_bounded_witness :
  (length [RunMain; RunGoroutine 0; RunGoroutine 0; RunMain] <= 13 * 1 + 1)%nat.
Proof.
  destruct (exec (fun _ _ => serve 404 [] None) [demo_job]
              [RunMain; RunGoroutine 0; RunGoroutine 0; RunMain] (initial ∅))
    as [s|] eqn:Hex; [|vm_compute in Hex; discriminate Hex].
  apply (runs_are_bounded (fun _ _ => serve 404 [] None) [demo_job] ∅ _ s Hex).
Defined.

Lemma step_exit_inv (worlds : nat -> Z -> attempt_world)
    (jobs : list DownloadJob.t) (c : choice) (s s' : sys) :
  exit_inv s -> step worlds jobs c s = Some s' -> exit_inv s'.
Proof.
  unfold step, running, exit_inv.
  destruct (pc s) as [i| |] eqn:Hpc; [|done|done]. intros Hout.
  destruct c as [|k].
  - unfold main_step. rewrite Hpc. destruct (jobs !! i) as [job|].
    + destruct (Stat_ok _ _); intros [= <-]; simpl; [|done].
      rewrite not_elem_of_app. split; [done|].
      rewrite not_elem_of_cons. split; [|apply not_elem_of_nil].
      intros H. apply (f_equal (String.get 0)) in H. vm_compute in H. discriminate H.
    + destruct (_ =? _)%Z; [|done]. intros [= <-]. simpl.
      split; [done|]. exists (stdout s), [].
      split; [done|]. split; [done | apply not_elem_of_nil].
  - destruct (goroutines s !! k) as [g|]; [|done].
    destruct (goroutine_step worlds g (sys_state s)) as [[[st' pc'] out]|] eqn:Hg;
      [|done].
    intros [= <-]. simpl.
    rewrite not_elem_of_app. split; [done|].
    unfold goroutine_step in Hg. destruct (g_pc g) as [a|[e|]|].
    + destruct (a <=? numRetries)%Z.
      * destruct (downloadBlob_iter _ _ _) as [st1 [|e]]; injection Hg as <- <- <-;
          apply not_elem_of_nil.
      * injection Hg as <- <- <-. apply not_elem_of_nil.
    + injection Hg as <- <- <-.
      rewrite not_elem_of_cons. split; [|apply not_elem_of_nil].
      intros H. apply (f_equal (String.get 9)) in H. vm_compute in H. discriminate H.
    + injection Hg as <- <- <-. apply not_elem_of_nil.
    + done.
Qed.

(** X17: when the jobs could be resolved, the exit status of [main] is 0
    whatever became of the transfers, and [main] never panics in the
    range loop or the join.  The line "Download complete" is not printed
    while [main] is in the range loop or waits in [wg.Wait()], and once
    [main] has exited it is on standard output exactly once.  (Whether a
    line "Download error: ..." of a goroutine that is past its
    [wg.Done()] comes before or after it is left open.) *)
Theorem exit_status_is_zero (worlds : nat -> Z -> attempt_world)
    (jobs : list DownloadJob.t) (m : gmap string (list byte)) (s : sys) :
  reachable worlds jobs m s ->
  pc s <> Panicked /\
  (forall i, pc s = Ranging i -> "Download complete" ∉ stdout s) /\
  forall code,
    pc s = Exited code ->
    code = 0%Z /\
    exists out out', stdout s = (out ++ ("Download complete" :: out'))%list /\
                     ("Download complete" ∉ out) /\
                     ("Download complete" ∉ out').
Proof.
  intros [schedule Hex].
  assert (Hinv : exit_inv s).
  { revert Hex. apply (exec_preserves worlds jobs exit_inv).
    - intros c s0 s'. apply step_exit_inv.
    - unfold exit_inv. simpl. apply not_elem_of_nil. }
  unfold exit_inv in Hinv. destruct (pc s) as [i|code|]; [| |done].
  - split; [done|]. split; [by intros ? _ | by intros code].
  - split; [done|]. split; [by intros i | by intros ? [= <-]].
Qed.

Lemma exit_status_is_zero_witness :
  exists s,
    exec (fun _ _ => serve 404 [] None) [demo_job]
      [RunMain; RunGoroutine 0; RunGoroutine 0; RunMain] (initial ∅) = Some s /\
    pc s = Exited 0 /\
    stdout s = ["Download error: unexpected status code: 404"; "Download complete"].
Proof.
  destruct (exec (fun _ _ => serve 404 [] None) [demo_job]
              [RunMain; RunGoroutine 0; RunGoroutine 0; RunMain] (initial ∅))
    as [s|] eqn:Hex; [|vm_compute in Hex; discriminate Hex].
  exists s. split; [reflexivity|].
  destruct (exit_status_is_zero (fun _ _ => serve 404 [] None) [demo_job] ∅ s
              (ex_intro _ _ Hex)) as (_ & _ & Hexit).
  vm_compute in Hex. injection Hex as <-.
  destruct (Hexit 0%Z eq_refl) as [_ _]. split; reflexivity.
Defined.

Lemma fmap_idx_insert (gs : list goroutine) (k : nat) (g : goroutine)
    (pc' : goroutine_pc) :
  gs !! k = Some g ->
  g_idx <$> <[k := mkGoroutine (g_idx g) (g_job g) pc']> gs = g_idx <$> gs.
Proof.
  revert k. induction gs as [|g0 gs IH]; intros [|k] Hk; simpl in *; try done.
  - by injection Hk as ->.
  - f_equal. by apply IH.
Qed.

Lemma step_idx_inv (worlds : nat -> Z -> attempt_world)
    (jobs : list DownloadJob.t) (c : choice) (s s' : sys) :
  idx_inv jobs s -> step worlds jobs c s = Some s' -> idx_inv jobs s'.
Proof.
  intros (Hnd & Hjobs & Hlt). unfold step, running.
  destruct (pc s) as [i| |] eqn:Hpc; [|done|done].
  specialize (Hlt i eq_refl).
  destruct c as [|k].
  - unfold main_step. rewrite Hpc. destruct (jobs !! i) as [job|] eqn:Hjob.
    + destruct (Stat_ok _ _); intros [= <-]; (split; [|split]); simpl.
      * done.
      * done.
      * intros j [= <-]. eapply Forall_impl; [exact Hlt|]. simpl. lia.
      * rewrite fmap_app. simpl. apply NoDup_app. split; [done|].
        split; [|apply NoDup_singleton].
        intros x Hx Hx'. apply list_elem_of_singleton in Hx' as ->.
        apply list_elem_of_fmap in Hx as (g & Hg & Hin).
        rewrite Forall_forall in Hlt. specialize (Hlt _ Hin). lia.
      * apply Forall_app. split; [done|]. by constructor.
      * intros j [= <-]. apply Forall_app. split.
        -- eapply Forall_impl; [exact Hlt|]. simpl. lia.
        -- constructor; [simpl; lia | constructor].
    + destruct (_ =? _)%Z; [|done]. intros [= <-]. by split.
  - destruct (goroutines s !! k) as [g|] eqn:Hk; [|done].
    destruct (goroutine_step worlds g (sys_state s)) as [[[st' pc'] out]|]; [|done].
    intros [= <-]. split; [|split]; simpl.
    + by rewrite fmap_idx_insert.
    + eapply Forall_insert_idx; [done| |done]. done.
    + intros j Hj. injection Hj as <-.
      eapply Forall_insert_idx; [done| |done]. done.
Qed.

Lemma NoDup_below (l : list nat) (n : nat) :
  NoDup l -> Forall (fun x => (x < n)%nat) l -> (length l <= n)%nat.
Proof.
  intros Hnd Hall.
  rewrite <- (length_seq n 0). apply submseteq_length, NoDup_submseteq; [done|].
  intros x Hx. rewrite Forall_forall in Hall. apply elem_of_seq.
  specialize (Hall _ Hx). lia.
Qed.

(** X18: a job is never transferred twice at a time: in every state the
    program reaches, each goroutine transfers a job of the list, at the
    index it was dispatched for, no two goroutines have the same index,
    and so there are at most as many goroutines as jobs. *)
Theorem one_goroutine_per_job (worlds : nat -> Z -> attempt_world)
    (jobs : list DownloadJob.t) (m : gmap string (list byte)) (s : sys) :
  reachable worlds jobs m s ->
  NoDup (g_idx <$> goroutines s) /\
  Forall (fun g => jobs !! g_idx g = Some (g_job g)) (goroutines s) /\
  (length (goroutines s) <= length jobs)%nat.
Proof.
  intros [schedule Hex].
  assert (Hinv : idx_inv jobs s).
  { revert Hex. apply (exec_preserves worlds jobs (idx_inv jobs)).
    - intros c s0 s'. apply step_idx_inv.
    - split; [constructor|]. split; [constructor|]. intros j _. constructor. }
  destruct Hinv as (Hnd & Hjobs & _). split; [done|]. split; [done|].
  rewrite <- (length_fmap g_idx). apply NoDup_below; [done|].
  apply Forall_fmap. eapply Forall_impl; [exact Hjobs|].
  intros g Hg. apply lookup_lt_Some in Hg. exact Hg.
Qed.

Lemma one_goroutine_per_job_witness :
  exists s,
    exec (fun _ _ => serve 404 [] None) [demo_job; demo_job]
      [RunMain; RunMain] (initial ∅) = Some s /\
    g_idx <$> goroutines s = [0%nat; 1%nat].
Proof.
  destruct (exec (fun _ _ => serve 404 [] None) [demo_job; demo_job]
              [RunMain; RunMain] (initial ∅)) as [s|] eqn:Hex;
    [|vm_compute in Hex; discriminate Hex].
  exists s. split; [reflexivity|].
  destruct (one_goroutine_per_job (fun _ _ => serve 404 [] None) [demo_job; demo_job]
              ∅ s (ex_intro _ _ Hex)) as (_ & _ & _).
  vm_compute in Hex. injection Hex as <-. reflexivity.
Defined.


Lemma range_loop_dispatches (worlds : nat -> Z -> attempt_world)
    (jobs : list DownloadJob.t) :
  forall (rest : list DownloadJob.t) (i : nat) (s : sys),
    pc s = Ranging i ->
    (i <= length jobs)%nat ->
    drop i jobs = rest ->
    exists s',
      exec worlds jobs (replicate (length rest) RunMain) s = Some s' /\
      pc s' = Ranging (length jobs) /\
      fs (sys_state s') = fs (sys_state s) /\
      net (sys_state s') = net (sys_state s) /\
      exists spawned,
        goroutines s' = (goroutines s ++ spawned)%list /\
        g_job <$> spawned
        = filter (fun job => fs (sys_state s) !! DownloadJob.DestPath job = None) rest /\
        Forall (fun g => g_pc g = AtLoop 1) spawned /\
        wg (sys_state s') = (wg (sys_state s) + Z.of_nat (length spawned))%Z.
Proof.
  induction rest as [|job rest IH]; intros i s Hpc Hi Hdrop.
  - exists s. split; [done|]. split.
    + rewrite Hpc. f_equal.
      pose proof (f_equal length Hdrop) as Hl. rewrite length_drop in Hl. simpl in Hl.
      lia.
    + split; [done|]. split; [done|]. exists []. rewrite app_nil_r.
      split; [done|]. split; [done|]. split; [constructor | simpl; lia].
  - assert (Hjob : jobs !! i = Some job).
    { pose proof (lookup_drop jobs i 0) as Hlk. rewrite Hdrop in Hlk. simpl in Hlk.
      by rewrite Nat.add_0_r in Hlk. }
    assert (Hlt : (S i <= length jobs)%nat).
    { apply lookup_lt_Some in Hjob. lia. }
    assert (Hrest : drop (S i) jobs = rest).
    { rewrite (drop_S _ _ _ Hjob) in Hdrop. by injection Hdrop. }
    simpl. unfold step at 1, running, main_step. rewrite Hpc, Hjob.
    unfold Stat_ok.
    destruct (fs (sys_state s) !! DownloadJob.DestPath job) as [c|] eqn:Hdest.
    + rewrite bool_decide_eq_true_2 by eauto.
      destruct (IH (S i) (mkSys (sys_state s)
                           (stdout s ++ [Println ["Already have"; DownloadJob.DestPath job]])
                           (goroutines s) (Ranging (S i))) eq_refl Hlt Hrest)
        as (s' & Hex & Hpc' & Hfs & Hnet & spawned & Hgs & Hj & Hall & Hwg).
      exists s'. split; [exact Hex|]. split; [done|]. split; [done|]. split; [done|].
      exists spawned. split; [done|]. split; [|done].
      rewrite filter_cons_False; [done|]. simpl. by rewrite Hdest.
    + rewrite bool_decide_eq_false_2 by (by intros [x Hx]).
      destruct (IH (S i) (mkSys (wg_Add (sys_state s) 1) (stdout s)
                           (goroutines s ++ [mkGoroutine i job (AtLoop 1)])
                           (Ranging (S i))) eq_refl Hlt Hrest)
        as (s' & Hex & Hpc' & Hfs & Hnet & spawned & Hgs & Hj & Hall & Hwg).
      exists s'. split; [exact Hex|]. split; [done|]. split; [done|]. split; [done|].
      exists (mkGoroutine i job (AtLoop 1) :: spawned).
      cbn [sys_state goroutines fs wg wg_Add] in Hgs, Hj, Hwg.
      split; [by rewrite Hgs, <- app_assoc|]. split.
      * rewrite fmap_cons, filter_cons_True by done. cbn [g_job]. f_equal. exact Hj.
      * split; [by constructor|]. rewrite Hwg. cbn [length]. lia.
Qed.

(** X19: nothing bounds the number of concurrent transfers: the range
    loop can run to its end before any transfer takes a step, and then
    every job whose destination path is absent has its goroutine, entries
    that occur twice in the list included, each about to make its first
    attempt, the wait group counting them all and no request sent yet. *)
Theorem fan_out_is_unbounded (worlds : nat -> Z -> attempt_world)
    (jobs : list DownloadJob.t) (m : gmap string (list byte)) :
  exists s,
    exec worlds jobs (replicate (length jobs) RunMain) (initial m) = Some s /\
    pc s = Ranging (length jobs) /\
    g_job <$> goroutines s
    = filter (fun job => m !! DownloadJob.DestPath job = None) jobs /\
    Forall (fun g => g_pc g = AtLoop 1) (goroutines s) /\
    wg (sys_state s) = Z.of_nat (length (goroutines s)) /\
    net (sys_state s) = [].
Proof.
  destruct (range_loop_dispatches worlds jobs jobs 0 (initial m) eq_refl
              ltac:(lia) eq_refl)
    as (s & Hex & Hpc & _ & Hnet & spawned & Hgs & Hj & Hall & Hwg).
  exists s. unfold initial, boot in Hgs, Hj, Hwg, Hnet.
  cbn [sys_state goroutines fs wg net app] in Hgs, Hj, Hwg, Hnet.
  rewrite Hgs. split; [exact Hex|]. split; [exact Hpc|].
  split; [exact Hj|]. split; [exact Hall|]. split; [rewrite Hwg; lia | exact Hnet].
Qed.
